(** * AiKiCad: the AI chat plugin's command pipeline

    A shallow embedding of [plugins/ai_chat/ai_command_processor.cpp] and
    [plugins/ai_chat/ai_service.cpp]: the response miner and two-pass
    scheduler of [ProcessCommandsFromResponse], the schematic command
    handler with its parsers, symbol placement and pin connection, and the
    Ollama client's model selection and streamed-response assembly; then
    [ProcessCommand] over the service interface, the setters of the client,
    and the command history of [plugins/ai_chat/panel_ai_chat.cpp].

    Text is modelled as [string] (8-bit characters); [wxString] methods keep
    their names.  The host application (frames, library tables, screen,
    commits) is a record of the data the plugin reads and edits. *)

From Stdlib Require Import Strings.String Strings.Ascii Lists.List.
From Stdlib Require Import ZArith Bool Arith Lia.
Import ListNotations.

Local Open Scope string_scope.
Local Open Scope bool_scope.

(* ================================================================== *)
(** * wxString                                                          *)
(* ================================================================== *)

(** [wxNOT_FOUND], the value [Find] returns when nothing is found. *)
Definition wxNOT_FOUND : Z := (-1)%Z.

Definition IsEmpty (s : string) : bool :=
  match s with EmptyString => true | String _ _ => false end.

Definition ascii_between (lo hi c : ascii) : bool :=
  (nat_of_ascii lo <=? nat_of_ascii c)%nat && (nat_of_ascii c <=? nat_of_ascii hi)%nat.

(** [isspace] in the C locale: space, and the controls 9 to 13. *)
Definition wxIsspace (c : ascii) : bool :=
  Ascii.eqb c " " || ascii_between (ascii_of_nat 9) (ascii_of_nat 13) c.

Definition wxIsdigit (c : ascii) : bool := ascii_between "0" "9" c.

Definition wxIsupper (c : ascii) : bool := ascii_between "A" "Z" c.

Definition wxIslower (c : ascii) : bool := ascii_between "a" "z" c.

Definition wxTolower (c : ascii) : ascii :=
  if wxIsupper c then ascii_of_nat (nat_of_ascii c + 32) else c.

(** [wxString::Lower]. *)
Fixpoint Lower (s : string) : string :=
  match s with
  | EmptyString => EmptyString
  | String c s' => String (wxTolower c) (Lower s')
  end.

Fixpoint trim_left (s : string) : string :=
  match s with
  | EmptyString => EmptyString
  | String c s' => if wxIsspace c then trim_left s' else s
  end.

Fixpoint trim_right (s : string) : string :=
  match s with
  | EmptyString => EmptyString
  | String c s' =>
      let t := trim_right s' in
      if IsEmpty t && wxIsspace c then EmptyString else String c t
  end.

(** [wxString::Trim( bool bFromRight = true )]. *)
Definition Trim (bFromRight : bool) (s : string) : string :=
  if bFromRight then trim_right s else trim_left s.

(** [wxString::StartsWith], case-sensitive. *)
Definition StartsWith (s p : string) : bool := String.prefix p s.

(** [wxString::Mid( nFirst )]: the rest of the string from [nFirst]. *)
Fixpoint Mid (s : string) (nFirst : nat) {struct nFirst} : string :=
  match nFirst, s with
  | O, _ => s
  | S n, String _ s' => Mid s' n
  | S _, EmptyString => EmptyString
  end.

(** [wxString::Mid( nFirst, nCount )]. *)
Definition MidCount (s : string) (nFirst nCount : nat) : string :=
  String.substring 0 nCount (Mid s nFirst).

(** [wxString::SubString( from, to )] is [Mid( from, to - from + 1 )]. *)
Definition SubString (s : string) (from to : nat) : string :=
  MidCount s from (to + 1 - from).

(** [wxString::EndsWith]. *)
Definition EndsWith (s p : string) : bool :=
  (String.length p <=? String.length s)%nat &&
  String.eqb (Mid s (String.length s - String.length p)) p.

(** Position of the first occurrence of [sub] in [s]. *)
Fixpoint find_str (s sub : string) : option nat :=
  if String.prefix sub s then Some O
  else match s with
       | EmptyString => None
       | String _ s' => option_map S (find_str s' sub)
       end.

(** [wxString::Find( const wxString& )], an [int]. *)
Definition Find (s sub : string) : Z :=
  match find_str s sub with Some n => Z.of_nat n | None => wxNOT_FOUND end.

(** [wxString::Contains]. *)
Definition Contains (s sub : string) : bool :=
  negb (Find s sub =? wxNOT_FOUND)%Z.

Fixpoint find_chr (s : string) (c : ascii) : option nat :=
  match s with
  | EmptyString => None
  | String a s' => if Ascii.eqb a c then Some O else option_map S (find_chr s' c)
  end.

(** [wxString::Find( wxUniChar )]. *)
Definition FindChar (s : string) (c : ascii) : Z :=
  match find_chr s c with Some n => Z.of_nat n | None => wxNOT_FOUND end.

(** [wxString::find( ch, nStart )] stored in an [int]: [npos] becomes -1. *)
Definition find_from (s : string) (c : ascii) (nStart : nat) : Z :=
  match find_chr (Mid s nStart) c with
  | Some n => Z.of_nat (nStart + n)
  | None => wxNOT_FOUND
  end.

(** [wxString::BeforeFirst]: the whole string when [c] does not occur. *)
Fixpoint BeforeFirst (s : string) (c : ascii) : string :=
  match s with
  | EmptyString => EmptyString
  | String a s' => if Ascii.eqb a c then EmptyString else String a (BeforeFirst s' c)
  end.

(** [wxString::AfterFirst]: empty when [c] does not occur. *)
Fixpoint AfterFirst (s : string) (c : ascii) : string :=
  match s with
  | EmptyString => EmptyString
  | String a s' => if Ascii.eqb a c then s' else AfterFirst s' c
  end.

(** [wxString::CmpNoCase]: the order of the lower-cased strings. *)
Definition CmpNoCase (a b : string) : comparison :=
  String.compare (Lower a) (Lower b).

Definition is_Eq (c : comparison) : bool :=
  match c with Eq => true | _ => false end.

(** [wxString::Replace( old, new )] with [replaceAll = true]; [old] is never
    empty where the plugin calls it. *)
Fixpoint Replace_fuel (fuel : nat) (s old new : string) : string :=
  match fuel with
  | O => s
  | S fuel' =>
      match s with
      | EmptyString => EmptyString
      | String c s' =>
          if String.prefix old s && negb (IsEmpty old)
          then new ++ Replace_fuel fuel' (Mid s (String.length old)) old new
          else String c (Replace_fuel fuel' s' old new)
      end
  end.

Definition Replace (s old new : string) : string :=
  Replace_fuel (S (String.length s)) s old new.

(** ** Numbers *)

Fixpoint digits_value (acc : Z) (s : string) : option Z :=
  match s with
  | EmptyString => Some acc
  | String c s' =>
      if wxIsdigit c
      then digits_value (10 * acc + Z.of_nat (nat_of_ascii c - 48))%Z s'
      else None
  end.

Definition LONG_MIN : Z := (- 2 ^ 63)%Z.
Definition LONG_MAX : Z := (2 ^ 63 - 1)%Z.

(** [wxString::ToLong( &val )], base 10, for a 64-bit [long]: [strtol] skips
    leading white space and takes an optional sign; the call fails on an
    empty number, on trailing characters and on overflow. *)
Definition ToLong (s : string) : option Z :=
  let t := trim_left s in
  let signed (neg : bool) (ds : string) :=
    if IsEmpty ds then None
    else match digits_value 0%Z ds with
         | Some v =>
             let v' := if neg then (- v)%Z else v in
             if (LONG_MIN <=? v')%Z && (v' <=? LONG_MAX)%Z then Some v' else None
         | None => None
         end in
  match t with
  | String "-" ds => signed true ds
  | String "+" ds => signed false ds
  | _ => signed false t
  end.

(** [static_cast<int>( long )]: the low 32 bits, read as a signed number. *)
Definition static_cast_int (v : Z) : Z :=
  ((v + 2 ^ 31) mod 2 ^ 32 - 2 ^ 31)%Z.

Fixpoint uint_digits (fuel : nat) (n : N) (acc : string) : string :=
  match fuel with
  | O => acc
  | S fuel' =>
      let d := String (ascii_of_N (48 + N.modulo n 10)) acc in
      if (n <? 10)%N then d else uint_digits fuel' (N.div n 10) d
  end.

(** The [%d] conversion of [wxString::Format]. *)
Definition format_d (v : Z) : string :=
  match v with
  | Z0 => "0"
  | Zpos p => uint_digits (Pos.to_nat (Pos.size p)) (Npos p) ""
  | Zneg p => String "-" (uint_digits (Pos.to_nat (Pos.size p)) (Npos p) "")
  end.

(** ** Splitting and joining *)

(** The fields of [s] between occurrences of [sep]; never empty. *)
Fixpoint fields (sep : ascii) (s : string) : list string :=
  match s with
  | EmptyString => [EmptyString]
  | String c s' =>
      if Ascii.eqb c sep then EmptyString :: fields sep s'
      else match fields sep s' with
           | f :: fs => String c f :: fs
           | [] => [String c EmptyString]
           end
  end.

(** [wxSplit( s, sep, '\0' )]: without an escape character it tokenizes with
    [wxTOKEN_RET_EMPTY_ALL]; the empty string has no token. *)
Definition wxSplit (s : string) (sep : ascii) : list string :=
  if IsEmpty s then [] else fields sep s.

(** [wxStringTokenizer( s, delim )] with one white-space delimiter: the
    [strtok] mode, which never returns an empty token. *)
Definition wxStringTokenizer (s : string) (delim : ascii) : list string :=
  filter (fun t => negb (IsEmpty t)) (fields delim s).

Fixpoint escape_sep (sep esc : ascii) (s : string) : string :=
  match s with
  | EmptyString => EmptyString
  | String c s' =>
      if Ascii.eqb c sep then String esc (String c (escape_sep sep esc s'))
      else String c (escape_sep sep esc s')
  end.

Definition last_char_is (s : string) (c : ascii) : bool :=
  EndsWith s (String c EmptyString).

(** [wxJoin( arr, sep )] with the default escape character, a backslash:
    separators inside an element are escaped, and so is a backslash that
    ends the text joined so far. *)
Fixpoint wxJoin_from (acc : string) (first : bool) (arr : list string)
                     (sep esc : ascii) : string :=
  match arr with
  | [] => acc
  | a :: rest =>
      let acc1 :=
        if first then acc
        else (if last_char_is acc esc then acc ++ String esc EmptyString else acc)
               ++ String sep EmptyString in
      wxJoin_from (acc1 ++ escape_sep sep esc a) false rest sep esc
  end.

Definition wxJoin (arr : list string) (sep : ascii) : string :=
  wxJoin_from EmptyString true arr sep "\".

(* ================================================================== *)
(** * wxRegEx                                                           *)
(* ================================================================== *)

(** The character classes the plugin's patterns use. *)
Inductive cclass : Type :=
| cls_space      (* \s *)
| cls_word       (* \w, and [\w\d] *)
| cls_word_dash  (* [\w\-] *)
| cls_digit      (* \d *)
| cls_sign.      (* [+-] *)

Definition is_word (c : ascii) : bool :=
  wxIsupper c || wxIslower c || wxIsdigit c || Ascii.eqb c "_".

Definition in_class (k : cclass) (c : ascii) : bool :=
  match k with
  | cls_space => wxIsspace c
  | cls_word => is_word c
  | cls_word_dash => is_word c || Ascii.eqb c "-"
  | cls_digit => wxIsdigit c
  | cls_sign => Ascii.eqb c "+" || Ascii.eqb c "-"
  end.

(** The pattern language: literals, classes, sequence, alternation, greedy
    repetition of a class, a greedy optional part and capture groups. *)
Inductive regex : Type :=
| re_eps
| re_chr (c : ascii)
| re_cls (k : cclass)
| re_seq (r1 r2 : regex)
| re_alt (r1 r2 : regex)
| re_star (k : cclass)
| re_plus (k : cclass)
| re_opt (r : regex)
| re_group (n : nat) (r : regex).

Fixpoint lit (s : string) : regex :=
  match s with
  | EmptyString => re_eps
  | String c EmptyString => re_chr c
  | String c s' => re_seq (re_chr c) (lit s')
  end.

Fixpoint seqs (rs : list regex) : regex :=
  match rs with
  | [] => re_eps
  | [r] => r
  | r :: rs' => re_seq r (seqs rs')
  end.

Definition captures : Type := list (nat * string).

Definition cont : Type := string -> captures -> option captures.

(** What was consumed between the text [s] and its suffix [s']. *)
Definition consumed (s s' : string) : string :=
  String.substring 0 (String.length s - String.length s') s.

(** Greedy repetition: the longest run first, then shorter ones. *)
Fixpoint rep (k : cclass) (s : string) (caps : captures) (kont : cont)
  : option captures :=
  match s with
  | String a s' =>
      if in_class k a then
        match rep k s' caps kont with
        | Some r => Some r
        | None => kont s caps
        end
      else kont s caps
  | EmptyString => kont s caps
  end.

(** A backtracking matcher anchored at the start of [s]; [icase] is
    [wxRE_ICASE]. *)
Fixpoint exec (icase : bool) (r : regex) (s : string) (caps : captures)
              (kont : cont) {struct r} : option captures :=
  match r with
  | re_eps => kont s caps
  | re_chr c =>
      match s with
      | String a s' =>
          if (if icase then Ascii.eqb (wxTolower a) (wxTolower c) else Ascii.eqb a c)
          then kont s' caps else None
      | EmptyString => None
      end
  | re_cls k =>
      match s with
      | String a s' => if in_class k a then kont s' caps else None
      | EmptyString => None
      end
  | re_seq r1 r2 =>
      exec icase r1 s caps (fun s' caps' => exec icase r2 s' caps' kont)
  | re_alt r1 r2 =>
      match exec icase r1 s caps kont with
      | Some x => Some x
      | None => exec icase r2 s caps kont
      end
  | re_star k => rep k s caps kont
  | re_plus k =>
      match s with
      | String a s' => if in_class k a then rep k s' caps kont else None
      | EmptyString => None
      end
  | re_opt r1 =>
      match exec icase r1 s caps kont with
      | Some x => Some x
      | None => kont s caps
      end
  | re_group n r1 =>
      exec icase r1 s caps (fun s' caps' => kont s' ((n, consumed s s') :: caps'))
  end.

(** [wxRegEx::Matches]: the leftmost match anywhere in the text. *)
Fixpoint Matches (icase : bool) (r : regex) (s : string) : option captures :=
  match exec icase r s [] (fun _ caps => Some caps) with
  | Some caps => Some caps
  | None =>
      match s with
      | String _ s' => Matches icase r s'
      | EmptyString => None
      end
  end.

(** [wxRegEx::GetMatch( text, n )]: empty for a group that took no part. *)
Fixpoint GetMatch (caps : captures) (n : nat) : string :=
  match caps with
  | [] => EmptyString
  | (m, v) :: rest => if Nat.eqb m n then v else GetMatch rest n
  end.

Fixpoint group_count (r : regex) : nat :=
  match r with
  | re_seq r1 r2 | re_alt r1 r2 => group_count r1 + group_count r2
  | re_opt r1 => group_count r1
  | re_group _ r1 => S (group_count r1)
  | _ => O
  end.

(** [wxRegEx::GetMatchCount]: the groups of the pattern, plus one. *)
Definition GetMatchCount (r : regex) : nat := S (group_count r).

(** The numbers of the groups of a pattern. *)
Fixpoint groups (r : regex) : list nat :=
  match r with
  | re_seq r1 r2 | re_alt r1 r2 => groups r1 ++ groups r2
  | re_opt r1 => groups r1
  | re_group n r1 => n :: groups r1
  | _ => []
  end.

Definition sp_plus : regex := re_plus cls_space.
Definition sp_star : regex := re_star cls_space.
Definition signed_number : regex := re_seq (re_opt (re_cls cls_sign)) (re_plus cls_digit).

(** [(?:\s+at\s+([+-]?\d+)\s*,\s*([+-]?\d+))?], the optional coordinate of
    the two add-component patterns, with the numbers of its groups. *)
Definition re_at (gx gy : nat) : regex :=
  re_opt (seqs [sp_plus; lit "at"; sp_plus; re_group gx signed_number;
                sp_star; re_chr ","; sp_star; re_group gy signed_number]).

(** [add\s+component\s+([\w\-]+):([\w\-]+)(?:\s+at\s+([+-]?\d+)\s*,\s*([+-]?\d+))?] *)
Definition re_add_component_lib : regex :=
  seqs [lit "add"; sp_plus; lit "component"; sp_plus;
        re_group 1 (re_plus cls_word_dash); re_chr ":";
        re_group 2 (re_plus cls_word_dash); re_at 3 4].

(** [add\s+component\s+(\w+)(?:\s+at\s+([+-]?\d+)\s*,\s*([+-]?\d+))?] *)
Definition re_add_component_bare : regex :=
  seqs [lit "add"; sp_plus; lit "component"; sp_plus;
        re_group 1 (re_plus cls_word); re_at 2 3].

(** [(?:modify|change)\s+component\s+(\w+)] *)
Definition re_modify_component : regex :=
  seqs [re_alt (lit "modify") (lit "change"); sp_plus; lit "component"; sp_plus;
        re_group 1 (re_plus cls_word)].

(** [(?:modify|change)\s+footprint\s+(\w+)] *)
Definition re_modify_footprint : regex :=
  seqs [re_alt (lit "modify") (lit "change"); sp_plus; lit "footprint"; sp_plus;
        re_group 1 (re_plus cls_word)].

(** [add\s+trace\s+from\s+(\d+)\s*,\s*(\d+)\s+to\s+(\d+)\s*,\s*(\d+)(?:\s+width\s+(\d+))?] *)
Definition re_add_trace : regex :=
  seqs [lit "add"; sp_plus; lit "trace"; sp_plus; lit "from"; sp_plus;
        re_group 1 (re_plus cls_digit); sp_star; re_chr ","; sp_star;
        re_group 2 (re_plus cls_digit); sp_plus; lit "to"; sp_plus;
        re_group 3 (re_plus cls_digit); sp_star; re_chr ","; sp_star;
        re_group 4 (re_plus cls_digit);
        re_opt (seqs [sp_plus; lit "width"; sp_plus; re_group 5 (re_plus cls_digit)])].

(** [(?:connect|wire)\s+(\w+)\.([\w\d]+)\s+to\s+(\w+)\.([\w\d]+)] *)
Definition re_connect_dot : regex :=
  seqs [re_alt (lit "connect") (lit "wire"); sp_plus;
        re_group 1 (re_plus cls_word); re_chr "."; re_group 2 (re_plus cls_word);
        sp_plus; lit "to"; sp_plus;
        re_group 3 (re_plus cls_word); re_chr "."; re_group 4 (re_plus cls_word)].

(** [(?:connect|wire)\s+(\w+)\s+pin\s+([\w\d]+)\s+to\s+(\w+)\s+pin\s+([\w\d]+)] *)
Definition re_connect_pin : regex :=
  seqs [re_alt (lit "connect") (lit "wire"); sp_plus;
        re_group 1 (re_plus cls_word); sp_plus; lit "pin"; sp_plus;
        re_group 2 (re_plus cls_word); sp_plus; lit "to"; sp_plus;
        re_group 3 (re_plus cls_word); sp_plus; lit "pin"; sp_plus;
        re_group 4 (re_plus cls_word)].

(* ================================================================== *)
(** * The command parsers                                               *)
(* ================================================================== *)

Record VECTOR2I : Type := mkVECTOR2I { vx : Z; vy : Z }.

(** The coordinates of an [at x,y] clause, stored only when both numbers
    convert. *)
Definition store_position (sx sy : string) (aPosition : VECTOR2I) : VECTOR2I :=
  match ToLong sx, ToLong sy with
  | Some x, Some y => mkVECTOR2I (static_cast_int x) (static_cast_int y)
  | _, _ => aPosition
  end.

(** [parseAddComponent]: [None] is the [false] return; [aPosition] is the
    in-out parameter, left alone when no coordinate was read. *)
Definition parseAddComponent (aCommand : string) (aPosition : VECTOR2I)
  : option (string * VECTOR2I) :=
  match Matches true re_add_component_lib aCommand with
  | Some m =>
      let libName := GetMatch m 1 in
      let symName := GetMatch m 2 in
      let aComponentName := libName ++ ":" ++ symName in
      Some (aComponentName,
            if (5 <=? GetMatchCount re_add_component_lib)%nat
            then store_position (GetMatch m 3) (GetMatch m 4) aPosition
            else aPosition)
  | None =>
      match Matches true re_add_component_bare aCommand with
      | Some m =>
          Some (GetMatch m 1,
                if (4 <=? GetMatchCount re_add_component_bare)%nat
                then store_position (GetMatch m 2) (GetMatch m 3) aPosition
                else aPosition)
      | None => None
      end
  end.

Definition parseModifyComponent (aCommand : string) : option string :=
  match Matches true re_modify_component aCommand with
  | Some m => Some (GetMatch m 1)
  | None => None
  end.

Definition parseModifyFootprint (aCommand : string) : option string :=
  match Matches true re_modify_footprint aCommand with
  | Some m => Some (GetMatch m 1)
  | None => None
  end.

(** [parseAddTrace]: start, end and width. *)
Definition parseAddTrace (aCommand : string) (aWidth : Z)
  : option (VECTOR2I * VECTOR2I * Z) :=
  match Matches true re_add_trace aCommand with
  | Some m =>
      match ToLong (GetMatch m 1), ToLong (GetMatch m 2),
            ToLong (GetMatch m 3), ToLong (GetMatch m 4) with
      | Some x1, Some y1, Some x2, Some y2 =>
          let aStart := mkVECTOR2I (static_cast_int x1) (static_cast_int y1) in
          let aEnd := mkVECTOR2I (static_cast_int x2) (static_cast_int y2) in
          let w :=
            if (6 <=? GetMatchCount re_add_trace)%nat && negb (IsEmpty (GetMatch m 5))
            then match ToLong (GetMatch m 5) with
                 | Some w => static_cast_int w
                 | None => aWidth
                 end
            else 0%Z in
          Some (aStart, aEnd, w)
      | _, _, _, _ => None
      end
  | None => None
  end.

(** [parseConnectCommand]: ref1, pin1, ref2, pin2. *)
Definition parseConnectCommand (aCommand : string)
  : option (string * string * string * string) :=
  match Matches true re_connect_dot aCommand with
  | Some m => Some (GetMatch m 1, GetMatch m 2, GetMatch m 3, GetMatch m 4)
  | None =>
      match Matches true re_connect_pin aCommand with
      | Some m => Some (GetMatch m 1, GetMatch m 2, GetMatch m 3, GetMatch m 4)
      | None => None
      end
  end.

Definition origin : VECTOR2I := mkVECTOR2I 0 0.

(* ================================================================== *)
(** * The host application                                              *)
(* ================================================================== *)

Record LIB_ID : Type := mkLIB_ID { GetLibNickname : string; GetLibItemName : string }.

Record SCH_PIN : Type := mkSCH_PIN {
  GetShownName : string;
  GetShownNumber : string;
  GetPosition : VECTOR2I }.

(** A library symbol: its pins, placed relative to the symbol's anchor. *)
Record LIB_SYMBOL : Type := mkLIB_SYMBOL { lib_pins : list SCH_PIN }.

Record SCH_SYMBOL : Type := mkSCH_SYMBOL {
  GetLibId : LIB_ID;
  GetUnit : Z;
  GetBodyStyle : Z;
  sym_Position : VECTOR2I;
  GetPins : list SCH_PIN;
  sym_IS_NEW : bool;
  sym_fields_autoplaced : bool }.

(** What a schematic screen holds: symbols, and lines on the wire layer. *)
Inductive SCH_ITEM : Type :=
| item_symbol (s : SCH_SYMBOL)
| item_wire (aStart aEnd : VECTOR2I) (is_new : bool).

Record SCH_REFERENCE : Type := mkSCH_REFERENCE {
  GetRef : string;
  GetSymbol : option SCH_SYMBOL }.

Record LIBRARY_TABLE_ROW : Type := mkROW { Nickname : string }.

(** The symbol library adapter.  [Rows_BOTH_all] is
    [Rows( LIBRARY_TABLE_SCOPE::BOTH, true )] and [Rows] is the call without
    arguments; a row pointer may be null. *)
Record SYMBOL_LIBRARY_ADAPTER : Type := mkADAPTER {
  Rows_BOTH_all : list (option LIBRARY_TABLE_ROW);
  Rows : list (option LIBRARY_TABLE_ROW);
  LoadSymbol : string -> string -> option LIB_SYMBOL;
  GetSymbolNames : string -> list string }.

Record FOOTPRINT_LIBRARY_ADAPTER : Type := mkFP_ADAPTER {
  fp_Rows : list (option LIBRARY_TABLE_ROW);
  GetFootprintNames : string -> list string }.

Record PROJECT : Type := mkPROJECT {
  GetProjectPath : string;
  SymbolLibAdapter : option SYMBOL_LIBRARY_ADAPTER;
  FootprintLibAdapter : option FOOTPRINT_LIBRARY_ADAPTER }.

(** The schematic editor: the current screen (null when [None]), the labels
    of the commits pushed so far, oldest first, and how the host lists the
    references of the symbols on a screen. *)
Record SCH_EDIT_FRAME : Type := mkSCH_EDIT_FRAME {
  GetScreen : option (list SCH_ITEM);
  commits : list string;
  canvas_refreshes : nat;
  ContentModified : bool;
  AutoplaceFields_enable : bool;
  Hierarchy_GetSymbols : list SCH_ITEM -> list SCH_REFERENCE;
  sch_GetFileName : string }.

Record FOOTPRINT : Type := mkFOOTPRINT { GetReference : string; GetFPID : LIB_ID }.

Record BOARD : Type := mkBOARD { Footprints : list FOOTPRINT; board_GetFileName : string }.

Inductive FRAME_T : Type :=
| FRAME_SCH | FRAME_SCH_SYMBOL_EDITOR | FRAME_PCB_EDITOR | FRAME_FOOTPRINT_EDITOR
| FRAME_OTHER.

(** The dynamic class of a frame, which [dynamic_cast] tests. *)
Inductive frame_object : Type :=
| is_SCH_EDIT_FRAME (f : SCH_EDIT_FRAME)
| is_PCB_EDIT_FRAME (GetBoard : option BOARD)
| is_FOOTPRINT_EDIT_FRAME
| is_plain_frame (t : FRAME_T).

Record EDA_BASE_FRAME : Type := mkFRAME { frame_obj : frame_object; Prj : PROJECT }.

Definition GetFrameType (fr : EDA_BASE_FRAME) : FRAME_T :=
  match frame_obj fr with
  | is_SCH_EDIT_FRAME _ => FRAME_SCH
  | is_PCB_EDIT_FRAME _ => FRAME_PCB_EDITOR
  | is_FOOTPRINT_EDIT_FRAME => FRAME_FOOTPRINT_EDITOR
  | is_plain_frame t => t
  end.

(** [dynamic_cast<SCH_EDIT_FRAME*>( m_frame )]. *)
Definition as_SCH_EDIT_FRAME (m_frame : option EDA_BASE_FRAME) : option SCH_EDIT_FRAME :=
  match m_frame with
  | Some fr => match frame_obj fr with is_SCH_EDIT_FRAME f => Some f | _ => None end
  | None => None
  end.

Definition set_sch (fr : EDA_BASE_FRAME) (f : SCH_EDIT_FRAME) : EDA_BASE_FRAME :=
  mkFRAME (is_SCH_EDIT_FRAME f) (Prj fr).

Definition screen_items (f : SCH_EDIT_FRAME) : list SCH_ITEM :=
  match GetScreen f with Some items => items | None => [] end.

(** [AddToScreen( item, screen )], [commit.Added] and [commit.Push( label )]. *)
Definition add_and_commit (f : SCH_EDIT_FRAME) (item : SCH_ITEM) (label : string)
  : SCH_EDIT_FRAME :=
  mkSCH_EDIT_FRAME (Some (screen_items f ++ [item])%list) (commits f ++ [label])%list
    (canvas_refreshes f) (ContentModified f) (AutoplaceFields_enable f)
    (Hierarchy_GetSymbols f) (sch_GetFileName f).

Definition Refresh (f : SCH_EDIT_FRAME) : SCH_EDIT_FRAME :=
  mkSCH_EDIT_FRAME (GetScreen f) (commits f) (S (canvas_refreshes f))
    (ContentModified f) (AutoplaceFields_enable f)
    (Hierarchy_GetSymbols f) (sch_GetFileName f).

Definition SetContentModified (f : SCH_EDIT_FRAME) (b : bool) : SCH_EDIT_FRAME :=
  mkSCH_EDIT_FRAME (GetScreen f) (commits f) (canvas_refreshes f) b
    (AutoplaceFields_enable f) (Hierarchy_GetSymbols f) (sch_GetFileName f).

Definition move_pin (at_ : VECTOR2I) (p : SCH_PIN) : SCH_PIN :=
  mkSCH_PIN (GetShownName p) (GetShownNumber p)
    (mkVECTOR2I (vx at_ + vx (GetPosition p)) (vy at_ + vy (GetPosition p))).

(** [new SCH_SYMBOL( libSymbol, libId, sheet, unit, bodyStyle, pos )]. *)
Definition new_SCH_SYMBOL (libSymbol : LIB_SYMBOL) (aLibId : LIB_ID)
    (unit bodyStyle : Z) (pos : VECTOR2I) : SCH_SYMBOL :=
  mkSCH_SYMBOL aLibId unit bodyStyle pos (map (move_pin pos) (lib_pins libSymbol))
    false false.

Definition SetFlags_IS_NEW (s : SCH_SYMBOL) : SCH_SYMBOL :=
  mkSCH_SYMBOL (GetLibId s) (GetUnit s) (GetBodyStyle s) (sym_Position s) (GetPins s)
    true (sym_fields_autoplaced s).

Definition AutoplaceFields (s : SCH_SYMBOL) : SCH_SYMBOL :=
  mkSCH_SYMBOL (GetLibId s) (GetUnit s) (GetBodyStyle s) (sym_Position s) (GetPins s)
    (sym_IS_NEW s) true.

(* ================================================================== *)
(** * The command processor                                             *)
(* ================================================================== *)

Record AI_COMMAND_RESULT : Type := mkRESULT {
  success : bool;
  message : string;
  error : string }.

Record AI_CONTEXT : Type := mkCONTEXT {
  editorType : string;
  fileName : string;
  projectPath : string;
  availableComponents : list string;
  availableFootprints : list string }.

(** The processor: its frame, whether the build has the PCB types
    ([PCBNEW] or [KICAD_BUILD_QA_TESTS] defined), and [journal], a ghost
    record of the commands handed to [processDirectCommand], oldest first. *)
Record AI_COMMAND_PROCESSOR : Type := mkPROCESSOR {
  m_frame : option EDA_BASE_FRAME;
  pcb_types : bool;
  journal : list string }.

Definition with_frame (p : AI_COMMAND_PROCESSOR) (fr : EDA_BASE_FRAME)
  : AI_COMMAND_PROCESSOR :=
  mkPROCESSOR (Some fr) (pcb_types p) (journal p).

Definition GetContext (p : AI_COMMAND_PROCESSOR) : string :=
  match m_frame p with
  | None => "unknown"
  | Some fr =>
      match GetFrameType fr with
      | FRAME_SCH | FRAME_SCH_SYMBOL_EDITOR => "schematic"
      | FRAME_PCB_EDITOR | FRAME_FOOTPRINT_EDITOR => "board"
      | FRAME_OTHER => "unknown"
      end
  end.

(** ** Placing a symbol *)

(** The row loop of [executePlaceComponent]: every row whose nickname
    matches without regard to case sets [actualLibNickname]; the loop stops
    at the first such row from which the symbol loads. *)
Fixpoint place_scan (adapter : SYMBOL_LIBRARY_ADAPTER)
    (libRows : list (option LIBRARY_TABLE_ROW)) (libNickname libItemName : string)
    (actualLibNickname : string) : string * option LIB_SYMBOL :=
  match libRows with
  | [] => (actualLibNickname, None)
  | None :: rest => place_scan adapter rest libNickname libItemName actualLibNickname
  | Some row :: rest =>
      if is_Eq (CmpNoCase (Nickname row) libNickname) then
        match LoadSymbol adapter (Nickname row) libItemName with
        | Some libSymbol => (Nickname row, Some libSymbol)
        | None => place_scan adapter rest libNickname libItemName (Nickname row)
        end
      else place_scan adapter rest libNickname libItemName actualLibNickname
  end.

Definition executePlaceComponent (p : AI_COMMAND_PROCESSOR) (aLibId : LIB_ID)
    (aPosition : VECTOR2I) : bool * AI_COMMAND_PROCESSOR :=
  match m_frame p with
  | None => (false, p)
  | Some fr =>
  match frame_obj fr with
  | is_SCH_EDIT_FRAME schFrame =>
      match SymbolLibAdapter (Prj fr) with
      | None => (false, p)
      | Some adapter =>
          let libNickname := GetLibNickname aLibId in
          let libItemName := GetLibItemName aLibId in
          match place_scan adapter (Rows adapter) libNickname libItemName "" with
          | (_, None) => (false, p)
          | (actualLibNickname, Some libSymbol) =>
              match GetScreen schFrame with
              | None => (false, p)
              | Some _ =>
                  let correctLibId := mkLIB_ID actualLibNickname libItemName in
                  let symbol :=
                    SetFlags_IS_NEW (new_SCH_SYMBOL libSymbol correctLibId 1 0 aPosition) in
                  let symbol :=
                    if AutoplaceFields_enable schFrame then AutoplaceFields symbol
                    else symbol in
                  let schFrame' :=
                    Refresh (add_and_commit schFrame (item_symbol symbol) "Place Symbol") in
                  (true, with_frame p (set_sch fr schFrame'))
              end
          end
      end
  | _ => (false, p)
  end
  end.

(** ** Drawing a wire *)

Definition executeDrawWire (p : AI_COMMAND_PROCESSOR) (aStart aEnd : VECTOR2I)
  : bool * AI_COMMAND_PROCESSOR :=
  match m_frame p with
  | None => (false, p)
  | Some fr =>
  match frame_obj fr with
  | is_SCH_EDIT_FRAME schFrame =>
      match GetScreen schFrame with
      | None => (false, p)
      | Some _ =>
          let wire := item_wire aStart aEnd true in
          (true, with_frame p (set_sch fr (add_and_commit schFrame wire "Draw Wire")))
      end
  | _ => (false, p)
  end
  end.

(** ** Connecting two pins *)

(** The reference loop runs to the end of the list, so the last reference
    that matches is the one kept. *)
Definition find_symbol (refList : list SCH_REFERENCE) (aRef : string)
  : option SCH_SYMBOL :=
  fold_left (fun symbol ref =>
               if is_Eq (CmpNoCase (GetRef ref) aRef) then GetSymbol ref else symbol)
            refList None.

(** The search variant without a leading [P]; empty when there is none. *)
Definition pin_alt (aPin : string) : string :=
  if StartsWith aPin "P" && (1 <? String.length aPin)%nat then Mid aPin 1 else "".

Definition pin_matches (aPin pinAlt : string) (pin : SCH_PIN) : bool :=
  let pinName := GetShownName pin in
  let pinNumber := GetShownNumber pin in
  is_Eq (CmpNoCase pinName aPin) || is_Eq (CmpNoCase pinNumber aPin) ||
  (negb (IsEmpty pinAlt) &&
   (is_Eq (CmpNoCase pinName pinAlt) || is_Eq (CmpNoCase pinNumber pinAlt))).

(** The pin loop stops at the first pin that matches. *)
Definition find_pin (pins : list SCH_PIN) (aPin : string) : option SCH_PIN :=
  find (pin_matches aPin (pin_alt aPin)) pins.

Definition executeConnectComponents (p : AI_COMMAND_PROCESSOR)
    (aRef1 aPin1 aRef2 aPin2 : string) : bool * AI_COMMAND_PROCESSOR :=
  match as_SCH_EDIT_FRAME (m_frame p) with
  | None => (false, p)
  | Some schFrame =>
      let refList := Hierarchy_GetSymbols schFrame (screen_items schFrame) in
      match find_symbol refList aRef1, find_symbol refList aRef2 with
      | Some symbol1, Some symbol2 =>
          match find_pin (GetPins symbol1) aPin1, find_pin (GetPins symbol2) aPin2 with
          | Some pin1, Some pin2 =>
              executeDrawWire p (GetPosition pin1) (GetPosition pin2)
          | _, _ => (false, p)
          end
      | _, _ => (false, p)
      end
  end.

(** ** Looking a symbol up by its bare name *)

Fixpoint find_name (symbolNames : list string) (aSymbolName : string) : option string :=
  match symbolNames with
  | [] => None
  | symName :: rest =>
      if is_Eq (CmpNoCase symName aSymbolName) then Some symName
      else find_name rest aSymbolName
  end.

Fixpoint find_in_rows (adapter : SYMBOL_LIBRARY_ADAPTER)
    (libRows : list (option LIBRARY_TABLE_ROW)) (aSymbolName : string) : option LIB_ID :=
  match libRows with
  | [] => None
  | None :: rest => find_in_rows adapter rest aSymbolName
  | Some row :: rest =>
      let libName := Nickname row in
      match find_name (GetSymbolNames adapter libName) aSymbolName with
      | Some symName => Some (mkLIB_ID libName symName)
      | None => find_in_rows adapter rest aSymbolName
      end
  end.

(** [findSymbolByName]: the flag returned and the out-parameter [aLibId]. *)
Definition findSymbolByName (p : AI_COMMAND_PROCESSOR) (aSymbolName : string)
    (aLibId : LIB_ID) : bool * LIB_ID :=
  match m_frame p with
  | None => (false, aLibId)
  | Some fr =>
      match SymbolLibAdapter (Prj fr) with
      | None => (false, aLibId)
      | Some adapter =>
          if Contains aSymbolName ":" then
            let libName := BeforeFirst aSymbolName ":" in
            let symbolName := AfterFirst aSymbolName ":" in
            let aLibId' := mkLIB_ID libName symbolName in
            match LoadSymbol adapter libName symbolName with
            | Some _ => (true, aLibId')
            | None => (false, aLibId')
            end
          else
            match find_in_rows adapter (Rows adapter) aSymbolName with
            | Some found => (true, found)
            | None => (false, aLibId)
            end
      end
  end.

(** ** The schematic handler *)

Definition LF : string := String (ascii_of_nat 10) EmptyString.

Definition not_recognized : AI_COMMAND_RESULT :=
  mkRESULT false "" "Command not recognized or incomplete".

(** [GetLibraryNames]: the non-empty nicknames of the non-null rows. *)
Fixpoint GetLibraryNames_rows (libRows : list (option LIBRARY_TABLE_ROW)) : list string :=
  match libRows with
  | [] => []
  | Some row :: rest =>
      if negb (IsEmpty (Nickname row)) then Nickname row :: GetLibraryNames_rows rest
      else GetLibraryNames_rows rest
  | None :: rest => GetLibraryNames_rows rest
  end.

Definition GetLibraryNames (aAdapter : option SYMBOL_LIBRARY_ADAPTER) : list string :=
  match aAdapter with
  | None => []
  | Some adapter => GetLibraryNames_rows (Rows_BOTH_all adapter)
  end.

(** The row loop of the handler: the nickname of the first row that matches
    [libName] without regard to case; empty when no row does. *)
Fixpoint find_actualLibName (libRows : list (option LIBRARY_TABLE_ROW)) (libName : string)
  : string :=
  match libRows with
  | [] => ""
  | Some row :: rest =>
      if is_Eq (CmpNoCase (Nickname row) libName) then Nickname row
      else find_actualLibName rest libName
  | None :: rest => find_actualLibName rest libName
  end.

Definition default_position : VECTOR2I := mkVECTOR2I 100000 100000.

(** The end of the add-component branch: place, then report. *)
Definition place_and_report (p : AI_COMMAND_PROCESSOR) (componentName : string)
    (libId : LIB_ID) (position : VECTOR2I) : AI_COMMAND_RESULT * AI_COMMAND_PROCESSOR :=
  match executePlaceComponent p libId position with
  | (true, p') =>
      (mkRESULT true
         ("Added component '" ++ componentName ++ "' at (" ++ format_d (vx position)
            ++ ", " ++ format_d (vy position) ++ ")") "", p')
  | (false, p') =>
      (mkRESULT false ""
         ("Failed to place component '" ++ componentName ++ "' (library: "
            ++ GetLibNickname libId ++ ", symbol: " ++ GetLibItemName libId
            ++ "). Check that the library is loaded and the symbol exists."), p')
  end.

Definition processSchematicCommand (p : AI_COMMAND_PROCESSOR) (aCommand : string)
  : AI_COMMAND_RESULT * AI_COMMAND_PROCESSOR :=
  match m_frame p with
  | None => (mkRESULT false "" "Not in schematic editor", p)
  | Some fr =>
  match frame_obj fr with
  | is_SCH_EDIT_FRAME schFrame =>
      if Contains aCommand "add" &&
         (Contains aCommand "component" || Contains aCommand "symbol")
      then
        match parseAddComponent aCommand (mkVECTOR2I 0 0) with
        | Some (componentName, position) =>
            let hasPosition := negb (vx position =? 0)%Z || negb (vy position =? 0)%Z in
            let position := if negb hasPosition then default_position else position in
            if Contains componentName ":" then
              let libName := BeforeFirst componentName ":" in
              let symName := AfterFirst componentName ":" in
              match SymbolLibAdapter (Prj fr) with
              | Some adapter =>
                  let actualLibName := find_actualLibName (Rows_BOTH_all adapter) libName in
                  if IsEmpty actualLibName then
                    let availableLibs := GetLibraryNames (Some adapter) in
                    let libList :=
                      match availableLibs with
                      | [] => "(none - check Preferences > Manage Symbol Libraries)"
                      | _ => wxJoin availableLibs ","
                      end in
                    (mkRESULT false ""
                       ("Library '" ++ libName ++ "' not found. Available libraries: "
                          ++ libList), p)
                  else
                    place_and_report p componentName (mkLIB_ID actualLibName symName) position
              | None =>
                  place_and_report p componentName (mkLIB_ID libName symName) position
              end
            else
              match findSymbolByName p componentName (mkLIB_ID "" "") with
              | (true, libId) => place_and_report p componentName libId position
              | (false, _) =>
                  (mkRESULT false ""
                     ("Component '" ++ componentName ++ "' not found in libraries"), p)
              end
        | None => (not_recognized, p)
        end
      else if Contains aCommand "connect" || Contains aCommand "wire" then
        match parseConnectCommand aCommand with
        | Some (ref1, pin1, ref2, pin2) =>
            match executeConnectComponents p ref1 pin1 ref2 pin2 with
            | (true, p') =>
                (mkRESULT true
                   ("Connected " ++ ref1 ++ "." ++ pin1 ++ " to " ++ ref2 ++ "." ++ pin2)
                   "", p')
            | (false, p') =>
                (mkRESULT false ""
                   ("Failed to connect " ++ ref1 ++ "." ++ pin1 ++ " to " ++ ref2 ++ "."
                      ++ pin2), p')
            end
        | None => (not_recognized, p)
        end
      else if Contains aCommand "modify" || Contains aCommand "change" then
        match parseModifyComponent aCommand with
        | Some refDes => (mkRESULT true ("Would modify component '" ++ refDes ++ "'") "", p)
        | None => (not_recognized, p)
        end
      else (not_recognized, p)
  | _ => (mkRESULT false "" "Not in schematic editor", p)
  end
  end.

(** ** The board handler *)

Definition processBoardCommand (p : AI_COMMAND_PROCESSOR) (aCommand : string)
  : AI_COMMAND_RESULT :=
  match m_frame p with
  | None => mkRESULT false "" "No frame available"
  | Some fr =>
      match GetFrameType fr with
      | FRAME_PCB_EDITOR | FRAME_FOOTPRINT_EDITOR =>
          if pcb_types p then
            match frame_obj fr with
            | is_PCB_EDIT_FRAME _ =>
                if Contains aCommand "add" && Contains aCommand "trace" then
                  match parseAddTrace aCommand 0 with
                  | Some (aStart, aEnd, width) =>
                      mkRESULT true
                        ("Would add trace from (" ++ format_d (vx aStart) ++ ", "
                           ++ format_d (vy aStart) ++ ") to (" ++ format_d (vx aEnd)
                           ++ ", " ++ format_d (vy aEnd) ++ ") width " ++ format_d width)
                        ""
                  | None => not_recognized
                  end
                else not_recognized
            | is_FOOTPRINT_EDIT_FRAME =>
                if Contains aCommand "modify" || Contains aCommand "change" then
                  match parseModifyFootprint aCommand with
                  | Some footprintName =>
                      mkRESULT true ("Would modify footprint '" ++ footprintName ++ "'") ""
                  | None => not_recognized
                  end
                else not_recognized
            | _ => not_recognized
            end
          else not_recognized
      | _ => not_recognized
      end
  end.

(** ** The context snapshot *)

Fixpoint row_nicknames (libRows : list (option LIBRARY_TABLE_ROW)) : list string :=
  match libRows with
  | [] => []
  | Some row :: rest => Nickname row :: row_nicknames rest
  | None :: rest => row_nicknames rest
  end.

(** First 20 libraries, first 50 entries of each, as [lib:name]. *)
Definition library_entries (libNames : list string) (names_of : string -> list string)
  : list string :=
  flat_map (fun libName => map (fun n => libName ++ ":" ++ n) (firstn 50 (names_of libName)))
           (firstn 20 libNames).

Definition gatherSymbolLibraries (p : AI_COMMAND_PROCESSOR) : list string :=
  match m_frame p with
  | None => []
  | Some fr =>
      match SymbolLibAdapter (Prj fr) with
      | None => []
      | Some adapter => library_entries (row_nicknames (Rows adapter)) (GetSymbolNames adapter)
      end
  end.

Definition gatherFootprintLibraries (p : AI_COMMAND_PROCESSOR) : list string :=
  if pcb_types p then
    match m_frame p with
    | None => []
    | Some fr =>
        match FootprintLibAdapter (Prj fr) with
        | None => []
        | Some adapter =>
            library_entries (row_nicknames (fp_Rows adapter)) (GetFootprintNames adapter)
        end
    end
  else [].

(** The source reads the symbol of every reference without a null test; a
    reference without a symbol is listed here with an empty name. *)
Definition gatherSchematicContext (p : AI_COMMAND_PROCESSOR) : list string :=
  match as_SCH_EDIT_FRAME (m_frame p) with
  | None => []
  | Some schFrame =>
      map (fun ref =>
             GetRef ref ++ " (" ++
             match GetSymbol ref with
             | Some s => GetLibItemName (GetLibId s)
             | None => ""
             end ++ ")")
          (Hierarchy_GetSymbols schFrame (screen_items schFrame))
  end.

Definition gatherBoardContext (p : AI_COMMAND_PROCESSOR) : list string :=
  if pcb_types p then
    match m_frame p with
    | Some fr =>
        match frame_obj fr with
        | is_PCB_EDIT_FRAME (Some board) =>
            map (fun fp => GetReference fp ++ " (" ++ GetLibItemName (GetFPID fp) ++ ")")
                (Footprints board)
        | _ => []
        end
    | None => []
    end
  else [].

Definition gatherContext (p : AI_COMMAND_PROCESSOR) : AI_CONTEXT :=
  let editor := GetContext p in
  match m_frame p with
  | None => mkCONTEXT editor "" "" [] []
  | Some fr =>
      let file :=
        match frame_obj fr with
        | is_SCH_EDIT_FRAME schFrame => sch_GetFileName schFrame
        | is_PCB_EDIT_FRAME (Some board) =>
            if pcb_types p then board_GetFileName board else ""
        | _ => ""
        end in
      let comps :=
        if String.eqb editor "schematic" then gatherSchematicContext p else [] in
      let fps :=
        if String.eqb editor "schematic" then []
        else if String.eqb editor "board" then gatherBoardContext p else [] in
      mkCONTEXT editor file (GetProjectPath (Prj fr))
        (comps ++ gatherSymbolLibraries p)%list
        (fps ++ gatherFootprintLibraries p)%list
  end.

(** ** The generic handler *)

(** Insertion into a [std::set<wxString>], kept in increasing order. *)
Fixpoint set_insert (x : string) (l : list string) : list string :=
  match l with
  | [] => [x]
  | y :: l' =>
      match String.compare x y with
      | Lt => x :: l
      | Eq => l
      | Gt => y :: set_insert x l'
      end
  end.

Definition library_set (entries : list string) : list string :=
  fold_left (fun libraries e =>
               if Contains e ":" then set_insert (BeforeFirst e ":") libraries
               else libraries)
            entries [].

(** The entries of one library, at most ten, and how many were shown. *)
Fixpoint list_library (lib : string) (entries : list string) (count : nat)
  : string * nat :=
  match entries with
  | [] => ("", count)
  | e :: rest =>
      if StartsWith e (lib ++ ":") && (count <? 10)%nat then
        let '(out, n) := list_library lib rest (S count) in
        ("    - " ++ AfterFirst e ":" ++ LF ++ out, n)
      else list_library lib rest count
  end.

Definition list_libraries (entries : list string) (more : string) : string :=
  String.concat ""
    (map (fun lib =>
            let '(out, count) := list_library lib entries 0 in
            "  Library: " ++ lib ++ LF ++ out
              ++ (if (10 <=? count)%nat then more else ""))
         (library_set entries)).

Definition help_text : string :=
  "Available commands:" ++ LF ++
  "- Add component <name> [at <x>,<y>]" ++ LF ++
  "- Modify component <refdes>" ++ LF ++
  "- Add trace from <x1>,<y1> to <x2>,<y2> [width <w>]" ++ LF ++
  "- Modify footprint <name>" ++ LF ++
  "- List components - Show components in current design" ++ LF ++
  "- List libraries - Show available symbol libraries" ++ LF ++
  "- List footprints - Show available footprint libraries" ++ LF ++
  "- Query <component/footprint name> - Search for specific parts" ++ LF.

Definition processGenericCommand (p : AI_COMMAND_PROCESSOR) (aCommand : string)
  : AI_COMMAND_RESULT :=
  if Contains aCommand "help" || Contains aCommand "?" then
    mkRESULT true help_text ""
  else if Contains aCommand "list" && Contains aCommand "component" then
    let context := gatherContext p in
    match availableComponents context with
    | [] => mkRESULT true "No components found in current design." ""
    | comps =>
        mkRESULT true
          ("Components in current design:" ++ LF ++
           String.concat ""
             (map (fun comp => "  - " ++ comp ++ LF)
                  (filter (fun comp => negb (Contains comp ":")) comps)))
          ""
    end
  else if Contains aCommand "list" && Contains aCommand "librar" then
    let context := gatherContext p in
    mkRESULT true
      ("Available symbol libraries and components:" ++ LF ++
       list_libraries (availableComponents context)
         ("    ... (more components available)" ++ LF))
      ""
  else if Contains aCommand "list" && Contains aCommand "footprint" then
    let context := gatherContext p in
    mkRESULT true
      ("Available footprint libraries and footprints:" ++ LF ++
       list_libraries (availableFootprints context)
         ("    ... (more footprints available)" ++ LF))
      ""
  else if Contains aCommand "query" || Contains aCommand "search" then
    let searchTerm :=
      Lower (Trim false (Trim true (Replace (Replace aCommand "query" "") "search" ""))) in
    if IsEmpty searchTerm then
      mkRESULT false "" "Please specify what to search for."
    else
      let context := gatherContext p in
      let comps :=
        filter (fun comp => Contains (Lower comp) searchTerm) (availableComponents context) in
      let fps :=
        filter (fun fp => Contains (Lower fp) searchTerm) (availableFootprints context) in
      let hits :=
        String.concat "" (map (fun comp => "  Component: " ++ comp ++ LF) comps) ++
        String.concat "" (map (fun fp => "  Footprint: " ++ fp ++ LF) fps) in
      let found := match comps, fps with [], [] => false | _, _ => true end in
      mkRESULT true
        ("Search results for '" ++ searchTerm ++ "':" ++ LF ++ hits
           ++ (if found then "" else "No matches found."))
        ""
  else
    mkRESULT false "" "Command not recognized. Type 'help' for available commands.".

(** ** Dispatch *)

(** [processDirectCommand]: the command is lower-cased and trimmed on the
    right, then routed by editor.  The model also notes the call in the
    journal. *)
Definition processDirectCommand (p : AI_COMMAND_PROCESSOR) (aCommand : string)
  : AI_COMMAND_RESULT * AI_COMMAND_PROCESSOR :=
  let p := mkPROCESSOR (m_frame p) (pcb_types p) (journal p ++ [aCommand])%list in
  let cmd := Trim true (Lower aCommand) in
  let context := GetContext p in
  if String.eqb context "schematic" then processSchematicCommand p cmd
  else if String.eqb context "board" then (processBoardCommand p cmd, p)
  else (processGenericCommand p cmd, p).

(* ================================================================== *)
(** * Mining a response and running it in two passes                    *)
(* ================================================================== *)

(** The test the miner repeats: lower-cased, the text starts with one of the
    four verbs. *)
Definition starts_with_verb (cmd : string) : bool :=
  StartsWith (Lower cmd) "add" || StartsWith (Lower cmd) "connect" ||
  StartsWith (Lower cmd) "wire" || StartsWith (Lower cmd) "place".

(** The text between the first backtick of [s] and the next one, trimmed. *)
Definition backtick_span (s : string) : option string :=
  let backtickStart := FindChar s "`" in
  if negb (backtickStart =? wxNOT_FOUND)%Z then
    let backtickEnd := find_from s "`" (Z.to_nat (backtickStart + 1)) in
    if negb (backtickEnd =? wxNOT_FOUND)%Z then
      Some (Trim true (Trim false
              (SubString s (Z.to_nat (backtickStart + 1)) (Z.to_nat (backtickEnd - 1)))))
    else None
  else None.

(** A command in backticks, kept only if it starts with a verb. *)
Definition mine_backticks (trimmed : string) : option string :=
  match backtick_span trimmed with
  | Some cmd => if negb (IsEmpty cmd) && starts_with_verb cmd then Some cmd else None
  | None => None
  end.

(** [Command: `...`]: the span after the colon, kept whenever it is not
    empty. *)
Definition mine_command_colon (trimmed : string) : option string :=
  let cmdColonPos := Find (Lower trimmed) "command:" in
  if negb (cmdColonPos =? wxNOT_FOUND)%Z then
    let afterColon := Trim false (Mid trimmed (Z.to_nat (cmdColonPos + 8))) in
    match backtick_span afterColon with
    | Some cmd => if negb (IsEmpty cmd) then Some cmd else None
    | None => None
    end
  else None.

(** [1. command] or [1) command]. *)
Definition mine_numbered (trimmed : string) : option string :=
  match trimmed with
  | String c0 (String c1 (String _ _)) =>
      if wxIsdigit c0 && (Ascii.eqb c1 "." || Ascii.eqb c1 ")") then
        let cmd := Trim false (Mid trimmed 2) in
        if starts_with_verb cmd then Some cmd else None
      else None
  | _ => None
  end.

(** One turn of the extraction loop: the command a line adds, if any. *)
Definition mine_line (line : string) : option string :=
  let trimmed := Trim true (Trim false line) in
  if IsEmpty trimmed || StartsWith trimmed "#" then None
  else if StartsWith trimmed "**" && EndsWith trimmed ":**" then None
  else
    match mine_backticks trimmed with
    | Some cmd => Some cmd
    | None =>
        match mine_command_colon trimmed with
        | Some cmd => Some cmd
        | None =>
            match mine_numbered trimmed with
            | Some cmd => Some cmd
            | None => if starts_with_verb trimmed then Some trimmed else None
            end
        end
    end.

Fixpoint mine_lines (lines : list string) : list string :=
  match lines with
  | [] => []
  | line :: rest =>
      match mine_line line with
      | Some cmd => cmd :: mine_lines rest
      | None => mine_lines rest
      end
  end.

(** [allCommands] after the extraction loop. *)
Definition mine (aResponse : string) : list string :=
  mine_lines (wxSplit aResponse (ascii_of_nat 10)).

(** The counters and the two logs of [ProcessCommandsFromResponse]. *)
Record tally : Type := mkTALLY {
  commandCount : Z;
  failedCount : Z;
  executedCommands : string;
  failedCommands : string }.

Definition tally0 : tally := mkTALLY 0 0 "" "".

(** The body of both pass loops once a command is selected. *)
Definition run_command (cmd : string) (t : tally) (p : AI_COMMAND_PROCESSOR)
  : tally * AI_COMMAND_PROCESSOR :=
  let '(cmdResult, p') := processDirectCommand p cmd in
  if success cmdResult then
    (mkTALLY (commandCount t + 1) (failedCount t)
       (executedCommands t ++ (if IsEmpty (executedCommands t) then "" else LF)
          ++ "✓ " ++ cmd)
       (failedCommands t), p')
  else
    (mkTALLY (commandCount t) (failedCount t + 1) (executedCommands t)
       (failedCommands t ++ (if IsEmpty (failedCommands t) then "" else LF)
          ++ "✗ " ++ cmd ++ " (" ++ error cmdResult ++ ")"), p').

Definition in_pass1 (cmd : string) : bool :=
  Contains (Lower cmd) "component" || Contains (Lower cmd) "symbol".

Definition in_pass2 (cmd : string) : bool :=
  Contains (Lower cmd) "connect" || Contains (Lower cmd) "wire".

(** One pass over [allCommands]. *)
Fixpoint run_pass (in_pass : string -> bool) (allCommands : list string)
    (t : tally) (p : AI_COMMAND_PROCESSOR) : tally * AI_COMMAND_PROCESSOR :=
  match allCommands with
  | [] => (t, p)
  | command :: rest =>
      let cmd := Trim true (Trim false command) in
      if in_pass cmd then
        let '(t', p') := run_command cmd t p in
        run_pass in_pass rest t' p'
      else run_pass in_pass rest t p
  end.

(** Between the passes: the screen is marked modified once a placement has
    succeeded. *)
Definition mark_modified (t : tally) (p : AI_COMMAND_PROCESSOR) : AI_COMMAND_PROCESSOR :=
  match m_frame p with
  | Some fr =>
      match frame_obj fr with
      | is_SCH_EDIT_FRAME schFrame =>
          if (0 <? commandCount t)%Z
          then with_frame p (set_sch fr (SetContentModified schFrame true))
          else p
      | _ => p
      end
  | None => p
  end.

Definition report (t : tally) : string :=
  "Executed " ++ format_d (commandCount t) ++ " command(s)"
    ++ (if (0 <? failedCount t)%Z then ", " ++ format_d (failedCount t) ++ " failed" else "")
    ++ ":" ++ LF ++ executedCommands t
    ++ (if negb (IsEmpty (failedCommands t))
        then LF ++ LF ++ "Failed:" ++ LF ++ failedCommands t else "").

Definition ProcessCommandsFromResponse (p : AI_COMMAND_PROCESSOR) (aResponse : string)
  : AI_COMMAND_RESULT * AI_COMMAND_PROCESSOR :=
  match m_frame p with
  | None => (mkRESULT false "" "No frame available", p)
  | Some _ =>
      let allCommands := mine aResponse in
      let '(t1, p1) := run_pass in_pass1 allCommands tally0 p in
      let p1' := mark_modified t1 p1 in
      let '(t2, p2) := run_pass in_pass2 allCommands t1 p1' in
      if (0 <? commandCount t2)%Z || (0 <? failedCount t2)%Z then
        (mkRESULT true (report t2) "", p2)
      else
        (mkRESULT false "" "No commands found in response", p2)
  end.

(* ================================================================== *)
(** * The Ollama client                                                 *)
(* ================================================================== *)

(** JSON values as [nlohmann::json] holds them. *)
#[local] Set Warnings "-register-all".
Inductive json : Type :=
| JNull
| JBool (b : bool)
| JNumber (n : Z)
| JString (s : string)
| JArray (items : list json)
| JObject (members : list (string * json)).

Fixpoint assoc (key : string) (members : list (string * json)) : option json :=
  match members with
  | [] => None
  | (k, v) :: rest => if String.eqb k key then Some v else assoc key rest
  end.

(** [j.contains( key )]: false for anything but an object. *)
Definition json_contains (j : json) (key : string) : bool :=
  match j with
  | JObject members => match assoc key members with Some _ => true | None => false end
  | _ => false
  end.

(** [j[key]] once [contains] has answered true. *)
Definition json_at (j : json) (key : string) : json :=
  match j with
  | JObject members => match assoc key members with Some v => v | None => JNull end
  | _ => JNull
  end.

(** [get<std::string>()] and [get<bool>()]: [None] stands for the
    [type_error] they throw. *)
Definition get_string (j : json) : option string :=
  match j with JString s => Some s | _ => None end.

Definition get_bool (j : json) : option bool :=
  match j with JBool b => Some b | _ => None end.

Record AI_RESPONSE : Type := mkRESPONSE {
  resp_success : bool;
  resp_message : string;
  resp_error : string;
  isComplete : bool }.

(** The outcome of [curl.Perform()]: the error text, or the body read. *)
Inductive curl_result : Type :=
| curl_failed (errorText : string)
| curl_ok (body : string).

Record OLLAMA_AI_SERVICE : Type := mkSERVICE {
  m_baseUrl : string;
  m_model : string;
  m_availabilityChecked : bool;
  m_isAvailable : bool }.

Definition system_prompt_list (title more : string) (entries : list string) : string :=
  match entries with
  | [] => ""
  | _ =>
      LF ++ LF ++ title ++ LF ++
      String.concat "" (map (fun e => "  - " ++ e ++ LF) (firstn 100 entries)) ++
      (if (100 <? List.length entries)%nat
       then "  ... and " ++ format_d (Z.of_nat (List.length entries - 100)) ++ more ++ LF
       else "")
  end.

Definition buildSystemPrompt (aContext : AI_CONTEXT) : string :=
  "You are an AI assistant for KiCad EDA software. " ++
  "You help users with electronic design tasks including schematic design, PCB layout, and footprint creation. " ++
  "Current context: " ++ editorType aContext ++ " editor. " ++
  (if negb (IsEmpty (fileName aContext))
   then "Working on file: " ++ fileName aContext ++ ". " else "") ++
  (if negb (IsEmpty (projectPath aContext))
   then "Project path: " ++ projectPath aContext ++ ". " else "") ++
  system_prompt_list "Available components in current design and libraries:"
    " more components" (availableComponents aContext) ++
  system_prompt_list "Available footprints in current design and libraries:"
    " more footprints" (availableFootprints aContext) ++
  LF ++ "You can help users:" ++ LF ++
  "- Add, modify, or remove components and footprints" ++ LF ++
  "- Query available libraries and parts" ++ LF ++
  "- Design circuits and PCB layouts" ++ LF ++
  "- Answer questions about KiCad functionality" ++ LF ++
  "- Provide design recommendations" ++ LF ++
  LF ++ "IMPORTANT: When asked to create or build circuits, provide EXECUTABLE COMMANDS that can be automatically executed." ++ LF ++
  "Break down complex requests into step-by-step commands using this format:" ++ LF ++
  "1. add component <name> at <x>,<y>" ++ LF ++
  "2. connect <ref1>.<pin1> to <ref2>.<pin2>" ++ LF ++
  "3. add component <name> at <x>,<y>" ++ LF ++
  LF ++ "Example for 'create a 5V voltage regulator':" ++ LF ++
  "1. add component Device:LM7805 at 100000,100000" ++ LF ++
  "2. add component Device:C at 50000,100000" ++ LF ++
  "3. add component Device:C at 150000,100000" ++ LF ++
  "4. connect U1.VIN to C1.1" ++ LF ++
  "5. connect U1.VOUT to C2.1" ++ LF ++
  "6. connect U1.GND to C1.2" ++ LF ++
  "7. connect U1.GND to C2.2" ++ LF ++
  LF ++ "Use the available components and footprints listed above when making recommendations.".

Section Ollama.

(** The JSON library and the HTTP transport are outside the plugin:
    [json_parse] gives the value read or the text of the exception,
    [json_dump] serializes, [type_error_what] is the text of the
    [type_error] a failed [get] carries, and [http_get], [http_post] are
    what one [Perform] returns for a URL (and a body). *)
Variable json_parse : string -> json + string.
Variable json_dump : json -> string.
Variable type_error_what : json -> string.
Variable http_get : string -> curl_result.
Variable http_post : string -> string -> curl_result.

(** What the stream callback acts on. *)
Variable World : Type.

Definition TestConnection (svc : OLLAMA_AI_SERVICE) : bool :=
  match http_get (m_baseUrl svc ++ "/api/tags") with
  | curl_ok _ => true
  | curl_failed _ => false
  end.

(** The loop over [models]: a name that is not a string throws, and the
    names pushed before it are what the caller gets. *)
Fixpoint collect_names (items : list json) : list string :=
  match items with
  | [] => []
  | model :: rest =>
      if json_contains model "name" then
        match get_string (json_at model "name") with
        | Some name => name :: collect_names rest
        | None => []
        end
      else collect_names rest
  end.

Definition GetAvailableModels (svc : OLLAMA_AI_SERVICE) : list string :=
  match http_get (m_baseUrl svc ++ "/api/tags") with
  | curl_failed _ => []
  | curl_ok responseStr =>
      match json_parse responseStr with
      | inl jsonResponse =>
          if json_contains jsonResponse "models" then
            match json_at jsonResponse "models" with
            | JArray items => collect_names items
            | _ => []
            end
          else []
      | inr _ => []
      end
  end.

(** The model the constructor settles on, given the models listed. *)
Definition select_model (m_model0 : string) (models : list string) : string :=
  match models with
  | [] => m_model0
  | first :: _ =>
      match find (fun model => Contains model "coder" || Contains model "code") models with
      | Some model => model
      | None => first
      end
  end.

(** The constructor. *)
Definition OLLAMA_AI_SERVICE_new (aBaseUrl : string) : OLLAMA_AI_SERVICE :=
  let svc := mkSERVICE aBaseUrl "qwen2.5-coder:32b" false false in
  let svc :=
    if TestConnection svc then
      mkSERVICE aBaseUrl (select_model (m_model svc) (GetAvailableModels svc)) false false
    else svc in
  mkSERVICE (m_baseUrl svc) (m_model svc) true (TestConnection svc).

Definition IsAvailable (svc : OLLAMA_AI_SERVICE) : bool * OLLAMA_AI_SERVICE :=
  if m_availabilityChecked svc then (m_isAvailable svc, svc)
  else
    let a := TestConnection svc in
    (a, mkSERVICE (m_baseUrl svc) (m_model svc) true a).

(** The streaming loop over the lines of the body: the message so far and
    the world the callback has acted on. *)
Fixpoint stream_loop (tokens : list string) (aStreamCallback : string -> World -> World)
    (completeMessage : string) (w : World) : string * World :=
  match tokens with
  | [] => (completeMessage, w)
  | token :: rest =>
      let line := Trim true token in
      if IsEmpty line then stream_loop rest aStreamCallback completeMessage w
      else
        match json_parse line with
        | inr _ => stream_loop rest aStreamCallback completeMessage w
        | inl jsonLine =>
            let after_response :=
              if json_contains jsonLine "response" then
                match get_string (json_at jsonLine "response") with
                | Some chunk => Some (completeMessage ++ chunk, aStreamCallback chunk w)
                | None => None
                end
              else Some (completeMessage, w) in
            match after_response with
            | None => stream_loop rest aStreamCallback completeMessage w
            | Some (completeMessage', w') =>
                if json_contains jsonLine "done" then
                  match get_bool (json_at jsonLine "done") with
                  | Some true => (completeMessage', w')
                  | Some false => stream_loop rest aStreamCallback completeMessage' w'
                  | None => stream_loop rest aStreamCallback completeMessage' w'
                  end
                else stream_loop rest aStreamCallback completeMessage' w'
            end
        end
  end.

Definition makeApiRequest (svc : OLLAMA_AI_SERVICE) (aEndpoint aJsonPayload : string)
    (aStream : bool) (aStreamCallback : option (string -> World -> World)) (w : World)
  : AI_RESPONSE * World :=
  let response := mkRESPONSE false "" "" false in
  match http_post (m_baseUrl svc ++ aEndpoint) aJsonPayload with
  | curl_failed errorText =>
      (mkRESPONSE false "" ("Failed to connect to Ollama: " ++ errorText) false, w)
  | curl_ok responseStr =>
      match aStream, aStreamCallback with
      | true, Some callback =>
          let '(completeMessage, w') :=
            stream_loop (wxStringTokenizer responseStr (ascii_of_nat 10)) callback "" w in
          (mkRESPONSE true completeMessage "" true, w')
      | _, _ =>
          match json_parse responseStr with
          | inl jsonResponse =>
              if json_contains jsonResponse "response" then
                match get_string (json_at jsonResponse "response") with
                | Some text => (mkRESPONSE true text "" true, w)
                | None =>
                    (mkRESPONSE true ""
                       ("Failed to parse Ollama response: "
                          ++ type_error_what (json_at jsonResponse "response")) false, w)
                end
              else if json_contains jsonResponse "error" then
                match get_string (json_at jsonResponse "error") with
                | Some text => (mkRESPONSE false "" text false, w)
                | None =>
                    (mkRESPONSE false ""
                       ("Failed to parse Ollama response: "
                          ++ type_error_what (json_at jsonResponse "error")) false, w)
                end
              else (mkRESPONSE false "" "Unexpected response format from Ollama" false, w)
          | inr what =>
              (mkRESPONSE false "" ("Failed to parse Ollama response: " ++ what) false, w)
          end
      end
  end.

Definition generate_payload (svc : OLLAMA_AI_SERVICE) (aPrompt : string)
    (aContext : AI_CONTEXT) (stream : bool) : string :=
  json_dump (JObject [("model", JString (m_model svc)); ("prompt", JString aPrompt);
                      ("system", JString (buildSystemPrompt aContext));
                      ("stream", JBool stream)]).

Definition ProcessPrompt (svc : OLLAMA_AI_SERVICE) (aPrompt : string)
    (aContext : AI_CONTEXT) (w : World) : AI_RESPONSE * OLLAMA_AI_SERVICE * World :=
  let '(available, svc') := IsAvailable svc in
  if negb available then
    (mkRESPONSE false ""
       "Ollama service is not available. Please ensure Ollama is running." false, svc', w)
  else
    let '(r, w') :=
      makeApiRequest svc' "/api/generate" (generate_payload svc' aPrompt aContext false)
        false None w in
    (r, svc', w').

Definition ProcessPromptStreaming (svc : OLLAMA_AI_SERVICE) (aPrompt : string)
    (aContext : AI_CONTEXT) (aCallback : option (string -> World -> World)) (w : World)
  : AI_RESPONSE * OLLAMA_AI_SERVICE * World :=
  let '(available, svc') := IsAvailable svc in
  if negb available then
    (mkRESPONSE false "" "Ollama service is not available." false, svc', w)
  else
    let '(r, w') :=
      makeApiRequest svc' "/api/generate" (generate_payload svc' aPrompt aContext true)
        true aCallback w in
    (r, svc', w').

End Ollama.

(* ================================================================== *)
(** * Notions the statements use                                        *)
(* ================================================================== *)

(** No white space in front. *)
Definition no_lead_space (s : string) : Prop :=
  match s with
  | EmptyString => True
  | String c _ => wxIsspace c = false
  end.

(** The commands handed to [processDirectCommand] between two states of the
    processor. *)
Definition attempted (p p' : AI_COMMAND_PROCESSOR) : list string :=
  skipn (List.length (journal p)) (journal p').

(** [c] does not occur in [s]. *)
Fixpoint free_of (c : ascii) (s : string) : bool :=
  match s with
  | EmptyString => true
  | String a s' => negb (Ascii.eqb a c) && free_of c s'
  end.

(** A nickname with neither a comma nor a backslash: [wxJoin] copies it
    unchanged. *)
Definition plain_nickname (n : string) : bool := free_of "," n && free_of "\" n.

(** The test that opens the add-component branch of the schematic handler. *)
Definition is_add_component (aCommand : string) : bool :=
  Contains aCommand "add" && (Contains aCommand "component" || Contains aCommand "symbol").

(* ================================================================== *)
(** * A sample host                                                     *)
(* ================================================================== *)

(** A schematic editor with the libraries [Device] (symbols R, C, LM7805)
    and [Connector], used to run the model on concrete inputs. *)

Definition sample_R : LIB_SYMBOL :=
  mkLIB_SYMBOL [mkSCH_PIN "~" "1" (mkVECTOR2I 0 (-100)); mkSCH_PIN "~" "2" (mkVECTOR2I 0 100)].

Definition sample_C : LIB_SYMBOL :=
  mkLIB_SYMBOL [mkSCH_PIN "~" "1" (mkVECTOR2I 0 (-50)); mkSCH_PIN "~" "2" (mkVECTOR2I 0 50)].

Definition sample_LM7805 : LIB_SYMBOL :=
  mkLIB_SYMBOL [mkSCH_PIN "VIN" "1" (mkVECTOR2I (-200) 0);
                mkSCH_PIN "GND" "2" (mkVECTOR2I 0 200);
                mkSCH_PIN "VOUT" "3" (mkVECTOR2I 200 0)].

Definition sample_Conn_01x02 : LIB_SYMBOL :=
  mkLIB_SYMBOL [mkSCH_PIN "Pin_1" "1" (mkVECTOR2I (-100) 0);
                mkSCH_PIN "Pin_2" "2" (mkVECTOR2I (-100) 100)].

(** The host loads symbols whatever the case of the name. *)
Definition sample_LoadSymbol (lib sym : string) : option LIB_SYMBOL :=
  if String.eqb lib "Device" then
    if String.eqb (Lower sym) "r" then Some sample_R
    else if String.eqb (Lower sym) "c" then Some sample_C
    else if String.eqb (Lower sym) "lm7805" then Some sample_LM7805
    else None
  else if String.eqb lib "Connector" then
    if String.eqb (Lower sym) "conn_01x02" then Some sample_Conn_01x02 else None
  else None.

Definition sample_rows : list (option LIBRARY_TABLE_ROW) :=
  [Some (mkROW "Device"); Some (mkROW "Connector")].

Definition sample_adapter : SYMBOL_LIBRARY_ADAPTER :=
  mkADAPTER sample_rows sample_rows sample_LoadSymbol
    (fun lib => if String.eqb lib "Device" then ["R"; "C"; "LM7805"]
                else if String.eqb lib "Connector" then ["Conn_01x02"] else []).

Definition sample_prefix (s : SCH_SYMBOL) : string :=
  let n := Lower (GetLibItemName (GetLibId s)) in
  if String.eqb n "r" then "R" else if String.eqb n "c" then "C" else "U".

(** The host numbers the symbols of a screen per prefix: U1, C1, C2, ... *)
Fixpoint sample_annotate (seen : list string) (items : list SCH_ITEM)
  : list SCH_REFERENCE :=
  match items with
  | [] => []
  | item_symbol s :: rest =>
      let pre := sample_prefix s in
      let k := S (count_occ string_dec seen pre) in
      mkSCH_REFERENCE (pre ++ format_d (Z.of_nat k)) (Some s)
        :: sample_annotate (pre :: seen) rest
  | _ :: rest => sample_annotate seen rest
  end.

Definition sample_project (adapter : option SYMBOL_LIBRARY_ADAPTER) : PROJECT :=
  mkPROJECT "/home/user/demo" adapter None.

Definition sample_sch (items : list SCH_ITEM) : SCH_EDIT_FRAME :=
  mkSCH_EDIT_FRAME (Some items) [] 0 false true (sample_annotate []) "demo.kicad_sch".

(** A processor on an empty sheet. *)
Definition sample_processor : AI_COMMAND_PROCESSOR :=
  mkPROCESSOR
    (Some (mkFRAME (is_SCH_EDIT_FRAME (sample_sch [])) (sample_project (Some sample_adapter))))
    true [].

(** A processor on a sheet that already holds a regulator and a capacitor,
    annotated U1 and C1. *)
Definition sample_U1 : SCH_SYMBOL :=
  SetFlags_IS_NEW (new_SCH_SYMBOL sample_LM7805 (mkLIB_ID "Device" "LM7805") 1 0
                     (mkVECTOR2I 50000 50000)).

Definition sample_C1 : SCH_SYMBOL :=
  SetFlags_IS_NEW (new_SCH_SYMBOL sample_C (mkLIB_ID "Device" "C") 1 0
                     (mkVECTOR2I 60000 50000)).

Definition sample_processor_U1_C1 : AI_COMMAND_PROCESSOR :=
  mkPROCESSOR
    (Some (mkFRAME (is_SCH_EDIT_FRAME (sample_sch [item_symbol sample_U1; item_symbol sample_C1]))
                   (sample_project (Some sample_adapter))))
    true [].

(** A processor whose library table is empty. *)
Definition sample_processor_no_libraries : AI_COMMAND_PROCESSOR :=
  mkPROCESSOR
    (Some (mkFRAME (is_SCH_EDIT_FRAME (sample_sch []))
                   (sample_project (Some (mkADAPTER [] [] (fun _ _ => None) (fun _ => []))))))
    true [].

(** The frame of the unit tests: of type [FRAME_SCH], yet not a schematic
    editor. *)
Definition sample_processor_mock_frame : AI_COMMAND_PROCESSOR :=
  mkPROCESSOR (Some (mkFRAME (is_plain_frame FRAME_SCH) (sample_project None))) true [].

(** A processor in the board editor, and one without a frame. *)
Definition sample_processor_board : AI_COMMAND_PROCESSOR :=
  mkPROCESSOR
    (Some (mkFRAME (is_PCB_EDIT_FRAME (Some (mkBOARD [] "demo.kicad_pcb")))
                   (sample_project (Some sample_adapter))))
    true [].

Definition sample_processor_no_frame : AI_COMMAND_PROCESSOR := mkPROCESSOR None true [].

(** The miner's output of the two-phase scenario, one command a line. *)
Definition sample_response : string :=
  "connect U1.1 to R1.1" ++ LF ++
  "add component Device:R" ++ LF ++
  "add component Device:LM7805" ++ LF.

(** The items on the screen of a processor. *)
Definition screen_of (p : AI_COMMAND_PROCESSOR) : list SCH_ITEM :=
  match as_SCH_EDIT_FRAME (m_frame p) with
  | Some schFrame => screen_items schFrame
  | None => []
  end.

(** The commit labels pushed so far. *)
Definition commits_of (p : AI_COMMAND_PROCESSOR) : list string :=
  match as_SCH_EDIT_FRAME (m_frame p) with
  | Some schFrame => commits schFrame
  | None => []
  end.

(* ================================================================== *)
(** * The fragments of a streamed body                                  *)
(* ================================================================== *)

(** Whether a parsed line ends the stream: [done] present and true. *)
Definition line_done (j : json) : bool :=
  json_contains j "done" &&
  match get_bool (json_at j "done") with Some true => true | _ => false end.

(** The fragments a streamed body carries: the [response] string of each
    line that parses, up to and including the first line whose [done] is
    true.  Lines that do not parse, and lines whose [response] is not a
    string, are passed over. *)
Fixpoint stream_fragments (json_parse : string -> json + string) (tokens : list string)
  : list string :=
  match tokens with
  | [] => []
  | token :: rest =>
      let line := Trim true token in
      if IsEmpty line then stream_fragments json_parse rest
      else
        match json_parse line with
        | inr _ => stream_fragments json_parse rest
        | inl j =>
            if json_contains j "response" then
              match get_string (json_at j "response") with
              | Some chunk =>
                  chunk :: (if line_done j then [] else stream_fragments json_parse rest)
              | None => stream_fragments json_parse rest
              end
            else if line_done j then [] else stream_fragments json_parse rest
        end
  end.

Definition concat_all (l : list string) : string := fold_right String.append "" l.

(* ================================================================== *)
(** * A sample generator and chat panel                                 *)
(* ================================================================== *)

(** What the JSON library reads from the bodies of the sample server: the
    model list under [tags], and the four lines of a streamed answer. *)
Definition sample_json_parse (text : string) : json + string :=
  if String.eqb text "tags" then
    inl (JObject [("models",
                   JArray [JObject [("name", JString "codellama:7b")];
                           JObject [("name", JString "qwen2.5-coder:32b")]])])
  else if String.eqb text "line1" then
    inl (JObject [("response", JString "add "); ("done", JBool false)])
  else if String.eqb text "line2" then
    inl (JObject [("response", JString "component "); ("done", JBool false)])
  else if String.eqb text "line3" then
    inl (JObject [("response", JString "Device:R"); ("done", JBool false)])
  else if String.eqb text "line4" then
    inl (JObject [("response", JString ""); ("done", JBool true)])
  else inr "parse error".

Definition sample_http_get (url : string) : curl_result := curl_ok "tags".

Definition sample_http_post (url body : string) : curl_result :=
  curl_ok ("line1" ++ LF ++ "line2" ++ LF ++ "line3" ++ LF ++ "line4" ++ LF).

(** The chat panel while a streamed request runs, as far as the chunk
    callback and the Cancel button touch it: the atomic flag
    [m_cancelRequested], the chunks whose display has been queued for the UI
    thread with [CallAfter], oldest first, and [handed], a ghost count of
    the calls of the callback. *)
Record panel : Type := mkPANEL {
  m_cancelRequested : bool;
  queued : list string;
  handed : nat }.

(** The chunk callback [processCommand] passes to the service
    ([panel_ai_chat.cpp], lines 380 to 396): it reads the flag and returns
    when it is up; otherwise it queues the display of the chunk.  It never
    writes the flag. *)
Definition chunk_callback (chunk : string) (w : panel) : panel :=
  if m_cancelRequested w then mkPANEL (m_cancelRequested w) (queued w) (S (handed w))
  else mkPANEL (m_cancelRequested w) (queued w ++ [chunk])%list (S (handed w)).

(** [onCancelButton], the only store of [true] to the flag. *)
Definition press_cancel (w : panel) : panel := mkPANEL true (queued w) (handed w).

(** A run for the examples, not a function of the source: the callback is
    [chunk_callback], and the store of [onCancelButton] lands right after
    the callback has returned for fragment number [cancel_after]. *)
Definition panel_on_chunk (cancel_after : nat) (chunk : string) (w : panel) : panel :=
  let w' := chunk_callback chunk w in
  if Nat.eqb (handed w') cancel_after then press_cancel w' else w'.

Definition panel0 : panel := mkPANEL false [] 0.

Definition sample_service : OLLAMA_AI_SERVICE :=
  mkSERVICE "http://localhost:11434" "qwen2.5-coder:32b" true true.

(* ================================================================== *)
(** * Component names of the command grammar                            *)
(* ================================================================== *)

Fixpoint all_in (k : cclass) (s : string) : bool :=
  match s with
  | EmptyString => true
  | String c s' => in_class k c && all_in k s'
  end.

(** A non-empty run of characters of one class. *)
Definition is_ident (k : cclass) (s : string) : bool := negb (IsEmpty s) && all_in k s.

(** The text does not go on with a character of the class. *)
Definition stops (k : cclass) (s : string) : bool :=
  match s with
  | EmptyString => true
  | String c _ => negb (in_class k c)
  end.

(** The two shapes of a name in [add component <lib>:<sym>] and
    [add component <sym>]. *)
Inductive component_name : Type :=
| lib_sym (lib sym : string)
| bare_sym (sym : string).

Definition name_text (n : component_name) : string :=
  match n with
  | lib_sym lib sym => lib ++ ":" ++ sym
  | bare_sym sym => sym
  end.

(** Library and symbol are runs of word characters and dashes; a bare symbol
    is a run of word characters. *)
Definition well_formed (n : component_name) : bool :=
  match n with
  | lib_sym lib sym => is_ident cls_word_dash lib && is_ident cls_word_dash sym
  | bare_sym sym => is_ident cls_word sym
  end.

(* ================================================================== *)
(** * Proof automation                                                  *)
(* ================================================================== *)

(** Case analysis on the first [match] of the goal. *)
Ltac break_match :=
  match goal with
  | |- context [match ?x with _ => _ end] => destruct x eqn:?
  end.

(* ================================================================== *)
(** * Notions for the properties of the handlers                        *)
(* ================================================================== *)

(** The two shapes of a result: success without error text, or failure with
    an error text and no message. *)
Definition result_shape (r : AI_COMMAND_RESULT) : Prop :=
  (success r = true /\ error r = "") \/
  (success r = false /\ message r = "" /\ error r <> "").

(** What the host gained between two states: [items] were added to the
    screen and [labels] pushed as commits, one commit an item. *)
Definition edits_between (p p' : AI_COMMAND_PROCESSOR)
    (items : list SCH_ITEM) (labels : list string) : Prop :=
  screen_of p' = (screen_of p ++ items)%list /\
  commits_of p' = (commits_of p ++ labels)%list /\
  List.length items = List.length labels.

(** The label a committed item goes under. *)
Definition label_of (item : SCH_ITEM) : string :=
  match item with
  | item_symbol _ => "Place Symbol"
  | item_wire _ _ _ => "Draw Wire"
  end.

(* ================================================================== *)
(** * The assistant behind the processor                                *)
(* ================================================================== *)

(** [I_AI_SERVICE], as far as the processor uses it.  A service has a state
    of its own, which a call may change ([IsAvailable] is [const] but the
    Ollama client caches its answer in [mutable] members): each method
    returns the state it leaves. *)
Class I_AI_SERVICE (S : Type) : Type := {
  svc_ProcessPrompt : S -> string -> AI_CONTEXT -> AI_RESPONSE * S;
  svc_IsAvailable : S -> bool * S }.

(** [MOCK_AI_SERVICE]. *)
Module Mock.

Record MOCK_AI_SERVICE : Type := mkMOCK {
  m_isAvailable : bool;
  m_model : string;
  m_customResponse : string }.

Definition MOCK_AI_SERVICE_new : MOCK_AI_SERVICE := mkMOCK true "mock-model" "".

Definition ProcessPrompt (svc : MOCK_AI_SERVICE) (aPrompt : string) (aContext : AI_CONTEXT)
  : AI_RESPONSE :=
  mkRESPONSE true ("Mock response to: " ++ aPrompt) "" true.

Definition ProcessPromptStreaming {World : Type} (svc : MOCK_AI_SERVICE) (aPrompt : string)
    (aContext : AI_CONTEXT) (aCallback : option (string -> World -> World)) (w : World)
  : AI_RESPONSE * World :=
  let w :=
    match aCallback with
    | Some callback => callback "response" (callback "streaming " (callback "Mock " w))
    | None => w
    end in
  (ProcessPrompt svc aPrompt aContext, w).

Definition IsAvailable (svc : MOCK_AI_SERVICE) : bool := m_isAvailable svc.

Definition GetAvailableModels (svc : MOCK_AI_SERVICE) : list string :=
  ["mock-model"; "mock-model-2"].

Definition SetModel (svc : MOCK_AI_SERVICE) (aModelName : string) : MOCK_AI_SERVICE :=
  mkMOCK (m_isAvailable svc) aModelName (m_customResponse svc).

Definition GetCurrentModel (svc : MOCK_AI_SERVICE) : string := m_model svc.

Definition SetAvailable (svc : MOCK_AI_SERVICE) (aAvailable : bool) : MOCK_AI_SERVICE :=
  mkMOCK aAvailable (m_model svc) (m_customResponse svc).

Definition SetResponse (svc : MOCK_AI_SERVICE) (aResponse : string) : MOCK_AI_SERVICE :=
  mkMOCK (m_isAvailable svc) (m_model svc) aResponse.

End Mock.

#[export] Instance MOCK_service : I_AI_SERVICE Mock.MOCK_AI_SERVICE := {|
  svc_ProcessPrompt svc aPrompt aContext := (Mock.ProcessPrompt svc aPrompt aContext, svc);
  svc_IsAvailable svc := (Mock.IsAvailable svc, svc) |}.

(** The Ollama client as a service, over a JSON library and a transport.
    Without a callback a request acts on nothing outside the client. *)
Definition OLLAMA_service (json_parse : string -> json + string) (json_dump : json -> string)
    (type_error_what : json -> string) (http_get : string -> curl_result)
    (http_post : string -> string -> curl_result) : I_AI_SERVICE OLLAMA_AI_SERVICE := {|
  svc_ProcessPrompt svc aPrompt aContext :=
    let '(r, svc', _) :=
      ProcessPrompt json_parse json_dump type_error_what http_get http_post unit
        svc aPrompt aContext tt in
    (r, svc');
  svc_IsAvailable svc := IsAvailable http_get svc |}.

(** [ProcessCommand].  The processor's [m_aiService] is passed beside it and
    returned as the call leaves it; [None] is the null pointer. *)
Definition ProcessCommand {S : Type} `{I_AI_SERVICE S} (p : AI_COMMAND_PROCESSOR)
    (m_aiService : option S) (aCommand : string)
  : AI_COMMAND_RESULT * AI_COMMAND_PROCESSOR * option S :=
  match m_frame p with
  | None => (mkRESULT false "" "No frame available", p, m_aiService)
  | Some _ =>
      let fall_back (m_aiService : option S) :=
        let '(r, p') := processDirectCommand p aCommand in (r, p', m_aiService) in
      match m_aiService with
      | None => fall_back None
      | Some svc =>
          let '(available, svc) := svc_IsAvailable svc in
          if available then
            let context := gatherContext p in
            let '(aiResponse, svc) := svc_ProcessPrompt svc aCommand context in
            if resp_success aiResponse then
              let allCommands := mine (resp_message aiResponse) in
              let '(t1, p1) := run_pass in_pass1 allCommands tally0 p in
              let p1' := mark_modified t1 p1 in
              let '(t2, p2) := run_pass in_pass2 allCommands t1 p1' in
              if (0 <? commandCount t2)%Z || (0 <? failedCount t2)%Z then
                (mkRESULT true (report t2 ++ LF ++ LF ++ resp_message aiResponse) "",
                 p2, Some svc)
              else
                let '(directResult, p3) := processDirectCommand p2 aCommand in
                if success directResult then
                  (mkRESULT true
                     (resp_message aiResponse ++ LF ++ LF ++ message directResult) "",
                   p3, Some svc)
                else (mkRESULT true (resp_message aiResponse) "", p3, Some svc)
            else fall_back (Some svc)
          else fall_back (Some svc)
      end
  end.

(** A service that answers every prompt with the same text. *)
Definition sample_scripted (reply : string) : I_AI_SERVICE unit := {|
  svc_ProcessPrompt _ _ _ := (mkRESPONSE true reply "" true, tt);
  svc_IsAvailable _ := (true, tt) |}.

(** ** The setters of the Ollama client *)

Definition SetModel (svc : OLLAMA_AI_SERVICE) (aModelName : string) : OLLAMA_AI_SERVICE :=
  mkSERVICE (m_baseUrl svc) aModelName (m_availabilityChecked svc) (m_isAvailable svc).

Definition GetCurrentModel (svc : OLLAMA_AI_SERVICE) : string := m_model svc.

Definition SetBaseUrl (svc : OLLAMA_AI_SERVICE) (aBaseUrl : string) : OLLAMA_AI_SERVICE :=
  mkSERVICE aBaseUrl (m_model svc) false false.

(** Whether the server answers at [url]: what one probe gives. *)
Definition answers (http_get : string -> curl_result) (url : string) : bool :=
  match http_get (url ++ "/api/tags") with
  | curl_ok _ => true
  | curl_failed _ => false
  end.

(** The range of an [int]. *)
Definition INT_MIN : Z := (- 2 ^ 31)%Z.
Definition INT_MAX : Z := (2 ^ 31 - 1)%Z.

(* ================================================================== *)
(** * The command history of the chat panel                             *)
(* ================================================================== *)

(** [panel_ai_chat.cpp]: the members [addToCommandHistory] and [onKeyDown]
    read and write. *)
Module Panel.

Definition MAX_COMMAND_HISTORY : nat := 50.

Record PANEL_AI_CHAT : Type := mkCHAT {
  m_commandHistory : list string;
  m_historyIndex : nat;
  m_inputField : string;
  m_isProcessing : bool;
  m_cancelRequested : bool;
  m_statusText : string;
  m_cancelButton_enabled : bool }.

(** [std::find] and [erase]: the first element equal to [x] is removed. *)
Fixpoint erase_first (x : string) (l : list string) : list string :=
  match l with
  | [] => []
  | y :: l' => if String.eqb y x then l' else y :: erase_first x l'
  end.

Definition addToCommandHistory (c : PANEL_AI_CHAT) (aCommand : string) : PANEL_AI_CHAT :=
  let trimmedCommand := Trim true aCommand in
  if IsEmpty trimmedCommand then c
  else
    let h := trimmedCommand :: erase_first trimmedCommand (m_commandHistory c) in
    let h := if (MAX_COMMAND_HISTORY <? List.length h)%nat
             then firstn MAX_COMMAND_HISTORY h else h in
    mkCHAT h 0 (m_inputField c) (m_isProcessing c) (m_cancelRequested c)
      (m_statusText c) (m_cancelButton_enabled c).

Definition onCancelButton (c : PANEL_AI_CHAT) : PANEL_AI_CHAT :=
  mkCHAT (m_commandHistory c) (m_historyIndex c) (m_inputField c) (m_isProcessing c)
    true "Cancelling..." false.

Inductive key : Type := WXK_UP | WXK_DOWN | WXK_ESCAPE | WXK_OTHER.

Definition key_eqb (a b : key) : bool :=
  match a, b with
  | WXK_UP, WXK_UP | WXK_DOWN, WXK_DOWN | WXK_ESCAPE, WXK_ESCAPE | WXK_OTHER, WXK_OTHER => true
  | _, _ => false
  end.

(** [m_inputField->SetValue( m_commandHistory[m_historyIndex] )]. *)
Definition show_entry (c : PANEL_AI_CHAT) (index : nat) : PANEL_AI_CHAT :=
  mkCHAT (m_commandHistory c) index (nth index (m_commandHistory c) "")
    (m_isProcessing c) (m_cancelRequested c) (m_statusText c) (m_cancelButton_enabled c).

(** [onKeyDown]: the panel after the key, and whether the event was
    skipped.  An index past the end of the vector is undefined in the
    source; [nth] gives the empty string there. *)
Definition onKeyDown (c : PANEL_AI_CHAT) (keyCode : key) : PANEL_AI_CHAT * bool :=
  if key_eqb keyCode WXK_UP && (0 <? m_historyIndex c)%nat then
    (show_entry c (m_historyIndex c - 1), false)
  else if key_eqb keyCode WXK_DOWN
          && negb (match m_commandHistory c with [] => true | _ => false end)
          && (m_historyIndex c <? List.length (m_commandHistory c) - 1)%nat then
    (show_entry c (m_historyIndex c + 1), false)
  else if key_eqb keyCode WXK_ESCAPE && m_isProcessing c then (onCancelButton c, false)
  else (c, true).

(** The history as [addToCommandHistory] leaves it: no command twice, at
    most [MAX_COMMAND_HISTORY] commands, and the index on one of them. *)
Definition history_ok (c : PANEL_AI_CHAT) : Prop :=
  NoDup (m_commandHistory c) /\
  (List.length (m_commandHistory c) <= MAX_COMMAND_HISTORY)%nat /\
  (m_historyIndex c < List.length (m_commandHistory c))%nat.

End Panel.

(** What the library table and the libraries must hold for a name of the
    command grammar to be placed.  For [lib:sym]: a row of the table the
    handler reads matches [lib] without regard to case, and from a row of
    the table placement reads that matches [lib] the symbol [sym] loads.
    For a bare [sym]: some library of the table lists a name equal to [sym]
    without regard to case, and every such name loads from the library that
    lists it. *)
Definition available (adapter : SYMBOL_LIBRARY_ADAPTER) (n : component_name) : Prop :=
  match n with
  | lib_sym lib sym =>
      (exists row, In (Some row) (Rows_BOTH_all adapter) /\
                   CmpNoCase (Nickname row) lib = Eq) /\
      (exists row, In (Some row) (Rows adapter) /\
                   CmpNoCase (Nickname row) lib = Eq /\
                   LoadSymbol adapter (Nickname row) sym <> None)
  | bare_sym sym =>
      (exists row listed, In (Some row) (Rows adapter) /\
                          In listed (GetSymbolNames adapter (Nickname row)) /\
                          CmpNoCase listed sym = Eq) /\
      (forall row listed, In (Some row) (Rows adapter) ->
                          In listed (GetSymbolNames adapter (Nickname row)) ->
                          CmpNoCase listed sym = Eq ->
                          LoadSymbol adapter (Nickname row) listed <> None)
  end.

(* ================================================================== *)
(** * Checks of the model on sample inputs                              *)
(* ================================================================== *)

Example Lower_ex : Lower "Add Component Device:R" = "add component device:r".
Proof. reflexivity. Qed.

Example Trim_ex : Trim true (Trim false "  connect U1.1 to R1.1  ") = "connect U1.1 to R1.1".
Proof. reflexivity. Qed.

Example ToLong_ex :
  ToLong "50000" = Some 50000%Z /\ ToLong "-12" = Some (-12)%Z /\ ToLong "" = None
  /\ ToLong "+0" = Some 0%Z /\ ToLong "12a" = None.
Proof. repeat split; reflexivity. Qed.

Example format_d_ex :
  format_d 100000 = "100000" /\ format_d 0 = "0" /\ format_d (-75) = "-75".
Proof. repeat split; reflexivity. Qed.

Example wxSplit_ex : wxSplit "a
b
" (ascii_of_nat 10) = ["a"; "b"; ""].
Proof. reflexivity. Qed.

Example wxJoin_ex : wxJoin ["Device"; "Connector"] "," = "Device,Connector".
Proof. reflexivity. Qed.

Example parseAddComponent_ex1 :
  parseAddComponent "add component Device:R at 50000,75000" origin
  = Some ("Device:R", mkVECTOR2I 50000 75000).
Proof. vm_compute. reflexivity. Qed.

Example parseAddComponent_ex2 :
  parseAddComponent "add component device:r" origin = Some ("device:r", origin).
Proof. vm_compute. reflexivity. Qed.

Example parseAddComponent_ex3 :
  parseAddComponent "add component LM7805 at -10, +20" origin
  = Some ("LM7805", mkVECTOR2I (-10) 20).
Proof. vm_compute. reflexivity. Qed.

Example parseAddComponent_ex4 :
  parseAddComponent "please add  component R1" origin = Some ("R1", origin)
  /\ parseAddComponent "add symbol R1" origin = None.
Proof. split; vm_compute; reflexivity. Qed.

Example parseConnectCommand_ex1 :
  parseConnectCommand "connect U1.VIN to C1.P1" = Some ("U1", "VIN", "C1", "P1").
Proof. vm_compute. reflexivity. Qed.

Example parseConnectCommand_ex2 :
  parseConnectCommand "wire u1 pin vin to c1 pin 1" = Some ("u1", "vin", "c1", "1").
Proof. vm_compute. reflexivity. Qed.

Example parseAddTrace_ex :
  parseAddTrace "add trace from 0,0 to 100,100 width 10" 0
  = Some (origin, mkVECTOR2I 100 100, 10%Z)
  /\ parseAddTrace "add trace from 0,0 to 50,50" 0 = Some (origin, mkVECTOR2I 50 50, 0%Z).
Proof. split; vm_compute; reflexivity. Qed.


(** The unit tests' expectations on the mock frame: an empty command fails
    with an error, and so does a placement, the frame not being a schematic
    editor. *)
Example mock_frame_commands :
  fst (processDirectCommand sample_processor_mock_frame "")
  = mkRESULT false "" "Not in schematic editor" /\
  fst (processDirectCommand sample_processor_mock_frame "add component R1 at 100,200")
  = mkRESULT false "" "Not in schematic editor".
Proof. split; reflexivity. Qed.

Example board_commands :
  fst (processDirectCommand sample_processor_board "add trace from 0,0 to 100,100 width 10")
  = mkRESULT true "Would add trace from (0, 0) to (100, 100) width 10" "" /\
  fst (processDirectCommand sample_processor_board "add component Device:R")
  = not_recognized.
Proof. split; vm_compute; reflexivity. Qed.

Example generic_commands :
  success (fst (processDirectCommand sample_processor_no_frame "help")) = true /\
  fst (processDirectCommand sample_processor_no_frame "query  ")
  = mkRESULT false "" "Please specify what to search for." /\
  fst (processDirectCommand sample_processor_no_frame "search lm78")
  = mkRESULT true ("Search results for 'lm78':" ++ LF ++ "No matches found.") "".
Proof. repeat split; vm_compute; reflexivity. Qed.

(** Without a frame nothing is mined or run. *)
Example no_frame_run :
  ProcessCommandsFromResponse sample_processor_no_frame sample_response
  = (mkRESULT false "" "No frame available", sample_processor_no_frame).
Proof. reflexivity. Qed.

(* ================================================================== *)
(** * Facts about trimming                                              *)
(* ================================================================== *)

Lemma trim_left_no_lead_space (s : string) : no_lead_space (trim_left s).
Proof.
  induction s as [|c s IH]; simpl; [exact I|].
  destruct (wxIsspace c) eqn:E; [exact IH | exact E].
Qed.

Lemma no_lead_space_trim_left (s : string) : no_lead_space s -> trim_left s = s.
Proof.
  destruct s as [|c s]; simpl; [reflexivity|]. intros ->. reflexivity.
Qed.

Lemma no_lead_space_trim_right (s : string) :
  no_lead_space s -> no_lead_space (trim_right s).
Proof.
  destruct s as [|c s]; simpl; [trivial|]. intros H.
  rewrite H, andb_false_r. exact H.
Qed.

Lemma trim_right_tail (c : ascii) (s : string) :
  trim_right (String c s) = String c s -> trim_right s = s.
Proof.
  simpl. destruct (IsEmpty (trim_right s) && wxIsspace c); intros H; congruence.
Qed.

Lemma trim_right_idem (s : string) : trim_right (trim_right s) = trim_right s.
Proof.
  induction s as [|c s IH]; simpl; [reflexivity|].
  destruct (IsEmpty (trim_right s) && wxIsspace c) eqn:E; simpl; [reflexivity|].
  rewrite IH, E. reflexivity.
Qed.

Lemma trim_right_Mid (n : nat) :
  forall s, trim_right s = s -> trim_right (Mid s n) = Mid s n.
Proof.
  induction n as [|n IH]; intros s H; simpl; [exact H|].
  destruct s as [|c s]; [reflexivity|].
  apply IH. exact (trim_right_tail c s H).
Qed.

Lemma trim_right_trim_left (s : string) :
  trim_right s = s -> trim_right (trim_left s) = trim_left s.
Proof.
  induction s as [|c s IH]; intros H; [reflexivity|].
  cbn [trim_left]. destruct (wxIsspace c).
  - apply IH. exact (trim_right_tail c s H).
  - exact H.
Qed.

(** [Trim( false ).Trim( true )] leaves text that has white space at
    neither end. *)
Lemma full_trim_fixed (s : string) :
  no_lead_space s -> trim_right s = s -> Trim true (Trim false s) = s.
Proof.
  intros Hl Hr. unfold Trim. rewrite (no_lead_space_trim_left s Hl). exact Hr.
Qed.

Lemma full_trim_trimmed (s : string) :
  no_lead_space (Trim true (Trim false s)) /\
  trim_right (Trim true (Trim false s)) = Trim true (Trim false s).
Proof.
  unfold Trim. split.
  - apply no_lead_space_trim_right, trim_left_no_lead_space.
  - apply trim_right_idem.
Qed.

Lemma backtick_span_trimmed (s c : string) :
  backtick_span s = Some c -> no_lead_space c /\ trim_right c = c.
Proof.
  unfold backtick_span.
  destruct (negb (FindChar s "`" =? wxNOT_FOUND)%Z); [|discriminate].
  destruct (negb (find_from s "`" (Z.to_nat (FindChar s "`" + 1)) =? wxNOT_FOUND)%Z);
    [|discriminate].
  intros H. injection H as <-. apply full_trim_trimmed.
Qed.

(** Every command the miner adds is already trimmed at both ends. *)
Lemma mine_line_trimmed (line c : string) :
  mine_line line = Some c -> no_lead_space c /\ trim_right c = c.
Proof.
  unfold mine_line.
  pose proof (full_trim_trimmed line) as [Hl Hr].
  set (trimmed := Trim true (Trim false line)) in *.
  destruct (IsEmpty trimmed || StartsWith trimmed "#"); [discriminate|].
  destruct (StartsWith trimmed "**" && EndsWith trimmed ":**"); [discriminate|].
  destruct (mine_backticks trimmed) as [c1|] eqn:E1.
  { intros H; injection H as <-. unfold mine_backticks in E1.
    destruct (backtick_span trimmed) as [c0|] eqn:E0; [|discriminate].
    destruct (negb (IsEmpty c0) && starts_with_verb c0); [|discriminate].
    injection E1 as <-. exact (backtick_span_trimmed _ _ E0). }
  destruct (mine_command_colon trimmed) as [c2|] eqn:E2.
  { intros H; injection H as <-. unfold mine_command_colon in E2.
    destruct (negb (Find (Lower trimmed) "command:" =? wxNOT_FOUND)%Z); [|discriminate].
    match type of E2 with
    | context [backtick_span ?a] => destruct (backtick_span a) as [c0|] eqn:E0
    end; [|discriminate].
    destruct (negb (IsEmpty c0)); [|discriminate].
    injection E2 as <-. exact (backtick_span_trimmed _ _ E0). }
  destruct (mine_numbered trimmed) as [c3|] eqn:E3.
  { intros H; injection H as <-. unfold mine_numbered in E3.
    destruct trimmed as [|c0 [|c1 [|c2' rest]]]; try discriminate.
    destruct (wxIsdigit c0 && (Ascii.eqb c1 "." || Ascii.eqb c1 ")")); [|discriminate].
    match type of E3 with
    | context [starts_with_verb ?a] => destruct (starts_with_verb a)
    end; [|discriminate].
    injection E3 as <-. split.
    - exact (trim_left_no_lead_space (String c2' rest)).
    - exact (trim_right_trim_left (String c2' rest) (trim_right_Mid 2 _ Hr)). }
  destruct (starts_with_verb trimmed); [|discriminate].
  intros H; injection H as <-. split; assumption.
Qed.

Lemma mine_lines_In (lines : list string) (c : string) :
  In c (mine_lines lines) <-> exists line, In line lines /\ mine_line line = Some c.
Proof.
  induction lines as [|l lines IH]; simpl.
  - split; [tauto | intros [x [[] _]]].
  - destruct (mine_line l) as [c'|] eqn:E; simpl; rewrite ?IH; split.
    + intros [<- | [x [Hx Hm]]]; [exists l; auto | exists x; auto].
    + intros [x [[<- | Hx] Hm]]; [left; congruence | right; exists x; auto].
    + intros [x [Hx Hm]]; exists x; auto.
    + intros [x [[<- | Hx] Hm]]; [congruence | exists x; auto].
Qed.

Lemma mined_trimmed (aResponse c : string) :
  In c (mine aResponse) -> Trim true (Trim false c) = c.
Proof.
  unfold mine. rewrite mine_lines_In. intros [line [_ Hm]].
  destruct (mine_line_trimmed _ _ Hm) as [Hl Hr]. apply full_trim_fixed; assumption.
Qed.

(* ================================================================== *)
(** * The journal of a pipeline run                                     *)
(* ================================================================== *)

Lemma attempted_app (p p' : AI_COMMAND_PROCESSOR) (l : list string) :
  journal p' = (journal p ++ l)%list -> attempted p p' = l.
Proof.
  intros H. unfold attempted. rewrite H.
  rewrite skipn_app, skipn_all, Nat.sub_diag. reflexivity.
Qed.

Lemma executePlaceComponent_journal p aLibId aPosition :
  journal (snd (executePlaceComponent p aLibId aPosition)) = journal p.
Proof. unfold executePlaceComponent. repeat break_match; reflexivity. Qed.

Lemma executeDrawWire_journal p aStart aEnd :
  journal (snd (executeDrawWire p aStart aEnd)) = journal p.
Proof. unfold executeDrawWire. repeat break_match; reflexivity. Qed.

Lemma executeConnectComponents_journal p aRef1 aPin1 aRef2 aPin2 :
  journal (snd (executeConnectComponents p aRef1 aPin1 aRef2 aPin2)) = journal p.
Proof.
  unfold executeConnectComponents.
  repeat break_match; try reflexivity; apply executeDrawWire_journal.
Qed.

Lemma place_and_report_journal p componentName libId position :
  journal (snd (place_and_report p componentName libId position)) = journal p.
Proof.
  unfold place_and_report.
  pose proof (executePlaceComponent_journal p libId position) as H.
  destruct (executePlaceComponent p libId position) as [[|] p']; exact H.
Qed.

Lemma processSchematicCommand_journal p aCommand :
  journal (snd (processSchematicCommand p aCommand)) = journal p.
Proof.
  unfold processSchematicCommand.
  repeat (break_match; try reflexivity; try apply place_and_report_journal).
  all: match goal with
       | H : executeConnectComponents ?p ?a ?b ?c ?d = (_, ?p') |- _ =>
           pose proof (executeConnectComponents_journal p a b c d) as J;
           rewrite H in J; exact J
       end.
Qed.

(** Each call of [processDirectCommand] adds its argument to the journal and
    nothing else. *)
Lemma processDirectCommand_journal p aCommand :
  journal (snd (processDirectCommand p aCommand)) = (journal p ++ [aCommand])%list.
Proof.
  unfold processDirectCommand.
  repeat break_match; try reflexivity.
  apply processSchematicCommand_journal.
Qed.

Lemma run_command_journal cmd t p :
  journal (snd (run_command cmd t p)) = (journal p ++ [cmd])%list.
Proof.
  unfold run_command.
  pose proof (processDirectCommand_journal p cmd) as H.
  destruct (processDirectCommand p cmd) as [r p']. destruct (success r); exact H.
Qed.

(** One more attempt is one more in exactly one of the two counters. *)
Lemma run_command_counts cmd t p :
  let t' := fst (run_command cmd t p) in
  (commandCount t <= commandCount t' /\ failedCount t <= failedCount t' /\
   commandCount t' + failedCount t' = commandCount t + failedCount t + 1)%Z.
Proof.
  unfold run_command. destruct (processDirectCommand p cmd) as [r p'].
  destruct (success r); simpl; lia.
Qed.

Lemma run_pass_journal (in_pass : string -> bool) (allCommands : list string) :
  forall t p,
    Forall (fun c => Trim true (Trim false c) = c) allCommands ->
    journal (snd (run_pass in_pass allCommands t p))
    = (journal p ++ filter in_pass allCommands)%list.
Proof.
  induction allCommands as [|c rest IH]; intros t p Hall; cbn [run_pass filter].
  - cbn [snd]. rewrite app_nil_r. reflexivity.
  - inversion Hall as [|? ? Hc Hrest]; subst. rewrite Hc.
    destruct (in_pass c).
    + pose proof (run_command_journal c t p) as J.
      destruct (run_command c t p) as [t' p']. simpl in J.
      rewrite (IH t' p' Hrest), J, <- app_assoc. reflexivity.
    + apply IH, Hrest.
Qed.

Lemma run_pass_counts (in_pass : string -> bool) (allCommands : list string) :
  forall t p,
    let t' := fst (run_pass in_pass allCommands t p) in
    let p' := snd (run_pass in_pass allCommands t p) in
    (commandCount t <= commandCount t' /\ failedCount t <= failedCount t' /\
     commandCount t' + failedCount t' + Z.of_nat (List.length (journal p))
     = commandCount t + failedCount t + Z.of_nat (List.length (journal p')))%Z.
Proof.
  induction allCommands as [|c rest IH]; intros t p; cbn [run_pass].
  - cbn [fst snd]. lia.
  - cbv zeta. destruct (in_pass (Trim true (Trim false c))).
    + pose proof (run_command_journal (Trim true (Trim false c)) t p) as J.
      pose proof (run_command_counts (Trim true (Trim false c)) t p) as C.
      destruct (run_command (Trim true (Trim false c)) t p) as [t1 p1].
      simpl in J, C. specialize (IH t1 p1). simpl in IH.
      assert (L : List.length (journal p1) = S (List.length (journal p))).
      { rewrite J, length_app. simpl. lia. }
      lia.
    + apply IH.
Qed.

Lemma mark_modified_journal t p : journal (mark_modified t p) = journal p.
Proof. unfold mark_modified. repeat break_match; reflexivity. Qed.

Lemma mine_Forall_trimmed (aResponse : string) :
  Forall (fun c => Trim true (Trim false c) = c) (mine aResponse).
Proof. apply Forall_forall. intros c Hc. exact (mined_trimmed aResponse c Hc). Qed.

(** The journal after a whole run. *)
Lemma ProcessCommandsFromResponse_journal p aResponse :
  journal (snd (ProcessCommandsFromResponse p aResponse))
  = (journal p ++
     match m_frame p with
     | None => []
     | Some _ => filter in_pass1 (mine aResponse) ++ filter in_pass2 (mine aResponse)
     end)%list.
Proof.
  unfold ProcessCommandsFromResponse.
  destruct (m_frame p) as [fr|]; [|simpl; rewrite app_nil_r; reflexivity].
  pose proof (run_pass_journal in_pass1 (mine aResponse) tally0 p
                (mine_Forall_trimmed aResponse)) as J1.
  destruct (run_pass in_pass1 (mine aResponse) tally0 p) as [t1 p1]. simpl in J1.
  pose proof (run_pass_journal in_pass2 (mine aResponse) t1 (mark_modified t1 p1)
                (mine_Forall_trimmed aResponse)) as J2.
  destruct (run_pass in_pass2 (mine aResponse) t1 (mark_modified t1 p1)) as [t2 p2].
  simpl in J2. rewrite mark_modified_journal, J1, <- app_assoc in J2.
  destruct ((0 <? commandCount t2)%Z || (0 <? failedCount t2)%Z); exact J2.
Qed.

(** C1.  In every run of [ProcessCommandsFromResponse] on a processor with a
    frame, the commands executed are the mined commands of Pass 1 (those
    mentioning component or symbol), in the miner's order, followed by the
    mined commands of Pass 2 (those mentioning connect or wire), in the
    miner's order: every Pass 1 execution precedes every Pass 2 execution. *)
Theorem two_pass_execution_order (p : AI_COMMAND_PROCESSOR) (aResponse : string) :
  m_frame p <> None ->
  attempted p (snd (ProcessCommandsFromResponse p aResponse))
  = (filter in_pass1 (mine aResponse) ++ filter in_pass2 (mine aResponse))%list.
Proof.
  intros Hf. apply attempted_app.
  rewrite ProcessCommandsFromResponse_journal.
  destruct (m_frame p); [reflexivity | contradiction].
Qed.

Lemma two_pass_execution_order_witness :
  m_frame sample_processor <> None /\
  attempted sample_processor (snd (ProcessCommandsFromResponse sample_processor sample_response))
  = ["add component Device:R"; "add component Device:LM7805"; "connect U1.1 to R1.1"].
Proof.
  split; [discriminate|].
  rewrite (two_pass_execution_order sample_processor sample_response); [|discriminate].
  vm_compute. reflexivity.
Defined.

(** The run of the two-phase scenario: both placements, then the wire
    between the pins the placements created. *)
Example two_phase_scenario :
  let '(r, p') := ProcessCommandsFromResponse sample_processor sample_response in
  success r = true /\
  commits_of p' = ["Place Symbol"; "Place Symbol"; "Draw Wire"] /\
  message r = "Executed 3 command(s):" ++ LF ++
              "✓ add component Device:R" ++ LF ++
              "✓ add component Device:LM7805" ++ LF ++
              "✓ connect U1.1 to R1.1".
Proof. vm_compute. repeat split. Qed.

(** C9.  A run of [ProcessCommandsFromResponse] reports success exactly when
    it attempted at least one command, whatever the attempts returned:
    success is false only when no command was attempted. *)
Theorem pipeline_success_iff_attempted (p : AI_COMMAND_PROCESSOR) (aResponse : string) :
  success (fst (ProcessCommandsFromResponse p aResponse)) = true
  <-> attempted p (snd (ProcessCommandsFromResponse p aResponse)) <> [].
Proof.
  pose proof (ProcessCommandsFromResponse_journal p aResponse) as J.
  rewrite (attempted_app _ _ _ J). clear J.
  unfold ProcessCommandsFromResponse.
  destruct (m_frame p) as [fr|]; [|simpl; split; [discriminate | congruence]].
  pose proof (run_pass_journal in_pass1 (mine aResponse) tally0 p
                (mine_Forall_trimmed aResponse)) as J1.
  pose proof (run_pass_counts in_pass1 (mine aResponse) tally0 p) as C1.
  destruct (run_pass in_pass1 (mine aResponse) tally0 p) as [t1 p1].
  cbn [fst snd] in J1, C1.
  pose proof (run_pass_journal in_pass2 (mine aResponse) t1 (mark_modified t1 p1)
                (mine_Forall_trimmed aResponse)) as J2.
  pose proof (run_pass_counts in_pass2 (mine aResponse) t1 (mark_modified t1 p1)) as C2.
  destruct (run_pass in_pass2 (mine aResponse) t1 (mark_modified t1 p1)) as [t2 p2].
  cbn [fst snd] in J2, C2. rewrite mark_modified_journal in J2, C2.
  rewrite J2, J1 in C2. rewrite J1 in C1.
  cbn [tally0 commandCount failedCount] in C1.
  set (l1 := filter in_pass1 (mine aResponse)) in *.
  set (l2 := filter in_pass2 (mine aResponse)) in *.
  clearbody l1 l2. clear J1 J2.
  destruct ((0 <? commandCount t2)%Z || (0 <? failedCount t2)%Z) eqn:E; cbn [fst success].
  - split; [intros _ | reflexivity]. intros Hnil.
    apply app_eq_nil in Hnil as [H1 H2]. subst l1 l2. simpl in C1, C2.
    rewrite ?app_nil_r in C1. rewrite ?app_nil_r in C2.
    apply orb_true_iff in E as [E | E]; apply Z.ltb_lt in E; lia.
  - split; [discriminate|]. intros Hne. exfalso. apply Hne.
    apply orb_false_iff in E as [E1 E2]. apply Z.ltb_ge in E1, E2.
    rewrite !length_app in C1. rewrite !length_app in C2.
    assert (L : (List.length l1 + List.length l2 = 0)%nat) by lia.
    destruct l1; [destruct l2; [reflexivity | simpl in L; lia] | simpl in L; lia].
Qed.

(** A run in which every attempted command fails still reports success. *)
Example all_failed_still_success :
  let '(r, p') :=
    ProcessCommandsFromResponse sample_processor "add component Foo:Bar" in
  success r = true /\ attempted sample_processor p' = ["add component Foo:Bar"] /\
  message r = "Executed 0 command(s), 1 failed:" ++ LF ++ LF ++ LF ++ "Failed:" ++ LF ++
              "✗ add component Foo:Bar (Library 'foo' not found. Available libraries: Device,Connector)".
Proof. vm_compute. repeat split. Qed.

(* ================================================================== *)
(** * How often a mined command runs                                    *)
(* ================================================================== *)

Lemma count_occ_filter (f : string -> bool) (l : list string) (c : string) :
  count_occ string_dec (filter f l) c
  = if f c then count_occ string_dec l c else O.
Proof.
  induction l as [|x l IH]; simpl.
  - destruct (f c); reflexivity.
  - destruct (f x) eqn:Fx; simpl; destruct (string_dec x c) as [->|Hne].
    + rewrite IH, Fx. reflexivity.
    + exact IH.
    + rewrite IH, Fx. reflexivity.
    + exact IH.
Qed.

(** A mined command runs once in each pass whose words it mentions. *)
Lemma execution_count (p : AI_COMMAND_PROCESSOR) (aResponse c : string) :
  m_frame p <> None ->
  count_occ string_dec (attempted p (snd (ProcessCommandsFromResponse p aResponse))) c
  = ((if in_pass1 c then 1 else 0) + (if in_pass2 c then 1 else 0))
    * count_occ string_dec (mine aResponse) c.
Proof.
  intros Hf.
  rewrite (attempted_app _ _ _ (ProcessCommandsFromResponse_journal p aResponse)).
  destruct (m_frame p); [|contradiction].
  rewrite count_occ_app, !count_occ_filter.
  destruct (in_pass1 c), (in_pass2 c); lia.
Qed.

(** C2, as stated, fails: the mined command [place resistor R1] mentions
    none of component, symbol, connect and wire, belongs to neither pass and
    is never executed. *)
Lemma two_pass_split_misses_a_command :
  mine "place resistor R1" = ["place resistor R1"] /\
  in_pass1 "place resistor R1" = false /\
  in_pass2 "place resistor R1" = false /\
  attempted sample_processor
    (snd (ProcessCommandsFromResponse sample_processor "place resistor R1")) = [].
Proof. vm_compute. repeat split. Qed.

(** C2, amended.  A mined command that mentions component or symbol but
    neither connect nor wire is executed exactly once for each time it was
    mined, and so is one that mentions connect or wire but neither component
    nor symbol; a mined command that mentions none of the four words is not
    executed. *)
Theorem mined_command_runs (p : AI_COMMAND_PROCESSOR) (aResponse c : string) :
  m_frame p <> None ->
  let executed := attempted p (snd (ProcessCommandsFromResponse p aResponse)) in
  (xorb (in_pass1 c) (in_pass2 c) = true ->
   count_occ string_dec executed c = count_occ string_dec (mine aResponse) c) /\
  (in_pass1 c = false -> in_pass2 c = false -> count_occ string_dec executed c = O).
Proof.
  intros Hf executed. unfold executed. rewrite (execution_count p aResponse c Hf).
  split.
  - destruct (in_pass1 c), (in_pass2 c); simpl; intros H; try discriminate; lia.
  - intros -> ->. reflexivity.
Qed.

Lemma mined_command_runs_witness :
  m_frame sample_processor <> None /\
  count_occ string_dec
    (attempted sample_processor
       (snd (ProcessCommandsFromResponse sample_processor sample_response)))
    "add component Device:R" = 1.
Proof.
  split; [discriminate|].
  destruct (mined_command_runs sample_processor sample_response "add component Device:R")
    as [H _]; [discriminate|].
  rewrite H; reflexivity.
Defined.

(** A placement from the [Connector] library mentions connect: it runs in
    both passes and the symbol lands on the sheet twice. *)
Example connector_placed_twice :
  let '(r, p') :=
    ProcessCommandsFromResponse sample_processor "add component Connector:Conn_01x02" in
  attempted sample_processor p'
  = ["add component Connector:Conn_01x02"; "add component Connector:Conn_01x02"] /\
  commits_of p' = ["Place Symbol"; "Place Symbol"] /\
  List.length (screen_of p') = 2.
Proof. vm_compute. repeat split. Qed.

(* ================================================================== *)
(** * What the miner emits                                              *)
(* ================================================================== *)

(** C3, as stated, fails: the [command:] branch adds the span [help], which
    starts with none of the four verbs. *)
Lemma miner_emits_other_verb :
  mine "Command: `help`" = ["help"] /\ starts_with_verb "help" = false.
Proof. vm_compute. split; reflexivity. Qed.

(** C3, amended.  Every mined command starts, without regard to case, with
    add, connect, wire or place, unless it was taken by the [command:]
    branch: then its line contains [command:] and the command is the
    non-empty trimmed backtick span that follows, whatever its first word. *)
Theorem mined_command_shape (aResponse c : string) :
  In c (mine aResponse) ->
  starts_with_verb c = true \/
  (IsEmpty c = false /\
   exists line,
     In line (wxSplit aResponse (ascii_of_nat 10)) /\
     Contains (Lower (Trim true (Trim false line))) "command:" = true /\
     mine_command_colon (Trim true (Trim false line)) = Some c).
Proof.
  unfold mine. rewrite mine_lines_In. intros [line [Hin Hm]].
  unfold mine_line in Hm.
  set (trimmed := Trim true (Trim false line)) in *.
  destruct (IsEmpty trimmed || StartsWith trimmed "#"); [discriminate|].
  destruct (StartsWith trimmed "**" && EndsWith trimmed ":**"); [discriminate|].
  destruct (mine_backticks trimmed) as [c1|] eqn:E1.
  { injection Hm as <-. left. unfold mine_backticks in E1.
    destruct (backtick_span trimmed) as [c0|]; [|discriminate].
    destruct (negb (IsEmpty c0)); [|discriminate]. simpl in E1.
    destruct (starts_with_verb c0) eqn:V; [|discriminate].
    injection E1 as <-. exact V. }
  destruct (mine_command_colon trimmed) as [c2|] eqn:E2.
  { injection Hm as <-. right.
    assert (H : IsEmpty c2 = false /\ Contains (Lower trimmed) "command:" = true).
    { unfold mine_command_colon in E2. unfold Contains.
      destruct (negb (Find (Lower trimmed) "command:" =? wxNOT_FOUND)%Z); [|discriminate].
      match type of E2 with
      | context [backtick_span ?a] => destruct (backtick_span a) as [c0|]
      end; [|discriminate].
      destruct (IsEmpty c0) eqn:Z0; [discriminate|].
      injection E2 as <-. split; [exact Z0 | reflexivity]. }
    destruct H as [H1 H2]. split; [exact H1|].
    exists line. repeat split; assumption. }
  destruct (mine_numbered trimmed) as [c3|] eqn:E3.
  { injection Hm as <-. left. unfold mine_numbered in E3.
    destruct trimmed as [|c0 [|c1' [|c2' rest]]]; try discriminate.
    destruct (wxIsdigit c0 && (Ascii.eqb c1' "." || Ascii.eqb c1' ")")); [|discriminate].
    match type of E3 with
    | context [starts_with_verb ?a] => destruct (starts_with_verb a) eqn:V
    end; [|discriminate].
    injection E3 as <-. exact V. }
  destruct (starts_with_verb trimmed) eqn:V; [|discriminate].
  injection Hm as <-. left. exact V.
Qed.

Lemma mined_command_shape_witness :
  In "add component Device:R" (mine sample_response) /\
  (starts_with_verb "add component Device:R" = true \/
   (IsEmpty "add component Device:R" = false /\
    exists line,
      In line (wxSplit sample_response (ascii_of_nat 10)) /\
      Contains (Lower (Trim true (Trim false line))) "command:" = true /\
      mine_command_colon (Trim true (Trim false line)) = Some "add component Device:R")).
Proof.
  assert (H : In "add component Device:R" (mine sample_response)).
  { vm_compute. right. left. reflexivity. }
  split; [exact H|]. exact (mined_command_shape sample_response _ H).
Defined.

(* ================================================================== *)
(** * Pin aliases                                                       *)
(* ================================================================== *)

Lemma wxTolower_not_P (c : ascii) : Ascii.eqb (wxTolower c) "P" = false.
Proof. destruct c as [[] [] [] [] [] [] [] []]; reflexivity. Qed.

(** A lower-cased pin identifier never has the [P] variant. *)
Lemma pin_alt_Lower (s : string) : pin_alt (Lower s) = "".
Proof.
  unfold pin_alt, StartsWith. destruct s as [|c s]; [reflexivity|].
  cbn [Lower String.prefix].
  destruct (ascii_dec "P" (wxTolower c)) as [e|_]; [|reflexivity].
  pose proof (wxTolower_not_P c) as H. rewrite <- e, Ascii.eqb_refl in H. discriminate.
Qed.

Lemma Lower_idem (s : string) : Lower (Lower s) = Lower s.
Proof.
  induction s as [|c s IH]; simpl; [reflexivity|]. rewrite IH. f_equal.
  destruct c as [[] [] [] [] [] [] [] []]; reflexivity.
Qed.

(** So for a lower-cased identifier only the name or number as written can
    match: the search is the one for the identifier itself, without the
    variant. *)
Lemma find_pin_Lower (pins : list SCH_PIN) (aPin : string) :
  find_pin pins (Lower aPin)
  = find (fun pin => is_Eq (CmpNoCase (GetShownName pin) aPin) ||
                     is_Eq (CmpNoCase (GetShownNumber pin) aPin)) pins.
Proof.
  unfold find_pin. rewrite pin_alt_Lower.
  induction pins as [|pin pins IH]; [reflexivity|]. cbn [find].
  unfold pin_matches at 1. cbn [IsEmpty negb andb]. rewrite orb_false_r.
  unfold CmpNoCase. rewrite Lower_idem, IH. reflexivity.
Qed.

(** With the identifier as written, the [P] is stripped and pin number 1 of
    U1 is found. *)
Example pin_alias_direct :
  fst (executeConnectComponents sample_processor_U1_C1 "U1" "P1" "C1" "2") = true.
Proof. vm_compute. reflexivity. Qed.

(** C4.  On the sheet with U1 (pin number 1) and C1 (pin number 2), the
    command [connect U1.P1 to C1.2] reaches the connection routine
    lower-cased, as u1.p1; the test for a leading capital P then fails, pin
    1 of U1 is not found, and the command fails without drawing a wire. *)
Theorem pin_alias_fails_through_dispatch :
  let '(r, p') := processDirectCommand sample_processor_U1_C1 "connect U1.P1 to C1.2" in
  find_symbol (Hierarchy_GetSymbols (sample_sch []) (screen_of sample_processor_U1_C1)) "U1"
    = Some sample_U1 /\
  find_symbol (Hierarchy_GetSymbols (sample_sch []) (screen_of sample_processor_U1_C1)) "C1"
    = Some sample_C1 /\
  map GetShownNumber (GetPins sample_U1) = ["1"; "2"; "3"] /\
  parseConnectCommand (Trim true (Lower "connect U1.P1 to C1.2"))
    = Some ("u1", "p1", "c1", "2") /\
  success r = false /\
  error r = "Failed to connect u1.p1 to c1.2" /\
  screen_of p' = screen_of sample_processor_U1_C1 /\
  commits_of p' = [].
Proof. vm_compute. repeat split. Qed.

(* ================================================================== *)
(** * The Ollama client                                                 *)
(* ================================================================== *)

Lemma prefix_coder_code (s : string) :
  String.prefix "coder" s = true -> String.prefix "code" s = true.
Proof.
  destruct s as [|a0 [|a1 [|a2 [|a3 [|a4 s]]]]]; cbn [String.prefix];
    repeat match goal with
           | |- context [ascii_dec ?x ?y] => destruct (ascii_dec x y)
           end; try discriminate; try reflexivity.
Qed.

Lemma find_str_coder_code (s : string) :
  find_str s "coder" <> None -> find_str s "code" <> None.
Proof.
  induction s as [|a s IH]; cbn [find_str].
  - simpl. congruence.
  - destruct (String.prefix "coder" (String a s)) eqn:P1.
    + rewrite (prefix_coder_code _ P1). discriminate.
    + destruct (String.prefix "code" (String a s)); [discriminate|].
      destruct (find_str s "coder") eqn:F1; simpl; [|congruence]. intros _.
      destruct (find_str s "code") eqn:F2; simpl; [discriminate|].
      exfalso. apply IH; [discriminate | reflexivity].
Qed.

Lemma found_not_wxNOT_FOUND (n : nat) : negb (Z.of_nat n =? wxNOT_FOUND)%Z = true.
Proof. destruct n; reflexivity. Qed.

Lemma Contains_coder_code (x : string) :
  Contains x "coder" = true -> Contains x "code" = true.
Proof.
  unfold Contains, Find. pose proof (find_str_coder_code x) as H.
  destruct (find_str x "coder"); [|simpl; discriminate].
  destruct (find_str x "code"); [intros _; apply found_not_wxNOT_FOUND|].
  exfalso. apply H; [discriminate | reflexivity].
Qed.

(** What the constructor's choice amounts to: the first listed model whose
    name contains code, else the first listed model, else the default. *)
Lemma select_model_code (m_model0 first : string) (rest : list string) :
  select_model m_model0 (first :: rest)
  = match find (fun model => Contains model "code") (first :: rest) with
    | Some model => model
    | None => first
    end.
Proof.
  unfold select_model.
  assert (H : forall l, find (fun model => Contains model "coder" || Contains model "code") l
                        = find (fun model => Contains model "code") l).
  { induction l as [|x l IH]; [reflexivity|]. cbn [find]. rewrite IH.
    pose proof (Contains_coder_code x) as I.
    destruct (Contains x "coder"), (Contains x "code"); try reflexivity.
    discriminate (I eq_refl). }
  rewrite H. reflexivity.
Qed.

(** C8.  The server lists [codellama:7b] before the preferred
    [qwen2.5-coder:32b]: the constructor replaces the preferred model,
    though it is in the list, with the first name that contains code. *)
Theorem constructor_drops_listed_default :
  GetAvailableModels sample_json_parse sample_http_get
    (mkSERVICE "http://localhost:11434" "qwen2.5-coder:32b" false false)
  = ["codellama:7b"; "qwen2.5-coder:32b"] /\
  m_model (OLLAMA_AI_SERVICE_new sample_json_parse sample_http_get "http://localhost:11434")
  = "codellama:7b".
Proof. vm_compute. split; reflexivity. Qed.

(** ** Streaming *)

Lemma append_assoc_s (a b c : string) : (a ++ b) ++ c = a ++ b ++ c.
Proof. induction a as [|x a IH]; simpl; [reflexivity | rewrite IH; reflexivity]. Qed.

Lemma append_empty_r (a : string) : a ++ "" = a.
Proof. induction a as [|x a IH]; simpl; [reflexivity | rewrite IH; reflexivity]. Qed.

Section Streaming.

Variable json_parse : string -> json + string.
Variable World : Type.
Variable callback : string -> World -> World.

(** The loop appends every fragment of the body to the message and hands
    every fragment to the callback, in order; nothing else decides when it
    stops. *)
Lemma stream_loop_fragments (tokens : list string) :
  forall completeMessage w,
    stream_loop json_parse World tokens callback completeMessage w
    = (completeMessage ++ concat_all (stream_fragments json_parse tokens),
       fold_left (fun w chunk => callback chunk w)
                 (stream_fragments json_parse tokens) w).
Proof.
  induction tokens as [|token rest IH]; intros msg w; cbn [stream_loop stream_fragments].
  - simpl. rewrite append_empty_r. reflexivity.
  - cbv zeta. destruct (IsEmpty (Trim true token)); [apply IH|].
    destruct (json_parse (Trim true token)) as [j|what]; [|apply IH].
    unfold line_done.
    destruct (json_contains j "response").
    + destruct (get_string (json_at j "response")) as [chunk|]; [|apply IH].
      destruct (json_contains j "done"); cbn [andb].
      * destruct (get_bool (json_at j "done")) as [[|]|].
        -- simpl. rewrite append_empty_r. reflexivity.
        -- rewrite IH. simpl. rewrite append_assoc_s. reflexivity.
        -- rewrite IH. simpl. rewrite append_assoc_s. reflexivity.
      * rewrite IH. simpl. rewrite append_assoc_s. reflexivity.
    + destruct (json_contains j "done"); cbn [andb].
      * destruct (get_bool (json_at j "done")) as [[|]|].
        -- simpl. rewrite append_empty_r. reflexivity.
        -- apply IH.
        -- apply IH.
      * apply IH.
Qed.

End Streaming.

(** A streaming request whose transport delivers a body returns the whole
    of it. *)
Lemma makeApiRequest_streaming
    (json_parse : string -> json + string) (type_error_what : json -> string)
    (http_post : string -> string -> curl_result) (World : Type)
    (svc : OLLAMA_AI_SERVICE) (aEndpoint aJsonPayload body : string)
    (callback : string -> World -> World) (w : World) :
  http_post (m_baseUrl svc ++ aEndpoint) aJsonPayload = curl_ok body ->
  makeApiRequest json_parse type_error_what http_post World svc aEndpoint aJsonPayload
    true (Some callback) w
  = (mkRESPONSE true
       (concat_all (stream_fragments json_parse (wxStringTokenizer body (ascii_of_nat 10))))
       "" true,
     fold_left (fun w chunk => callback chunk w)
       (stream_fragments json_parse (wxStringTokenizer body (ascii_of_nat 10))) w).
Proof.
  intros Hpost. unfold makeApiRequest. rewrite Hpost.
  rewrite stream_loop_fragments. reflexivity.
Qed.

Lemma IsAvailable_keeps (http_get : string -> curl_result) (svc : OLLAMA_AI_SERVICE) :
  m_baseUrl (snd (IsAvailable http_get svc)) = m_baseUrl svc /\
  m_model (snd (IsAvailable http_get svc)) = m_model svc.
Proof. unfold IsAvailable. destruct (m_availabilityChecked svc); split; reflexivity. Qed.

(** C5, as stated, fails.  The generator streams the fragments [add ],
    [component ], [Device:R] and the empty fragment of the line marked done;
    the callback is the chat panel's, and the panel's cancel flag is raised
    right after the second fragment.  The flag is up and the panel has
    queued [add ] and [component ] only, yet the client has read on, has
    handed all four fragments to the callback, and returns the whole text
    with the complete flag set. *)
Lemma streaming_ignores_cancel_flag :
  let '(r, _, w) :=
    ProcessPromptStreaming sample_json_parse (fun _ => "payload") (fun _ => "type error")
      sample_http_get sample_http_post panel sample_service "add a resistor"
      (mkCONTEXT "schematic" "" "" [] []) (Some (panel_on_chunk 2)) panel0 in
  m_cancelRequested w = true /\ queued w = ["add "; "component "] /\ handed w = 4%nat /\
  isComplete r = true /\ resp_message r = "add component Device:R" /\
  ~ (isComplete r = false /\ resp_message r = "add component ").
Proof. vm_compute. repeat split. intros [H _]. discriminate H. Qed.

(** C5, amended.  The client has no cancel token.  When the service is
    available and the transport delivers a body, a streaming generation hands
    every fragment of the body, up to the first line marked done, to the
    callback, and returns success with the complete flag set and the
    concatenation of all those fragments as its text, whatever the callback
    does and whatever flag it reads. *)
Theorem streaming_returns_whole_body
    (json_parse : string -> json + string) (json_dump : json -> string)
    (type_error_what : json -> string) (http_get : string -> curl_result)
    (http_post : string -> string -> curl_result) (World : Type)
    (svc : OLLAMA_AI_SERVICE) (aPrompt body : string) (aContext : AI_CONTEXT)
    (callback : string -> World -> World) (w : World) :
  fst (IsAvailable http_get svc) = true ->
  http_post (m_baseUrl svc ++ "/api/generate")
            (generate_payload json_dump svc aPrompt aContext true) = curl_ok body ->
  let fragments := stream_fragments json_parse (wxStringTokenizer body (ascii_of_nat 10)) in
  ProcessPromptStreaming json_parse json_dump type_error_what http_get http_post World
    svc aPrompt aContext (Some callback) w
  = (mkRESPONSE true (concat_all fragments) "" true,
     snd (IsAvailable http_get svc),
     fold_left (fun w chunk => callback chunk w) fragments w).
Proof.
  intros Hav Hpost fragments. unfold ProcessPromptStreaming.
  destruct (IsAvailable_keeps http_get svc) as [Hu Hm].
  destruct (IsAvailable http_get svc) as [available svc'] eqn:E.
  cbn [fst snd] in Hav, Hu, Hm. subst available. cbn [negb].
  assert (Hp : generate_payload json_dump svc' aPrompt aContext true
               = generate_payload json_dump svc aPrompt aContext true).
  { unfold generate_payload. rewrite Hm. reflexivity. }
  rewrite Hp, (makeApiRequest_streaming json_parse type_error_what http_post World svc'
                 "/api/generate" _ body callback w); [reflexivity|].
  rewrite Hu. exact Hpost.
Qed.

Lemma streaming_returns_whole_body_witness :
  fst (IsAvailable sample_http_get sample_service) = true /\
  ProcessPromptStreaming sample_json_parse (fun _ => "payload") (fun _ => "type error")
    sample_http_get sample_http_post panel sample_service "add a resistor"
    (mkCONTEXT "schematic" "" "" [] []) (Some (panel_on_chunk 2)) panel0
  = (mkRESPONSE true "add component Device:R" "" true, sample_service,
     mkPANEL true ["add "; "component "] 4).
Proof.
  split; [reflexivity|].
  rewrite (streaming_returns_whole_body sample_json_parse (fun _ => "payload")
             (fun _ => "type error") sample_http_get sample_http_post panel sample_service
             "add a resistor"
             ("line1" ++ LF ++ "line2" ++ LF ++ "line3" ++ LF ++ "line4" ++ LF)
             (mkCONTEXT "schematic" "" "" [] []) (panel_on_chunk 2) panel0
             eq_refl eq_refl).
  vm_compute. reflexivity.
Defined.

(* ================================================================== *)
(** * Library resolution and placement                                  *)
(* ================================================================== *)

Lemma is_Eq_true (c : comparison) : is_Eq c = true <-> c = Eq.
Proof. destruct c; simpl; split; congruence. Qed.

Lemma string_compare_refl (s : string) : String.compare s s = Eq.
Proof.
  induction s as [|c s IH]; simpl; [reflexivity|].
  unfold Ascii.compare. rewrite N.compare_refl. exact IH.
Qed.

Lemma CmpNoCase_Eq (a b : string) : CmpNoCase a b = Eq <-> Lower a = Lower b.
Proof.
  unfold CmpNoCase. split.
  - apply String.compare_eq_iff.
  - intros ->. apply string_compare_refl.
Qed.

Lemma CmpNoCase_trans (a b c : string) :
  CmpNoCase a b = Eq -> CmpNoCase b c = Eq -> CmpNoCase a c = Eq.
Proof. rewrite !CmpNoCase_Eq. congruence. Qed.

Lemma CmpNoCase_nonempty (a b : string) :
  CmpNoCase a b = Eq -> IsEmpty b = false -> IsEmpty a = false.
Proof.
  rewrite CmpNoCase_Eq. destruct a, b; simpl; intros H E; congruence.
Qed.

(** The handler's row loop returns the nickname of a matching row, exactly
    as the table has it. *)
Lemma find_actualLibName_found (libRows : list (option LIBRARY_TABLE_ROW)) (libName : string) :
  (exists row, In (Some row) libRows /\ CmpNoCase (Nickname row) libName = Eq) ->
  exists row, In (Some row) libRows /\ CmpNoCase (Nickname row) libName = Eq /\
              find_actualLibName libRows libName = Nickname row.
Proof.
  induction libRows as [|[row0|] rest IH]; intros [row [Hin Hc]].
  - destruct Hin.
  - cbn [find_actualLibName].
    destruct (is_Eq (CmpNoCase (Nickname row0) libName)) eqn:E.
    + exists row0. apply is_Eq_true in E. repeat split; simpl; auto.
    + destruct Hin as [Heq | Hin].
      * injection Heq as ->. rewrite Hc in E. discriminate.
      * destruct IH as [row' [Hin' [Hc' Hf]]]; [exists row; auto|].
        exists row'. repeat split; simpl; auto.
  - cbn [find_actualLibName]. destruct Hin as [Heq | Hin]; [discriminate|].
    destruct IH as [row' [Hin' [Hc' Hf]]]; [exists row; auto|].
    exists row'. repeat split; simpl; auto.
Qed.

Lemma find_actualLibName_none (libRows : list (option LIBRARY_TABLE_ROW)) (libName : string) :
  (forall row, In (Some row) libRows -> CmpNoCase (Nickname row) libName <> Eq) ->
  find_actualLibName libRows libName = "".
Proof.
  induction libRows as [|[row0|] rest IH]; intros H; cbn [find_actualLibName].
  - reflexivity.
  - destruct (is_Eq (CmpNoCase (Nickname row0) libName)) eqn:E.
    + apply is_Eq_true in E. exfalso. apply (H row0); simpl; auto.
    + apply IH. intros row Hin. apply H. simpl; auto.
  - apply IH. intros row Hin. apply H. simpl; auto.
Qed.

(** The placement loop ends on a matching row whose nickname it keeps. *)
Lemma place_scan_some (adapter : SYMBOL_LIBRARY_ADAPTER)
    (libRows : list (option LIBRARY_TABLE_ROW)) (libNickname libItemName : string) :
  forall actual0 actual libSymbol,
    place_scan adapter libRows libNickname libItemName actual0 = (actual, Some libSymbol) ->
    exists row, In (Some row) libRows /\ CmpNoCase (Nickname row) libNickname = Eq /\
                actual = Nickname row /\
                LoadSymbol adapter (Nickname row) libItemName = Some libSymbol.
Proof.
  induction libRows as [|[row0|] rest IH]; intros actual0 actual libSymbol H;
    cbn [place_scan] in H.
  - discriminate.
  - destruct (is_Eq (CmpNoCase (Nickname row0) libNickname)) eqn:E.
    + destruct (LoadSymbol adapter (Nickname row0) libItemName) as [ls|] eqn:L.
      * injection H as <- <-. exists row0. apply is_Eq_true in E.
        repeat split; simpl; auto.
      * destruct (IH _ _ _ H) as [row [Hin Hrest]]. exists row. split; [simpl; auto | exact Hrest].
    + destruct (IH _ _ _ H) as [row [Hin Hrest]]. exists row. split; [simpl; auto | exact Hrest].
  - destruct (IH _ _ _ H) as [row [Hin Hrest]]. exists row. split; [simpl; auto | exact Hrest].
Qed.

(** A successful placement adds one symbol, at the position asked for, under
    the nickname of a table row that matches the requested nickname without
    regard to case, and commits it as "Place Symbol". *)
Lemma executePlaceComponent_true (p p' : AI_COMMAND_PROCESSOR) (schFrame : SCH_EDIT_FRAME)
    (prj : PROJECT) (adapter : SYMBOL_LIBRARY_ADAPTER) (aLibId : LIB_ID)
    (aPosition : VECTOR2I) :
  m_frame p = Some (mkFRAME (is_SCH_EDIT_FRAME schFrame) prj) ->
  SymbolLibAdapter prj = Some adapter ->
  executePlaceComponent p aLibId aPosition = (true, p') ->
  exists row s,
    In (Some row) (Rows adapter) /\
    CmpNoCase (Nickname row) (GetLibNickname aLibId) = Eq /\
    GetLibId s = mkLIB_ID (Nickname row) (GetLibItemName aLibId) /\
    sym_Position s = aPosition /\
    screen_of p' = (screen_of p ++ [item_symbol s])%list /\
    commits_of p' = (commits_of p ++ ["Place Symbol"])%list.
Proof.
  intros Hf Ha. unfold executePlaceComponent. rewrite Hf. cbn [frame_obj Prj]. rewrite Ha.
  destruct (place_scan adapter (Rows adapter) (GetLibNickname aLibId)
              (GetLibItemName aLibId) "") as [actual [libSymbol|]] eqn:S; [|discriminate].
  destruct (GetScreen schFrame) as [items|] eqn:G; [|discriminate].
  intros H. injection H as <-.
  destruct (place_scan_some _ _ _ _ _ _ _ S) as [row [Hin [Hc [-> Hl]]]].
  assert (Sp : screen_of p = items).
  { unfold screen_of. rewrite Hf. cbn. unfold screen_items. rewrite G. reflexivity. }
  assert (Cp : commits_of p = commits schFrame).
  { unfold commits_of. rewrite Hf. reflexivity. }
  rewrite Sp, Cp. unfold screen_of, commits_of. cbn. unfold screen_items. rewrite G.
  destruct (AutoplaceFields_enable schFrame);
    match goal with
    | |- context [item_symbol ?s] => exists row, s
    end; repeat split; assumption.
Qed.

Lemma executePlaceComponent_false (p p' : AI_COMMAND_PROCESSOR) (aLibId : LIB_ID)
    (aPosition : VECTOR2I) :
  executePlaceComponent p aLibId aPosition = (false, p') -> p' = p.
Proof.
  unfold executePlaceComponent. repeat break_match; intros H; congruence.
Qed.

Lemma place_and_report_success (p p' : AI_COMMAND_PROCESSOR) (r : AI_COMMAND_RESULT)
    (componentName : string) (libId : LIB_ID) (position : VECTOR2I) :
  place_and_report p componentName libId position = (r, p') ->
  success r = true ->
  executePlaceComponent p libId position = (true, p') /\
  message r = "Added component '" ++ componentName ++ "' at (" ++ format_d (vx position)
                ++ ", " ++ format_d (vy position) ++ ")".
Proof.
  unfold place_and_report.
  destruct (executePlaceComponent p libId position) as [[|] p1]; intros H Hs;
    injection H as <- <-; [split; reflexivity | discriminate].
Qed.

Lemma place_and_report_placed (p p' : AI_COMMAND_PROCESSOR) (r : AI_COMMAND_RESULT)
    (schFrame : SCH_EDIT_FRAME) (prj : PROJECT)
    (componentName : string) (libId : LIB_ID) (position : VECTOR2I) :
  m_frame p = Some (mkFRAME (is_SCH_EDIT_FRAME schFrame) prj) ->
  place_and_report p componentName libId position = (r, p') ->
  success r = true ->
  message r = "Added component '" ++ componentName ++ "' at (" ++ format_d (vx position)
                ++ ", " ++ format_d (vy position) ++ ")" /\
  exists adapter row s,
    SymbolLibAdapter prj = Some adapter /\
    In (Some row) (Rows adapter) /\
    CmpNoCase (Nickname row) (GetLibNickname libId) = Eq /\
    GetLibId s = mkLIB_ID (Nickname row) (GetLibItemName libId) /\
    sym_Position s = position /\
    screen_of p' = (screen_of p ++ [item_symbol s])%list /\
    commits_of p' = (commits_of p ++ ["Place Symbol"])%list.
Proof.
  intros Hf H Hs. destruct (place_and_report_success _ _ _ _ _ _ H Hs) as [He Hm].
  split; [exact Hm|].
  destruct (SymbolLibAdapter prj) as [adapter|] eqn:Ha.
  - destruct (executePlaceComponent_true _ _ _ _ _ _ _ Hf Ha He) as [row [s Hrest]].
    exists adapter, row, s. split; [reflexivity | exact Hrest].
  - exfalso. revert He. unfold executePlaceComponent. rewrite Hf. cbn [frame_obj Prj].
    rewrite Ha. discriminate.
Qed.

(** Once a command has parsed to a name lib:sym whose library part matches a
    table row, placement is asked for the row's nickname, and a symbol
    placed carries a table nickname. *)
Lemma placement_nickname_parsed
    (p : AI_COMMAND_PROCESSOR) (schFrame : SCH_EDIT_FRAME) (prj : PROJECT)
    (adapter : SYMBOL_LIBRARY_ADAPTER) (aCommand componentName : string)
    (position : VECTOR2I) :
  m_frame p = Some (mkFRAME (is_SCH_EDIT_FRAME schFrame) prj) ->
  SymbolLibAdapter prj = Some adapter ->
  is_add_component aCommand = true ->
  parseAddComponent aCommand (mkVECTOR2I 0 0) = Some (componentName, position) ->
  Contains componentName ":" = true ->
  IsEmpty (BeforeFirst componentName ":") = false ->
  (exists row, In (Some row) (Rows_BOTH_all adapter) /\
               CmpNoCase (Nickname row) (BeforeFirst componentName ":") = Eq) ->
  exists row position',
    In (Some row) (Rows_BOTH_all adapter) /\
    CmpNoCase (Nickname row) (BeforeFirst componentName ":") = Eq /\
    processSchematicCommand p aCommand
    = place_and_report p componentName
        (mkLIB_ID (Nickname row) (AfterFirst componentName ":")) position' /\
    forall r p',
      processSchematicCommand p aCommand = (r, p') -> success r = true ->
      exists row' s,
        In (Some row') (Rows adapter) /\
        CmpNoCase (Nickname row') (BeforeFirst componentName ":") = Eq /\
        GetLibNickname (GetLibId s) = Nickname row' /\
        screen_of p' = (screen_of p ++ [item_symbol s])%list.
Proof.
  intros Hf Ha Hadd Hparse Hcolon Hne Hrow.
  destruct (find_actualLibName_found _ _ Hrow) as [row [Hin [Hc Hfind]]].
  assert (Hrun : processSchematicCommand p aCommand
                 = place_and_report p componentName
                     (mkLIB_ID (Nickname row) (AfterFirst componentName ":"))
                     (if negb (negb (vx position =? 0)%Z || negb (vy position =? 0)%Z)
                      then default_position else position)).
  { unfold processSchematicCommand. rewrite Hf. cbn [frame_obj Prj].
    unfold is_add_component in Hadd. rewrite Hadd, Hparse, Hcolon, Ha, Hfind.
    rewrite (CmpNoCase_nonempty _ _ Hc Hne). reflexivity. }
  exists row. eexists. split; [exact Hin|]. split; [exact Hc|]. split; [exact Hrun|].
  intros r p' Hr Hs. rewrite Hrun in Hr.
  destruct (place_and_report_placed _ _ _ _ _ _ _ _ Hf Hr Hs)
    as [_ [adapter' [row' [s [Ha' [Hin' [Hc' [Hid [_ [Hscr _]]]]]]]]]].
  rewrite Ha in Ha'. injection Ha' as <-.
  exists row', s. split; [exact Hin'|]. split.
  - cbn [GetLibNickname] in Hc'. exact (CmpNoCase_trans _ _ _ Hc' Hc).
  - split; [rewrite Hid; reflexivity | exact Hscr].
Qed.

(** The case-insensitive library scenario: the symbol placed for
    [add component device:r] carries the nickname [Device]. *)
Example case_insensitive_library :
  let '(r, p') := processDirectCommand sample_processor "add component device:r" in
  success r = true /\
  map (fun i => match i with
                | item_symbol s => GetLibNickname (GetLibId s)
                | item_wire _ _ _ => ""
                end) (screen_of p') = ["Device"].
Proof. vm_compute. split; reflexivity. Qed.

(** ** Joining the nicknames *)

Lemma escape_sep_free (sep esc : ascii) (s : string) :
  free_of sep s = true -> escape_sep sep esc s = s.
Proof.
  induction s as [|c s IH]; simpl; [reflexivity|].
  destruct (Ascii.eqb c sep); simpl; [discriminate|]. intros H. rewrite (IH H). reflexivity.
Qed.

Lemma free_of_app (c : ascii) (a b : string) :
  free_of c (a ++ b) = free_of c a && free_of c b.
Proof.
  induction a as [|x a IH]; simpl; [reflexivity|]. rewrite IH, andb_assoc. reflexivity.
Qed.

Lemma Mid_nonempty_suffix (s : string) (c : ascii) :
  forall n, Mid s n = String c "" -> free_of c s = false.
Proof.
  induction s as [|a s IH]; intros n H.
  - destruct n; discriminate.
  - destruct n as [|n]; simpl in H.
    + injection H as -> ->. simpl. rewrite Ascii.eqb_refl. reflexivity.
    + simpl. rewrite (IH n H). apply andb_false_r.
Qed.

Lemma free_of_last_char (c : ascii) (s : string) :
  free_of c s = true -> last_char_is s c = false.
Proof.
  intros H. unfold last_char_is, EndsWith.
  destruct (String.length (String c "") <=? String.length s)%nat; [|reflexivity].
  cbn [andb]. apply String.eqb_neq. intros E.
  rewrite (Mid_nonempty_suffix _ _ _ E) in H. discriminate.
Qed.

Lemma wxJoin_from_plain (arr : list string) :
  forall acc,
    free_of "\" acc = true ->
    Forall (fun n => plain_nickname n = true) arr ->
    wxJoin_from acc false arr "," "\" = String.concat "," (acc :: arr).
Proof.
  induction arr as [|a rest IH]; intros acc Hacc Hall; cbn [wxJoin_from].
  - reflexivity.
  - inversion Hall as [|? ? Ha Hrest]; subst.
    unfold plain_nickname in Ha. apply andb_true_iff in Ha as [Hc Hb].
    rewrite (free_of_last_char _ _ Hacc), (escape_sep_free _ _ _ Hc).
    rewrite IH; [|rewrite !free_of_app, Hacc, Hb; reflexivity | exact Hrest].
    destruct rest as [|b r]; cbn [String.concat].
    + rewrite append_assoc_s. reflexivity.
    + rewrite !append_assoc_s. reflexivity.
Qed.

(** For nicknames without commas and backslashes, [wxJoin] is the plain
    comma-separated list. *)
Lemma wxJoin_plain (arr : list string) :
  Forall (fun n => plain_nickname n = true) arr ->
  wxJoin arr "," = String.concat "," arr.
Proof.
  unfold wxJoin. destruct arr as [|a rest]; [reflexivity|]. intros Hall.
  inversion Hall as [|? ? Ha Hrest]; subst.
  unfold plain_nickname in Ha. apply andb_true_iff in Ha as [Hc Hb].
  cbn [wxJoin_from]. rewrite (escape_sep_free _ _ _ Hc). cbn [String.append].
  apply wxJoin_from_plain; assumption.
Qed.

(** Once a command has parsed to a name lib:sym whose library part matches
    no table row, the handler fails with the list of nicknames and leaves the
    processor alone. *)
Lemma unknown_library_parsed
    (p : AI_COMMAND_PROCESSOR) (schFrame : SCH_EDIT_FRAME) (prj : PROJECT)
    (adapter : SYMBOL_LIBRARY_ADAPTER) (aCommand componentName : string)
    (position : VECTOR2I) :
  m_frame p = Some (mkFRAME (is_SCH_EDIT_FRAME schFrame) prj) ->
  SymbolLibAdapter prj = Some adapter ->
  is_add_component aCommand = true ->
  parseAddComponent aCommand (mkVECTOR2I 0 0) = Some (componentName, position) ->
  Contains componentName ":" = true ->
  (forall row, In (Some row) (Rows_BOTH_all adapter) ->
               CmpNoCase (Nickname row) (BeforeFirst componentName ":") <> Eq) ->
  let names := GetLibraryNames (Some adapter) in
  processSchematicCommand p aCommand
  = (mkRESULT false ""
       ("Library '" ++ BeforeFirst componentName ":" ++ "' not found. Available libraries: "
          ++ match names with
             | [] => "(none - check Preferences > Manage Symbol Libraries)"
             | _ => wxJoin names ","
             end), p) /\
  (Forall (fun n => plain_nickname n = true) names ->
   wxJoin names "," = String.concat "," names).
Proof.
  intros Hf Ha Hadd Hparse Hcolon Hnone names. split; [|apply wxJoin_plain].
  unfold processSchematicCommand. rewrite Hf. cbn [frame_obj Prj].
  unfold is_add_component in Hadd. rewrite Hadd, Hparse, Hcolon, Ha.
  rewrite (find_actualLibName_none _ _ Hnone). reflexivity.
Qed.

(* ================================================================== *)
(** * The add-component patterns on the commands of the grammar         *)
(* ================================================================== *)

Lemma length_append_s (a b : string) :
  String.length (a ++ b) = (String.length a + String.length b)%nat.
Proof. induction a as [|c a IH]; simpl; [reflexivity | rewrite IH; reflexivity]. Qed.

Lemma consumed_app (w r : string) : consumed (w ++ r) r = w.
Proof.
  unfold consumed. rewrite length_append_s, Nat.add_sub.
  induction w as [|c w IH]; simpl.
  - destruct r; reflexivity.
  - rewrite IH. reflexivity.
Qed.

(** Greedy repetition takes a whole run when the rest of the pattern then
    succeeds. *)
Lemma rep_greedy (k : cclass) (w : string) :
  forall r caps kont x,
    all_in k w = true -> stops k r = true -> kont r caps = Some x ->
    rep k (w ++ r) caps kont = Some x.
Proof.
  induction w as [|c w IH]; intros r caps kont x Hw Hr Hk; simpl.
  - destruct r as [|a r]; simpl; [exact Hk|]. simpl in Hr.
    destruct (in_class k a); [discriminate | exact Hk].
  - simpl in Hw. apply andb_true_iff in Hw as [Hc Hw]. rewrite Hc.
    rewrite (IH r caps kont x Hw Hr Hk). reflexivity.
Qed.

(** A captured identifier, then the rest of the pattern. *)
Lemma exec_ident (n : nat) (k : cclass) (R : regex) (w r : string)
    (caps : captures) (kont : cont) (x : captures) :
  is_ident k w = true -> stops k r = true ->
  exec true R r ((n, w) :: caps) kont = Some x ->
  exec true (re_seq (re_group n (re_plus k)) R) (w ++ r) caps kont = Some x.
Proof.
  unfold is_ident. intros Hw Hr Hk. destruct w as [|c w]; [discriminate|].
  simpl in Hw. apply andb_true_iff in Hw as [Hc Hw].
  cbn [exec String.append]. rewrite Hc.
  apply rep_greedy; auto.
  change (String c (w ++ r)) with (String c w ++ r). rewrite consumed_app. exact Hk.
Qed.

Lemma exec_one_space (R : regex) (s : string) (caps : captures) (kont : cont) :
  stops cls_space s = true ->
  exec true (re_seq sp_plus R) (" " ++ s) caps kont = exec true R s caps kont.
Proof.
  intros H. cbn [exec sp_plus String.append in_class].
  change (wxIsspace " ") with true. cbv iota.
  destruct s as [|c s]; cbn [rep]; [reflexivity|].
  simpl in H. cbn [in_class]. destruct (wxIsspace c); [discriminate | reflexivity].
Qed.

Lemma word_dash_not_space (c : ascii) :
  in_class cls_word_dash c = true -> in_class cls_space c = false.
Proof. destruct c as [[] [] [] [] [] [] [] []]; vm_compute; congruence. Qed.

Lemma word_is_word_dash (c : ascii) :
  in_class cls_word c = true -> in_class cls_word_dash c = true.
Proof. cbn [in_class]. intros ->. reflexivity. Qed.

Lemma word_not_colon (c : ascii) :
  in_class cls_word c = true -> Ascii.eqb c ":" = false.
Proof. destruct c as [[] [] [] [] [] [] [] []]; vm_compute; congruence. Qed.

Lemma ident_stops_space (k : cclass) (w r : string) :
  (forall c, in_class k c = true -> in_class cls_space c = false) ->
  is_ident k w = true -> stops cls_space (w ++ r) = true.
Proof.
  intros Hk Hw. destruct w as [|c w]; [discriminate|].
  unfold is_ident in Hw. simpl in Hw. apply andb_true_iff in Hw as [Hc _].
  cbn [stops String.append]. rewrite (Hk c Hc). reflexivity.
Qed.

(** The start of both patterns, up to the name. *)
Lemma exec_add_component (R : regex) (s : string) (caps : captures) (kont : cont) :
  stops cls_space s = true ->
  exec true (seqs [lit "add"; sp_plus; lit "component"; sp_plus; R])
       ("add component " ++ s) caps kont
  = exec true R s caps kont.
Proof.
  intros H. cbn [seqs].
  change ("add component " ++ s) with ("add" ++ " " ++ "component" ++ " " ++ s).
  change (exec true (re_seq (lit "add") ?X) ("add" ++ ?t) caps kont)
    with (exec true X t caps kont).
  rewrite exec_one_space by reflexivity.
  change (exec true (re_seq (lit "component") ?X) ("component" ++ ?t) caps kont)
    with (exec true X t caps kont).
  rewrite exec_one_space by exact H. reflexivity.
Qed.

Lemma Matches_at_start (r : regex) (s : string) (x : captures) :
  exec true r s [] (fun _ caps => Some caps) = Some x -> Matches true r s = Some x.
Proof. intros E. destruct s; cbn [Matches]; rewrite E; reflexivity. Qed.

(** [add component lib:sym], with a tail the optional part accepts. *)
Lemma Matches_lib_sym (lib sym tail : string) (x : captures) :
  is_ident cls_word_dash lib = true -> is_ident cls_word_dash sym = true ->
  stops cls_word_dash tail = true ->
  exec true (re_at 3 4) tail [(2, sym); (1, lib)] (fun _ caps => Some caps) = Some x ->
  Matches true re_add_component_lib ("add component " ++ lib ++ ":" ++ sym ++ tail) = Some x.
Proof.
  intros Hl Hs Ht Hx. apply Matches_at_start.
  change re_add_component_lib
    with (seqs [lit "add"; sp_plus; lit "component"; sp_plus;
                seqs [re_group 1 (re_plus cls_word_dash); re_chr ":";
                      re_group 2 (re_plus cls_word_dash); re_at 3 4]]).
  rewrite exec_add_component
    by (apply (ident_stops_space cls_word_dash); [exact word_dash_not_space | exact Hl]).
  cbn [seqs]. apply exec_ident; [exact Hl | reflexivity |].
  change (exec true (re_seq (re_chr ":") ?X) (":" ++ ?t) ?c ?k) with (exec true X t c k).
  apply exec_ident; [exact Hs | exact Ht | exact Hx].
Qed.

(** [add component sym], with a tail the optional part accepts. *)
Lemma Matches_bare_sym (sym tail : string) (x : captures) :
  is_ident cls_word sym = true -> stops cls_word tail = true ->
  exec true (re_at 2 3) tail [(1, sym)] (fun _ caps => Some caps) = Some x ->
  Matches true re_add_component_bare ("add component " ++ sym ++ tail) = Some x.
Proof.
  intros Hs Ht Hx. apply Matches_at_start.
  change re_add_component_bare
    with (seqs [lit "add"; sp_plus; lit "component"; sp_plus;
                seqs [re_group 1 (re_plus cls_word); re_at 2 3]]).
  rewrite exec_add_component.
  - cbn [seqs]. apply exec_ident; [exact Hs | exact Ht | exact Hx].
  - apply (ident_stops_space cls_word); [|exact Hs].
    intros c Hc. apply word_dash_not_space, word_is_word_dash, Hc.
Qed.

(** ** Text without a colon *)

Lemma free_of_tail (c a : ascii) (s : string) :
  free_of c (String a s) = true -> Ascii.eqb a c = false /\ free_of c s = true.
Proof.
  simpl. intros H. apply andb_true_iff in H as [H1 H2].
  split; [destruct (Ascii.eqb a c); [discriminate | reflexivity] | exact H2].
Qed.

Lemma rep_none (k : cclass) (s : string) :
  forall caps kont,
    free_of ":" s = true ->
    (forall t c, free_of ":" t = true -> kont t c = None) ->
    rep k s caps kont = None.
Proof.
  induction s as [|a s IH]; intros caps kont Hs Hk; cbn [rep].
  - apply Hk, Hs.
  - destruct (free_of_tail _ _ _ Hs) as [_ Hs'].
    destruct (in_class k a); [rewrite (IH caps kont Hs' Hk)|]; apply Hk, Hs.
Qed.

(** On text without a colon a pattern can only hand text without a colon to
    what follows it. *)
Lemma exec_none (r : regex) :
  forall s caps kont,
    free_of ":" s = true ->
    (forall t c, free_of ":" t = true -> kont t c = None) ->
    exec true r s caps kont = None.
Proof.
  induction r as [|ch|k|r1 IH1 r2 IH2|r1 IH1 r2 IH2|k|k|r1 IH1|n r1 IH1];
    intros s caps kont Hs Hk; cbn [exec].
  - apply Hk, Hs.
  - destruct s as [|a s]; [reflexivity|]. destruct (free_of_tail _ _ _ Hs) as [_ Hs'].
    destruct (Ascii.eqb (wxTolower a) (wxTolower ch)); [apply Hk, Hs' | reflexivity].
  - destruct s as [|a s]; [reflexivity|]. destruct (free_of_tail _ _ _ Hs) as [_ Hs'].
    destruct (in_class k a); [apply Hk, Hs' | reflexivity].
  - apply IH1; [exact Hs|]. intros t c Ht. apply IH2; assumption.
  - rewrite (IH1 s caps kont Hs Hk). apply IH2; assumption.
  - apply rep_none; assumption.
  - destruct s as [|a s]; [reflexivity|]. destruct (free_of_tail _ _ _ Hs) as [_ Hs'].
    destruct (in_class k a); [apply rep_none; assumption | reflexivity].
  - rewrite (IH1 s caps kont Hs Hk). apply Hk, Hs.
  - apply IH1; [exact Hs|]. intros t c Ht. apply Hk, Ht.
Qed.

Lemma tolower_colon (a : ascii) :
  Ascii.eqb a ":" = false -> Ascii.eqb (wxTolower a) (wxTolower ":") = false.
Proof. destruct a as [[] [] [] [] [] [] [] []]; vm_compute; congruence. Qed.

(** The lib:sym pattern needs a colon: it matches nowhere in text without
    one. *)
Lemma Matches_lib_none (s : string) :
  free_of ":" s = true -> Matches true re_add_component_lib s = None.
Proof.
  assert (Q : forall X K t caps kont,
             free_of ":" t = true ->
             (forall u c, free_of ":" u = true -> exec true K u c kont = None) ->
             exec true (re_seq X K) t caps kont = None).
  { intros X K t caps kont Ht HK. cbn [exec]. apply exec_none; assumption. }
  assert (E : forall t caps kont,
             free_of ":" t = true -> exec true re_add_component_lib t caps kont = None).
  { intros t caps kont Ht. unfold re_add_component_lib. cbn [seqs].
    do 5 (apply Q; [assumption | clear t caps Ht; intros t caps Ht]).
    destruct t as [|a u]; [reflexivity|]. cbn [exec].
    destruct (free_of_tail _ _ _ Ht) as [Ha _]. rewrite (tolower_colon a Ha). reflexivity. }
  induction s as [|a s IH]; intros Hs; cbn [Matches];
    rewrite (E _ [] (fun _ caps => Some caps) Hs); [reflexivity|].
  destruct (free_of_tail _ _ _ Hs) as [_ Hs']. exact (IH Hs').
Qed.

Lemma all_word_free_of_colon (s : string) : all_in cls_word s = true -> free_of ":" s = true.
Proof.
  induction s as [|c s IH]; simpl; [reflexivity|]. intros H.
  apply andb_true_iff in H as [Hc Hs].
  change (is_word c) with (in_class cls_word c) in Hc.
  rewrite (word_not_colon c Hc), (IH Hs). reflexivity.
Qed.

(** ** Groups a pattern leaves alone *)

Lemma rep_keeps (Q : nat -> Prop) (k : cclass) (s : string) :
  forall caps kont x,
    rep k s caps kont = Some x ->
    (forall t c y, kont t c = Some y -> forall n, Q n -> GetMatch y n = GetMatch c n) ->
    forall n, Q n -> GetMatch x n = GetMatch caps n.
Proof.
  induction s as [|a s IH]; intros caps kont x H Hk; cbn [rep] in H.
  - exact (Hk _ _ _ H).
  - destruct (in_class k a); [|exact (Hk _ _ _ H)].
    destruct (rep k s caps kont) as [y|] eqn:E.
    + injection H as <-. exact (IH _ _ _ E Hk).
    + exact (Hk _ _ _ H).
Qed.

(** A match changes only the groups of its pattern. *)
Lemma exec_keeps (Q : nat -> Prop) (r : regex) :
  (forall n, Q n -> ~ In n (groups r)) ->
  forall s caps kont x,
    exec true r s caps kont = Some x ->
    (forall t c y, kont t c = Some y -> forall n, Q n -> GetMatch y n = GetMatch c n) ->
    forall n, Q n -> GetMatch x n = GetMatch caps n.
Proof.
  induction r as [|ch|k|r1 IH1 r2 IH2|r1 IH1 r2 IH2|k|k|r1 IH1|m r1 IH1];
    intros HQ s caps kont x H Hk; cbn [exec] in H.
  - exact (Hk _ _ _ H).
  - destruct s as [|a s]; [discriminate|].
    destruct (Ascii.eqb (wxTolower a) (wxTolower ch)); [exact (Hk _ _ _ H) | discriminate].
  - destruct s as [|a s]; [discriminate|].
    destruct (in_class k a); [exact (Hk _ _ _ H) | discriminate].
  - cbn [groups] in HQ.
    refine (IH1 _ _ _ _ _ H _).
    + intros n Hn Hin. apply (HQ n Hn), in_or_app. left. exact Hin.
    + intros t c y Hy. refine (IH2 _ _ _ _ _ Hy Hk).
      intros n Hn Hin. apply (HQ n Hn), in_or_app. right. exact Hin.
  - cbn [groups] in HQ.
    destruct (exec true r1 s caps kont) as [y|] eqn:E.
    + injection H as <-. refine (IH1 _ _ _ _ _ E Hk).
      intros n Hn Hin. apply (HQ n Hn), in_or_app. left. exact Hin.
    + refine (IH2 _ _ _ _ _ H Hk).
      intros n Hn Hin. apply (HQ n Hn), in_or_app. right. exact Hin.
  - exact (rep_keeps Q k s caps kont x H Hk).
  - destruct s as [|a s]; [discriminate|].
    destruct (in_class k a); [exact (rep_keeps Q k s caps kont x H Hk) | discriminate].
  - cbn [groups] in HQ.
    destruct (exec true r1 s caps kont) as [y|] eqn:E.
    + injection H as <-. exact (IH1 HQ _ _ _ _ E Hk).
    + exact (Hk _ _ _ H).
  - cbn [groups] in HQ.
    refine (IH1 _ _ _ _ _ H _).
    + intros n Hn Hin. apply (HQ n Hn). right. exact Hin.
    + intros t c y Hy n Hn. rewrite (Hk _ _ _ Hy n Hn). cbn [GetMatch].
      destruct (Nat.eqb m n) eqn:E; [|reflexivity].
      apply Nat.eqb_eq in E. subst m. exfalso. apply (HQ n Hn). left. reflexivity.
Qed.

(** The optional part always lets the match end, and leaves the groups of
    the name alone. *)
Lemma exec_re_at (gx gy : nat) (tail : string) (caps : captures) :
  exists x,
    exec true (re_at gx gy) tail caps (fun _ c => Some c) = Some x /\
    forall n, n <> gx -> n <> gy -> GetMatch x n = GetMatch caps n.
Proof.
  assert (T : exists x, exec true (re_at gx gy) tail caps (fun _ c => Some c) = Some x).
  { unfold re_at. cbn [exec].
    match goal with |- context [match ?e with Some _ => _ | None => _ end] => destruct e end;
      eauto. }
  destruct T as [x Hx]. exists x. split; [exact Hx|].
  intros n Hgx Hgy.
  refine (exec_keeps (fun n => n <> gx /\ n <> gy) (re_at gx gy) _ _ _ _ _ Hx _ n (conj Hgx Hgy)).
  - intros m [H1 H2] Hin. cbn in Hin. destruct Hin as [E | [E | []]]; congruence.
  - intros t c y Hy m _. injection Hy as <-. reflexivity.
Qed.

(** ** What the parser reads *)

(** With [at 0,0] and without a coordinate, a lib:sym command parses to its
    name and leaves the position at 0,0. *)
Lemma parse_lib_sym (lib sym tail : string) :
  is_ident cls_word_dash lib = true -> is_ident cls_word_dash sym = true ->
  tail = " at 0,0" \/ tail = "" ->
  parseAddComponent ("add component " ++ lib ++ ":" ++ sym ++ tail) (mkVECTOR2I 0 0)
  = Some (lib ++ ":" ++ sym, mkVECTOR2I 0 0).
Proof.
  intros Hl Hs [-> | ->]; unfold parseAddComponent.
  - rewrite (Matches_lib_sym lib sym " at 0,0" [(4, "0"); (3, "0"); (2, sym); (1, lib)]);
      auto.
  - rewrite (Matches_lib_sym lib sym "" [(2, sym); (1, lib)]); auto.
Qed.

(** The same for a bare symbol name. *)
Lemma parse_bare_sym (sym tail : string) :
  is_ident cls_word sym = true ->
  tail = " at 0,0" \/ tail = "" ->
  parseAddComponent ("add component " ++ sym ++ tail) (mkVECTOR2I 0 0)
  = Some (sym, mkVECTOR2I 0 0).
Proof.
  intros Hs Ht. unfold parseAddComponent.
  assert (Hfree : free_of ":" ("add component " ++ sym ++ tail) = true).
  { unfold is_ident in Hs. apply andb_true_iff in Hs as [_ Hs].
    cbn [String.append free_of]. rewrite free_of_app, (all_word_free_of_colon sym Hs).
    destruct Ht as [-> | ->]; reflexivity. }
  rewrite (Matches_lib_none _ Hfree).
  destruct Ht as [-> | ->].
  - rewrite (Matches_bare_sym sym " at 0,0" [(3, "0"); (2, "0"); (1, sym)]); auto.
  - rewrite (Matches_bare_sym sym "" [(1, sym)]); auto.
Qed.

(** Whatever follows the name, a lib:sym command parses to its name. *)
Lemma parse_lib_sym_any (lib sym tail : string) :
  is_ident cls_word_dash lib = true -> is_ident cls_word_dash sym = true ->
  stops cls_word_dash tail = true ->
  exists position,
    parseAddComponent ("add component " ++ lib ++ ":" ++ sym ++ tail) (mkVECTOR2I 0 0)
    = Some (lib ++ ":" ++ sym, position).
Proof.
  intros Hl Hs Ht.
  destruct (exec_re_at 3 4 tail [(2, sym); (1, lib)]) as [x [Hx Hkeep]].
  unfold parseAddComponent. rewrite (Matches_lib_sym lib sym tail x Hl Hs Ht Hx).
  rewrite (Hkeep 1), (Hkeep 2) by discriminate. cbn [GetMatch Nat.eqb].
  eexists. reflexivity.
Qed.

Lemma ident_free_of_colon (lib : string) :
  is_ident cls_word_dash lib = true -> free_of ":" lib = true.
Proof.
  unfold is_ident. intros H. apply andb_true_iff in H as [_ H].
  induction lib as [|c lib IH]; [reflexivity|]. simpl in H.
  apply andb_true_iff in H as [Hc Hr]. cbn [free_of]. rewrite (IH Hr), andb_true_r.
  revert Hc. clear. destruct c as [[] [] [] [] [] [] [] []]; vm_compute; congruence.
Qed.

Lemma prefix_empty (s : string) : String.prefix "" s = true.
Proof. destruct s; reflexivity. Qed.

Lemma Contains_colon (lib sym : string) : Contains (lib ++ ":" ++ sym) ":" = true.
Proof.
  assert (H : exists n, find_str (lib ++ ":" ++ sym) ":" = Some n).
  { change (":" ++ sym) with (String ":" sym).
    induction lib as [|c lib IH]; cbn [String.append find_str String.prefix].
    - destruct (ascii_dec ":" ":") as [_|N]; [|congruence].
      rewrite prefix_empty. eauto.
    - destruct (ascii_dec ":" c) as [_|_].
      + rewrite prefix_empty. eauto.
      + destruct IH as [n ->]. cbn [option_map]. eauto. }
  destruct H as [n H]. unfold Contains, Find. rewrite H. apply found_not_wxNOT_FOUND.
Qed.

(** The name lib:sym splits at its colon into lib and sym. *)
Lemma split_lib_sym (lib sym : string) :
  free_of ":" lib = true ->
  BeforeFirst (lib ++ ":" ++ sym) ":" = lib /\
  AfterFirst (lib ++ ":" ++ sym) ":" = sym.
Proof.
  intros H. change (":" ++ sym) with (String ":" sym).
  induction lib as [|c lib IH].
  - split; reflexivity.
  - destruct (free_of_tail _ _ _ H) as [Hc Hr]. destruct (IH Hr) as [I1 I2].
    cbn [String.append BeforeFirst AfterFirst]. rewrite Hc, I1, I2. split; reflexivity.
Qed.

Lemma is_add_component_text (s : string) :
  is_add_component ("add component " ++ s) = true.
Proof. reflexivity. Qed.

(* ================================================================== *)
(** * Library resolution on the commands of the grammar                 *)
(* ================================================================== *)

(** C6.  In the schematic editor, for every command [add component lib:sym]
    (with anything after it that does not continue the symbol name) whose
    library part matches some row of the library table without regard to
    case, the LibraryId handed to placement carries the nickname of such a
    row exactly as the table has it, and the symbol a successful placement
    adds carries the nickname of a table row that matches the requested one
    without regard to case: the casing of the request never reaches the
    LibraryId. *)
Theorem placement_nickname_from_table
    (p : AI_COMMAND_PROCESSOR) (schFrame : SCH_EDIT_FRAME) (prj : PROJECT)
    (adapter : SYMBOL_LIBRARY_ADAPTER) (lib sym tail : string) :
  m_frame p = Some (mkFRAME (is_SCH_EDIT_FRAME schFrame) prj) ->
  SymbolLibAdapter prj = Some adapter ->
  is_ident cls_word_dash lib = true ->
  is_ident cls_word_dash sym = true ->
  stops cls_word_dash tail = true ->
  (exists row, In (Some row) (Rows_BOTH_all adapter) /\ CmpNoCase (Nickname row) lib = Eq) ->
  exists row position,
    In (Some row) (Rows_BOTH_all adapter) /\
    CmpNoCase (Nickname row) lib = Eq /\
    processSchematicCommand p ("add component " ++ lib ++ ":" ++ sym ++ tail)
    = place_and_report p (lib ++ ":" ++ sym) (mkLIB_ID (Nickname row) sym) position /\
    forall r p',
      processSchematicCommand p ("add component " ++ lib ++ ":" ++ sym ++ tail) = (r, p') ->
      success r = true ->
      exists row' s,
        In (Some row') (Rows adapter) /\
        CmpNoCase (Nickname row') lib = Eq /\
        GetLibNickname (GetLibId s) = Nickname row' /\
        screen_of p' = (screen_of p ++ [item_symbol s])%list.
Proof.
  intros Hf Ha Hl Hs Ht Hrow.
  destruct (parse_lib_sym_any lib sym tail Hl Hs Ht) as [position Hparse].
  destruct (split_lib_sym lib sym (ident_free_of_colon lib Hl)) as [Hb Haf].
  assert (Hne : IsEmpty lib = false).
  { destruct lib; [discriminate Hl | reflexivity]. }
  pose proof (placement_nickname_parsed p schFrame prj adapter
                ("add component " ++ lib ++ ":" ++ sym ++ tail) (lib ++ ":" ++ sym)
                position Hf Ha (is_add_component_text _) Hparse (Contains_colon lib sym)) as H.
  rewrite Hb, Haf in H. exact (H Hne Hrow).
Qed.

Lemma placement_nickname_from_table_witness :
  exists row position,
    In (Some row) (Rows_BOTH_all sample_adapter) /\
    CmpNoCase (Nickname row) "device" = Eq /\
    processSchematicCommand sample_processor "add component device:r at 100,200"
    = place_and_report sample_processor "device:r" (mkLIB_ID (Nickname row) "r") position /\
    forall r p',
      processSchematicCommand sample_processor "add component device:r at 100,200" = (r, p') ->
      success r = true ->
      exists row' s,
        In (Some row') (Rows sample_adapter) /\
        CmpNoCase (Nickname row') "device" = Eq /\
        GetLibNickname (GetLibId s) = Nickname row' /\
        screen_of p' = (screen_of sample_processor ++ [item_symbol s])%list.
Proof.
  apply (placement_nickname_from_table sample_processor (sample_sch [])
           (sample_project (Some sample_adapter)) sample_adapter
           "device" "r" " at 100,200"); try reflexivity.
  exists (mkROW "Device"). split; [left; reflexivity | reflexivity].
Defined.

(** C7, as stated, fails: with no library configured the message does not
    end in a comma-joined list of nicknames (here the empty list) but in a
    hint to the preferences. *)
Lemma unknown_library_no_libraries :
  let '(r, p') :=
    processSchematicCommand sample_processor_no_libraries "add component Foo:Bar" in
  GetLibraryNames (Some (mkADAPTER [] [] (fun _ _ => None) (fun _ => []))) = [] /\
  error r = "Library 'Foo' not found. Available libraries: (none - check Preferences > Manage Symbol Libraries)" /\
  error r <> "Library 'Foo' not found. Available libraries: " ++ String.concat "," [].
Proof. vm_compute. repeat split. discriminate. Qed.

(** C7, amended.  In the schematic editor, for every command [add component
    lib:sym] (with anything after it that does not continue the symbol
    name) whose library part matches no row of the library table, the
    command fails with the error "Library '<lib>' not found. Available
    libraries: <list>", where the list is [wxJoin]'s comma join of the
    non-empty nicknames (the plain comma-separated list when no nickname
    holds a comma or a backslash), or the text "(none - check Preferences >
    Manage Symbol Libraries)" when there is no non-empty nickname; the
    processor and its host are left as they were: nothing is placed or
    committed. *)
Theorem unknown_library_reported
    (p : AI_COMMAND_PROCESSOR) (schFrame : SCH_EDIT_FRAME) (prj : PROJECT)
    (adapter : SYMBOL_LIBRARY_ADAPTER) (lib sym tail : string) :
  m_frame p = Some (mkFRAME (is_SCH_EDIT_FRAME schFrame) prj) ->
  SymbolLibAdapter prj = Some adapter ->
  is_ident cls_word_dash lib = true ->
  is_ident cls_word_dash sym = true ->
  stops cls_word_dash tail = true ->
  (forall row, In (Some row) (Rows_BOTH_all adapter) -> CmpNoCase (Nickname row) lib <> Eq) ->
  let names := GetLibraryNames (Some adapter) in
  processSchematicCommand p ("add component " ++ lib ++ ":" ++ sym ++ tail)
  = (mkRESULT false ""
       ("Library '" ++ lib ++ "' not found. Available libraries: "
          ++ match names with
             | [] => "(none - check Preferences > Manage Symbol Libraries)"
             | _ => wxJoin names ","
             end), p) /\
  (Forall (fun n => plain_nickname n = true) names ->
   wxJoin names "," = String.concat "," names).
Proof.
  intros Hf Ha Hl Hs Ht Hnone.
  destruct (parse_lib_sym_any lib sym tail Hl Hs Ht) as [position Hparse].
  destruct (split_lib_sym lib sym (ident_free_of_colon lib Hl)) as [Hb _].
  pose proof (unknown_library_parsed p schFrame prj adapter
                ("add component " ++ lib ++ ":" ++ sym ++ tail) (lib ++ ":" ++ sym)
                position Hf Ha (is_add_component_text _) Hparse (Contains_colon lib sym)) as H.
  rewrite Hb in H. exact (H Hnone).
Qed.

Lemma unknown_library_reported_witness :
  processSchematicCommand sample_processor "add component Foo:Bar"
  = (mkRESULT false "" "Library 'Foo' not found. Available libraries: Device,Connector",
     sample_processor).
Proof.
  refine (proj1 (unknown_library_reported sample_processor (sample_sch [])
                   (sample_project (Some sample_adapter)) sample_adapter
                   "Foo" "Bar" "" _ _ _ _ _ _));
    try reflexivity.
  intros row [E | [E | []]]; injection E as <-; discriminate.
Defined.

(* ================================================================== *)
(** * What a command does to the host                                   *)
(* ================================================================== *)

Lemma executeDrawWire_true (p p' : AI_COMMAND_PROCESSOR) (aStart aEnd : VECTOR2I) :
  executeDrawWire p aStart aEnd = (true, p') ->
  screen_of p' = (screen_of p ++ [item_wire aStart aEnd true])%list /\
  commits_of p' = (commits_of p ++ ["Draw Wire"])%list.
Proof.
  unfold executeDrawWire, screen_of, commits_of.
  destruct (m_frame p) as [fr|]; [|discriminate].
  destruct fr as [[schFrame|b| |t] prj]; cbn; try discriminate.
  destruct (GetScreen schFrame) as [items|] eqn:G; [|discriminate].
  intros H. injection H as <-. cbn. unfold screen_items. rewrite G. split; reflexivity.
Qed.

Lemma executeDrawWire_false (p p' : AI_COMMAND_PROCESSOR) (aStart aEnd : VECTOR2I) :
  executeDrawWire p aStart aEnd = (false, p') -> p' = p.
Proof. unfold executeDrawWire. repeat break_match; intros H; congruence. Qed.

Lemma executeConnectComponents_false (p p' : AI_COMMAND_PROCESSOR)
    (aRef1 aPin1 aRef2 aPin2 : string) :
  executeConnectComponents p aRef1 aPin1 aRef2 aPin2 = (false, p') -> p' = p.
Proof.
  unfold executeConnectComponents.
  repeat break_match; intros H; try congruence; eapply executeDrawWire_false; eassumption.
Qed.

Lemma place_and_report_failure (p p' : AI_COMMAND_PROCESSOR) (r : AI_COMMAND_RESULT)
    (componentName : string) (libId : LIB_ID) (position : VECTOR2I) :
  place_and_report p componentName libId position = (r, p') ->
  success r = false -> p' = p.
Proof.
  unfold place_and_report.
  destruct (executePlaceComponent p libId position) as [[|] p1] eqn:E; intros H Hs;
    injection H as <- <-; [discriminate|].
  exact (executePlaceComponent_false _ _ _ _ E).
Qed.

(** A schematic command that fails leaves the processor as it was. *)
Lemma processSchematicCommand_failure (p p' : AI_COMMAND_PROCESSOR)
    (r : AI_COMMAND_RESULT) (aCommand : string) :
  processSchematicCommand p aCommand = (r, p') -> success r = false -> p' = p.
Proof.
  unfold processSchematicCommand.
  repeat (break_match; try (intros H Hs; injection H as <- <-; first [reflexivity | discriminate]));
    try (apply place_and_report_failure).
  all: intros H Hs; injection H as <- <-.
  all: try discriminate.
  all: eapply executeConnectComponents_false; eassumption.
Qed.

Lemma place_and_report_shape (p : AI_COMMAND_PROCESSOR) (componentName : string)
    (libId : LIB_ID) (position : VECTOR2I) :
  result_shape (fst (place_and_report p componentName libId position)).
Proof.
  unfold place_and_report, result_shape.
  destruct (executePlaceComponent p libId position) as [[|] p1]; cbn;
    [left | right]; repeat split; discriminate.
Qed.

Lemma processSchematicCommand_shape (p : AI_COMMAND_PROCESSOR) (aCommand : string) :
  result_shape (fst (processSchematicCommand p aCommand)).
Proof.
  unfold processSchematicCommand.
  repeat (break_match; try apply place_and_report_shape).
  all: unfold result_shape, not_recognized; cbn.
  all: first [ left; split; [reflexivity | reflexivity]
             | right; repeat split; discriminate ].
Qed.

Lemma processBoardCommand_shape (p : AI_COMMAND_PROCESSOR) (aCommand : string) :
  result_shape (processBoardCommand p aCommand).
Proof.
  unfold processBoardCommand.
  repeat break_match.
  all: unfold result_shape, not_recognized; cbn.
  all: first [ left; split; [reflexivity | reflexivity]
             | right; repeat split; discriminate ].
Qed.

Lemma processGenericCommand_shape (p : AI_COMMAND_PROCESSOR) (aCommand : string) :
  result_shape (processGenericCommand p aCommand).
Proof.
  unfold processGenericCommand.
  repeat break_match.
  all: unfold result_shape; cbn.
  all: first [ left; split; [reflexivity | reflexivity]
             | right; repeat split; discriminate ].
Qed.

(** X1. Whatever the editor and whatever the text, the result of
    [processDirectCommand] and of [ProcessCommandsFromResponse] has one of
    two shapes: success with an empty error, or failure with an empty
    message and an error text that is not empty. *)
Theorem results_are_success_or_error (p : AI_COMMAND_PROCESSOR) (text : string) :
  result_shape (fst (processDirectCommand p text)) /\
  result_shape (fst (ProcessCommandsFromResponse p text)).
Proof.
  split.
  - unfold processDirectCommand.
    repeat break_match.
    + apply processSchematicCommand_shape.
    + apply processBoardCommand_shape.
    + apply processGenericCommand_shape.
  - unfold ProcessCommandsFromResponse.
    destruct (m_frame p); [|right; repeat split; discriminate].
    destruct (run_pass in_pass1 (mine text) tally0 p) as [t1 p1].
    destruct (run_pass in_pass2 (mine text) t1 (mark_modified t1 p1)) as [t2 p2].
    destruct ((0 <? commandCount t2)%Z || (0 <? failedCount t2)%Z); cbn;
      [left; split; reflexivity | right; repeat split; discriminate].
Qed.

(** X2. A command that [processDirectCommand] reports as failed has changed
    nothing in the host: the frame, its screen, its commits and its flags
    are those of before. *)
Theorem failed_command_changes_nothing (p : AI_COMMAND_PROCESSOR) (aCommand : string) :
  success (fst (processDirectCommand p aCommand)) = false ->
  m_frame (snd (processDirectCommand p aCommand)) = m_frame p.
Proof.
  unfold processDirectCommand.
  set (p0 := mkPROCESSOR _ _ _).
  destruct (String.eqb (GetContext p0) "schematic"); [|destruct (String.eqb _ _); reflexivity].
  destruct (processSchematicCommand p0 (Trim true (Lower aCommand))) as [r p'] eqn:E.
  cbn [fst snd]. intros Hs.
  rewrite (processSchematicCommand_failure _ _ _ _ E Hs). reflexivity.
Qed.

Lemma failed_command_changes_nothing_witness :
  success (fst (processDirectCommand sample_processor "add component Nowhere:R")) = false /\
  m_frame (snd (processDirectCommand sample_processor "add component Nowhere:R"))
  = m_frame sample_processor.
Proof.
  split; [reflexivity|].
  apply (failed_command_changes_nothing sample_processor "add component Nowhere:R").
  reflexivity.
Defined.

Lemma executePlaceComponent_edit (p p' : AI_COMMAND_PROCESSOR) (aLibId : LIB_ID)
    (aPosition : VECTOR2I) :
  executePlaceComponent p aLibId aPosition = (true, p') ->
  exists s,
    sym_Position s = aPosition /\
    screen_of p' = (screen_of p ++ [item_symbol s])%list /\
    commits_of p' = (commits_of p ++ ["Place Symbol"])%list.
Proof.
  intros H.
  destruct (m_frame p) as [[[schFrame|b| |t] prj]|] eqn:Hf;
    try (unfold executePlaceComponent in H; rewrite Hf in H; discriminate).
  destruct (SymbolLibAdapter prj) as [adapter|] eqn:Ha;
    [|unfold executePlaceComponent in H; rewrite Hf in H; cbn in H; rewrite Ha in H;
      discriminate].
  destruct (executePlaceComponent_true _ _ _ _ _ _ _ Hf Ha H)
    as [row [s [_ [_ [_ [Hp [Hs Hc]]]]]]].
  exists s. auto.
Qed.

(** One call of the schematic handler adds no item, or one item under its
    label. *)
Lemma processSchematicCommand_edits (p : AI_COMMAND_PROCESSOR) (aCommand : string) :
  exists items,
    edits_between p (snd (processSchematicCommand p aCommand)) items (map label_of items) /\
    (List.length items <= 1)%nat.
Proof.
  assert (Z : forall q, exists items,
             edits_between q q items (map label_of items) /\ (List.length items <= 1)%nat).
  { intros q. exists []. unfold edits_between. rewrite !app_nil_r. cbn. auto. }
  assert (P : forall n id pos, exists items,
             edits_between p (snd (place_and_report p n id pos)) items (map label_of items)
             /\ (List.length items <= 1)%nat).
  { intros n id pos. unfold place_and_report.
    destruct (executePlaceComponent p id pos) as [[|] p1] eqn:E; cbn [snd].
    - destruct (executePlaceComponent_edit _ _ _ _ E) as [s [_ [Hs Hc]]].
      exists [item_symbol s]. unfold edits_between. cbn. auto.
    - rewrite (executePlaceComponent_false _ _ _ _ E). apply Z. }
  assert (C : forall r1 p1 r2 p2, exists items,
             edits_between p (snd (executeConnectComponents p r1 p1 r2 p2)) items
               (map label_of items) /\ (List.length items <= 1)%nat).
  { intros r1 q1 r2 q2.
    destruct (executeConnectComponents p r1 q1 r2 q2) as [[|] p1] eqn:E; cbn [snd].
    - revert E. unfold executeConnectComponents.
      repeat break_match; intros E; try discriminate.
      destruct (executeDrawWire_true _ _ _ _ E) as [Hs Hc].
      eexists [item_wire _ _ true]. unfold edits_between. cbn. eauto.
    - rewrite (executeConnectComponents_false _ _ _ _ _ _ E). apply Z. }
  unfold processSchematicCommand.
  repeat (break_match; cbn [snd]; try apply Z; try apply P).
  all: match goal with
       | H : executeConnectComponents ?p0 ?a ?b ?c ?d = (_, ?q) |- _ =>
           specialize (C a b c d); rewrite H in C; exact C
       end.
Qed.

Lemma processDirectCommand_edits (p : AI_COMMAND_PROCESSOR) (aCommand : string) :
  exists items,
    edits_between p (snd (processDirectCommand p aCommand)) items (map label_of items) /\
    (List.length items <= 1)%nat.
Proof.
  unfold processDirectCommand.
  set (p0 := mkPROCESSOR _ _ _).
  assert (Z : exists items,
             edits_between p p0 items (map label_of items) /\ (List.length items <= 1)%nat).
  { exists []. unfold edits_between, screen_of, commits_of. cbn. rewrite !app_nil_r. auto. }
  destruct (String.eqb (GetContext p0) "schematic"); [|destruct (String.eqb _ _); exact Z].
  destruct (processSchematicCommand_edits p0 (Trim true (Lower aCommand)))
    as [items [[Hs [Hc Hl]] Hn]].
  exists items. split; [|exact Hn]. split; [|split]; assumption.
Qed.

Lemma edits_between_trans (p q r : AI_COMMAND_PROCESSOR) (i1 i2 : list SCH_ITEM) :
  edits_between p q i1 (map label_of i1) ->
  edits_between q r i2 (map label_of i2) ->
  edits_between p r (i1 ++ i2) (map label_of (i1 ++ i2)).
Proof.
  intros [S1 [C1 _]] [S2 [C2 _]]. unfold edits_between.
  rewrite length_map, S2, S1, C2, C1, map_app, !app_assoc. auto.
Qed.

Lemma run_pass_edits (in_pass : string -> bool) (allCommands : list string) :
  forall t p, exists items,
    edits_between p (snd (run_pass in_pass allCommands t p)) items (map label_of items) /\
    (List.length (journal p) + List.length items
     <= List.length (journal (snd (run_pass in_pass allCommands t p))))%nat.
Proof.
  induction allCommands as [|c rest IH]; intros t p; cbn [run_pass].
  - exists []. unfold edits_between. cbn. rewrite !app_nil_r. split; [auto|lia].
  - destruct (in_pass (Trim true (Trim false c))); [|apply IH].
    unfold run_command.
    pose proof (processDirectCommand_edits p (Trim true (Trim false c))) as [i1 [E1 N1]].
    pose proof (processDirectCommand_journal p (Trim true (Trim false c))) as J1.
    destruct (processDirectCommand p (Trim true (Trim false c))) as [r p1].
    cbn [snd] in E1, J1.
    assert (L : List.length (journal p1) = S (List.length (journal p))).
    { rewrite J1, length_app. cbn. lia. }
    destruct (success r).
    + match goal with |- context [run_pass in_pass rest ?t' p1] =>
        destruct (IH t' p1) as [i2 [E2 N2]] end.
      exists (i1 ++ i2)%list. split; [exact (edits_between_trans _ _ _ _ _ E1 E2)|].
      rewrite length_app. lia.
    + match goal with |- context [run_pass in_pass rest ?t' p1] =>
        destruct (IH t' p1) as [i2 [E2 N2]] end.
      exists (i1 ++ i2)%list. split; [exact (edits_between_trans _ _ _ _ _ E1 E2)|].
      rewrite length_app. lia.
Qed.

Lemma mark_modified_edits (t : tally) (p : AI_COMMAND_PROCESSOR) :
  screen_of (mark_modified t p) = screen_of p /\
  commits_of (mark_modified t p) = commits_of p.
Proof.
  unfold mark_modified, screen_of, commits_of.
  destruct (m_frame p) as [[[schFrame|b| |k] prj]|] eqn:Hf; cbn; rewrite ?Hf; auto.
  destruct (0 <? commandCount t)%Z; cbn; rewrite ?Hf; auto.
Qed.

(** X3. A run of [ProcessCommandsFromResponse] only appends to the
    schematic: the items that were on the screen stay, in their order; every
    item added has its commit, labelled [Place Symbol] for a symbol and
    [Draw Wire] for a wire, in the same order; and no more items are added
    than commands were attempted. *)
Theorem pipeline_only_appends (p : AI_COMMAND_PROCESSOR) (aResponse : string) :
  exists items,
    edits_between p (snd (ProcessCommandsFromResponse p aResponse)) items
      (map label_of items) /\
    (List.length items
     <= List.length (attempted p (snd (ProcessCommandsFromResponse p aResponse))))%nat.
Proof.
  unfold attempted. rewrite length_skipn.
  unfold ProcessCommandsFromResponse.
  destruct (m_frame p) eqn:Hf.
  - destruct (run_pass_edits in_pass1 (mine aResponse) tally0 p) as [i1 [E1 N1]].
    destruct (run_pass in_pass1 (mine aResponse) tally0 p) as [t1 p1]. cbn [snd] in E1, N1.
    destruct (run_pass_edits in_pass2 (mine aResponse) t1 (mark_modified t1 p1))
      as [i2 [E2 N2]].
    destruct (run_pass in_pass2 (mine aResponse) t1 (mark_modified t1 p1)) as [t2 p2].
    cbn [snd] in E2, N2.
    rewrite mark_modified_journal in N2.
    destruct (mark_modified_edits t1 p1) as [Ms Mc].
    assert (E2' : edits_between p1 p2 i2 (map label_of i2)).
    { destruct E2 as [S2 [C2 L2]]. unfold edits_between. rewrite <- Ms, <- Mc. auto. }
    exists (i1 ++ i2)%list.
    split.
    + destruct (_ || _); cbn [snd]; exact (edits_between_trans _ _ _ _ _ E1 E2').
    + rewrite length_app. destruct (_ || _); cbn [snd]; lia.
  - cbn [snd]. exists []. unfold edits_between. rewrite !app_nil_r. cbn. split; [auto|lia].
Qed.

Lemma find_symbol_some (refList : list SCH_REFERENCE) (aRef : string) (s : SCH_SYMBOL) :
  find_symbol refList aRef = Some s ->
  exists ref, In ref refList /\ CmpNoCase (GetRef ref) aRef = Eq /\ GetSymbol ref = Some s.
Proof.
  unfold find_symbol.
  assert (G : forall l acc,
             fold_left (fun symbol ref =>
                          if is_Eq (CmpNoCase (GetRef ref) aRef) then GetSymbol ref else symbol)
                       l acc = Some s ->
             acc = Some s \/
             exists ref, In ref l /\ CmpNoCase (GetRef ref) aRef = Eq /\ GetSymbol ref = Some s).
  { induction l as [|r l IH]; intros acc H; cbn in H; [left; exact H|].
    destruct (IH _ H) as [Ha | [ref [Hi [Hc Hg]]]].
    - destruct (is_Eq (CmpNoCase (GetRef r) aRef)) eqn:E.
      + right. exists r. split; [left; reflexivity|]. split; [|exact Ha].
        unfold is_Eq in E. destruct (CmpNoCase (GetRef r) aRef); [reflexivity|discriminate..].
      + left. exact Ha.
    - right. exists ref. split; [right; exact Hi|]. auto. }
  intros H. destruct (G _ _ H) as [Hn | Hex]; [discriminate | exact Hex].
Qed.

(** X4. When [executeConnectComponents] succeeds, the one item it adds is a
    wire whose ends are the positions of two pins that exist: each is the
    first pin, among the pins of a listed symbol whose reference equals the
    one asked for without regard to case, that matches the pin asked for. *)
Theorem connect_draws_between_matched_pins (p p' : AI_COMMAND_PROCESSOR)
    (aRef1 aPin1 aRef2 aPin2 : string) :
  executeConnectComponents p aRef1 aPin1 aRef2 aPin2 = (true, p') ->
  exists schFrame ref1 ref2 symbol1 symbol2 pin1 pin2,
    as_SCH_EDIT_FRAME (m_frame p) = Some schFrame /\
    In ref1 (Hierarchy_GetSymbols schFrame (screen_items schFrame)) /\
    In ref2 (Hierarchy_GetSymbols schFrame (screen_items schFrame)) /\
    CmpNoCase (GetRef ref1) aRef1 = Eq /\ GetSymbol ref1 = Some symbol1 /\
    CmpNoCase (GetRef ref2) aRef2 = Eq /\ GetSymbol ref2 = Some symbol2 /\
    find_pin (GetPins symbol1) aPin1 = Some pin1 /\ In pin1 (GetPins symbol1) /\
    find_pin (GetPins symbol2) aPin2 = Some pin2 /\ In pin2 (GetPins symbol2) /\
    screen_of p'
    = (screen_of p ++ [item_wire (GetPosition pin1) (GetPosition pin2) true])%list /\
    commits_of p' = (commits_of p ++ ["Draw Wire"])%list.
Proof.
  unfold executeConnectComponents.
  destruct (as_SCH_EDIT_FRAME (m_frame p)) as [schFrame|] eqn:Hf; [|discriminate].
  set (refList := Hierarchy_GetSymbols schFrame (screen_items schFrame)).
  destruct (find_symbol refList aRef1) as [symbol1|] eqn:S1; [|discriminate].
  destruct (find_symbol refList aRef2) as [symbol2|] eqn:S2; [|discriminate].
  destruct (find_pin (GetPins symbol1) aPin1) as [pin1|] eqn:P1; [|discriminate].
  destruct (find_pin (GetPins symbol2) aPin2) as [pin2|] eqn:P2; [|discriminate].
  intros H. destruct (executeDrawWire_true _ _ _ _ H) as [Hs Hc].
  destruct (find_symbol_some _ _ _ S1) as [ref1 [I1 [C1 G1]]].
  destruct (find_symbol_some _ _ _ S2) as [ref2 [I2 [C2 G2]]].
  exists schFrame, ref1, ref2, symbol1, symbol2, pin1, pin2.
  repeat split; try assumption.
  - exact (proj1 (find_some _ _ P1)).
  - exact (proj1 (find_some _ _ P2)).
Qed.

Lemma connect_draws_between_matched_pins_witness :
  exists p' schFrame ref1 ref2 symbol1 symbol2 pin1 pin2,
    executeConnectComponents sample_processor_U1_C1 "u1" "vout" "c1" "1" = (true, p') /\
    as_SCH_EDIT_FRAME (m_frame sample_processor_U1_C1) = Some schFrame /\
    In ref1 (Hierarchy_GetSymbols schFrame (screen_items schFrame)) /\
    In ref2 (Hierarchy_GetSymbols schFrame (screen_items schFrame)) /\
    CmpNoCase (GetRef ref1) "u1" = Eq /\ GetSymbol ref1 = Some symbol1 /\
    CmpNoCase (GetRef ref2) "c1" = Eq /\ GetSymbol ref2 = Some symbol2 /\
    find_pin (GetPins symbol1) "vout" = Some pin1 /\ In pin1 (GetPins symbol1) /\
    find_pin (GetPins symbol2) "1" = Some pin2 /\ In pin2 (GetPins symbol2) /\
    screen_of p'
    = (screen_of sample_processor_U1_C1
         ++ [item_wire (GetPosition pin1) (GetPosition pin2) true])%list /\
    commits_of p' = (commits_of sample_processor_U1_C1 ++ ["Draw Wire"])%list.
Proof.
  eexists.
  destruct (connect_draws_between_matched_pins sample_processor_U1_C1
              (snd (executeConnectComponents sample_processor_U1_C1 "u1" "vout" "c1" "1"))
              "u1" "vout" "c1" "1" eq_refl)
    as [f [r1 [r2 [s1 [s2 [q1 [q2 H]]]]]]].
  exists f, r1, r2, s1, s2, q1, q2. split; [reflexivity | exact H].
Defined.

(* ================================================================== *)
(** * [ProcessCommand]                                                  *)
(* ================================================================== *)

(** The unit test [TestCommandProcessorIdempotentOperations]: a mock frame
    and the mock service; both calls give the same result. *)
Example mock_service_run :
  let c := "add component C1 at 50,50" in
  let '(result1, p1, s1) :=
    ProcessCommand sample_processor_mock_frame (Some Mock.MOCK_AI_SERVICE_new) c in
  let '(result2, p2, s2) := ProcessCommand p1 s1 c in
  result1 = mkRESULT true "Mock response to: add component C1 at 50,50" "" /\
  result2 = result1.
Proof. vm_compute. split; reflexivity. Qed.

(** A pass that leaves the sum of the counters as it was has run nothing. *)
Lemma run_pass_idle (in_pass : string -> bool) (allCommands : list string) :
  forall t p,
    (commandCount (fst (run_pass in_pass allCommands t p))
     + failedCount (fst (run_pass in_pass allCommands t p))
     <= commandCount t + failedCount t)%Z ->
    run_pass in_pass allCommands t p = (t, p).
Proof.
  induction allCommands as [|c rest IH]; intros t p; cbn [run_pass]; [reflexivity|].
  destruct (in_pass (Trim true (Trim false c))); [|apply IH].
  pose proof (run_command_counts (Trim true (Trim false c)) t p) as C.
  destruct (run_command (Trim true (Trim false c)) t p) as [t1 p1]. cbn [fst] in C.
  pose proof (run_pass_counts in_pass rest t1 p1) as R. cbv zeta in C, R.
  intros H. lia.
Qed.

(** The two passes of a run, as both [ProcessCommand] and
    [ProcessCommandsFromResponse] make them. *)
Lemma passes_idle (allCommands : list string) (p p1 p2 : AI_COMMAND_PROCESSOR)
    (t1 t2 : tally) :
  run_pass in_pass1 allCommands tally0 p = (t1, p1) ->
  run_pass in_pass2 allCommands t1 (mark_modified t1 p1) = (t2, p2) ->
  (0 <? commandCount t2)%Z || (0 <? failedCount t2)%Z = false ->
  p2 = p.
Proof.
  intros R1 R2 E.
  apply orb_false_iff in E as [E1 E2]. apply Z.ltb_ge in E1, E2.
  pose proof (run_pass_counts in_pass1 allCommands tally0 p) as C1.
  pose proof (run_pass_counts in_pass2 allCommands t1 (mark_modified t1 p1)) as C2.
  rewrite R1 in C1. rewrite R2 in C2. cbn [fst snd tally0 commandCount failedCount] in C1, C2.
  assert (I1 : run_pass in_pass1 allCommands tally0 p = (tally0, p)).
  { apply run_pass_idle. rewrite R1. cbn [fst tally0 commandCount failedCount]. lia. }
  rewrite I1 in R1. injection R1 as <- <-.
  assert (M : mark_modified tally0 p = p).
  { unfold mark_modified. cbn [tally0 commandCount Z.ltb Z.compare].
    repeat break_match; reflexivity. }
  rewrite M in R2.
  assert (I2 : run_pass in_pass2 allCommands tally0 p = (tally0, p)).
  { apply run_pass_idle. rewrite R2. cbn [fst tally0 commandCount failedCount]. lia. }
  rewrite I2 in R2. injection R2 as _ <-. reflexivity.
Qed.

(** X5. With an assistant that is available and answers, [ProcessCommand]
    does to the host what [ProcessCommandsFromResponse] does on the answer,
    whenever that run attempts a command: the processor is left in the same
    state and the message is the report of the run, two line feeds and the
    answer.  The text the user typed is not run. *)
Theorem ProcessCommand_runs_the_answer {S : Type} `{I_AI_SERVICE S}
    (p : AI_COMMAND_PROCESSOR) (svc svc1 svc2 : S) (aCommand : string)
    (aiResponse : AI_RESPONSE) :
  svc_IsAvailable svc = (true, svc1) ->
  svc_ProcessPrompt svc1 aCommand (gatherContext p) = (aiResponse, svc2) ->
  resp_success aiResponse = true ->
  success (fst (ProcessCommandsFromResponse p (resp_message aiResponse))) = true ->
  ProcessCommand p (Some svc) aCommand
  = (mkRESULT true
       (message (fst (ProcessCommandsFromResponse p (resp_message aiResponse)))
          ++ LF ++ LF ++ resp_message aiResponse) "",
     snd (ProcessCommandsFromResponse p (resp_message aiResponse)),
     Some svc2).
Proof.
  intros Ha Hp Hs. unfold ProcessCommand, ProcessCommandsFromResponse.
  destruct (m_frame p); [|discriminate].
  rewrite Ha, Hp, Hs.
  destruct (run_pass in_pass1 (mine (resp_message aiResponse)) tally0 p) as [t1 p1].
  destruct (run_pass in_pass2 (mine (resp_message aiResponse)) t1 (mark_modified t1 p1))
    as [t2 p2].
  destruct ((0 <? commandCount t2)%Z || (0 <? failedCount t2)%Z); [|discriminate].
  reflexivity.
Qed.

Lemma ProcessCommand_runs_the_answer_witness :
  ProcessCommand (H := sample_scripted sample_response) sample_processor (Some tt)
    "build a regulator"
  = (mkRESULT true
       (message (fst (ProcessCommandsFromResponse sample_processor sample_response))
          ++ LF ++ LF ++ sample_response) "",
     snd (ProcessCommandsFromResponse sample_processor sample_response),
     Some tt).
Proof.
  apply (ProcessCommand_runs_the_answer (H := sample_scripted sample_response)
           sample_processor tt tt tt "build a regulator"
           (mkRESPONSE true sample_response "" true)); reflexivity.
Defined.

(** X6. With an assistant that is available and answers, but whose answer
    holds no command, [ProcessCommand] runs the text the user typed through
    [processDirectCommand] and reports success whatever that gives: the
    message is the answer, followed by the message of the direct command
    only when it succeeded; its error is dropped. *)
Theorem ProcessCommand_answer_without_commands {S : Type} `{I_AI_SERVICE S}
    (p : AI_COMMAND_PROCESSOR) (svc svc1 svc2 : S) (aCommand : string)
    (aiResponse : AI_RESPONSE) :
  m_frame p <> None ->
  svc_IsAvailable svc = (true, svc1) ->
  svc_ProcessPrompt svc1 aCommand (gatherContext p) = (aiResponse, svc2) ->
  resp_success aiResponse = true ->
  success (fst (ProcessCommandsFromResponse p (resp_message aiResponse))) = false ->
  let directResult := fst (processDirectCommand p aCommand) in
  ProcessCommand p (Some svc) aCommand
  = (mkRESULT true
       (if success directResult
        then resp_message aiResponse ++ LF ++ LF ++ message directResult
        else resp_message aiResponse) "",
     snd (processDirectCommand p aCommand),
     Some svc2).
Proof.
  intros Hf Ha Hp Hs. unfold ProcessCommand, ProcessCommandsFromResponse.
  destruct (m_frame p); [|congruence].
  rewrite Ha, Hp, Hs.
  destruct (run_pass in_pass1 (mine (resp_message aiResponse)) tally0 p) as [t1 p1] eqn:R1.
  destruct (run_pass in_pass2 (mine (resp_message aiResponse)) t1 (mark_modified t1 p1))
    as [t2 p2] eqn:R2.
  destruct ((0 <? commandCount t2)%Z || (0 <? failedCount t2)%Z) eqn:E; [discriminate|].
  intros _. cbv zeta.
  rewrite (passes_idle _ _ _ _ _ _ R1 R2 E).
  destruct (processDirectCommand p aCommand) as [d p3]. cbn [fst snd].
  destruct (success d); reflexivity.
Qed.

Lemma ProcessCommand_answer_without_commands_witness :
  ProcessCommand (H := sample_scripted "A resistor limits current.") sample_processor
    (Some tt) "what does a resistor do"
  = (mkRESULT true "A resistor limits current." "",
     snd (processDirectCommand sample_processor "what does a resistor do"),
     Some tt).
Proof.
  apply (ProcessCommand_answer_without_commands
           (H := sample_scripted "A resistor limits current.")
           sample_processor tt tt tt "what does a resistor do"
           (mkRESPONSE true "A resistor limits current." "" true));
    first [reflexivity | discriminate].
Defined.

(** X7. Whatever the assistant is, absent, unavailable, failing or
    answering, the result of [ProcessCommand] is a success with an empty
    error or a failure with an empty message and an error that is not. *)
Theorem ProcessCommand_success_or_error {S : Type} `{I_AI_SERVICE S}
    (p : AI_COMMAND_PROCESSOR) (m_aiService : option S) (aCommand : string) :
  result_shape (fst (fst (ProcessCommand p m_aiService aCommand))).
Proof.
  assert (D : result_shape (fst (processDirectCommand p aCommand))).
  { unfold processDirectCommand.
    repeat break_match.
    - apply processSchematicCommand_shape.
    - apply processBoardCommand_shape.
    - apply processGenericCommand_shape. }
  unfold ProcessCommand.
  destruct (m_frame p); [|right; repeat split; discriminate].
  destruct (processDirectCommand p aCommand) as [d pd]. cbn [fst] in D.
  destruct m_aiService as [svc|]; [|exact D].
  destruct (svc_IsAvailable svc) as [[|] svc1]; [|exact D].
  destruct (svc_ProcessPrompt svc1 aCommand (gatherContext p)) as [ai svc2].
  destruct (resp_success ai); [|exact D].
  destruct (run_pass in_pass1 (mine (resp_message ai)) tally0 p) as [t1 p1].
  destruct (run_pass in_pass2 (mine (resp_message ai)) t1 (mark_modified t1 p1)) as [t2 p2].
  destruct (_ || _); [left; split; reflexivity|].
  destruct (processDirectCommand p2 aCommand) as [d3 p3].
  destruct (success d3); left; split; reflexivity.
Qed.

(* ================================================================== *)
(** * The availability of the Ollama client                             *)
(* ================================================================== *)

(** X8. The client probes the server once.  After the constructor, or after
    a first [IsAvailable], every later [IsAvailable] returns the answer of
    that probe without a request, whatever the server would answer then;
    [SetModel] keeps the answer, and only [SetBaseUrl] makes the next call
    probe again, at the new address. *)
Theorem availability_probed_once (json_parse : string -> json + string)
    (http_get http_get' : string -> curl_result) (svc : OLLAMA_AI_SERVICE)
    (aBaseUrl aModelName : string) :
  let svc1 := snd (IsAvailable http_get svc) in
  let new := OLLAMA_AI_SERVICE_new json_parse http_get aBaseUrl in
  IsAvailable http_get' svc1 = (fst (IsAvailable http_get svc), svc1) /\
  IsAvailable http_get' new = (answers http_get aBaseUrl, new) /\
  IsAvailable http_get' (SetModel svc1 aModelName)
  = (fst (IsAvailable http_get svc), SetModel svc1 aModelName) /\
  fst (IsAvailable http_get' (SetBaseUrl svc1 aBaseUrl)) = answers http_get' aBaseUrl.
Proof.
  cbv zeta. repeat split.
  - unfold IsAvailable. destruct (m_availabilityChecked svc) eqn:E; cbn; [rewrite E|];
      reflexivity.
  - unfold OLLAMA_AI_SERVICE_new, IsAvailable, TestConnection, answers.
    cbn [m_baseUrl m_model m_availabilityChecked m_isAvailable].
    destruct (http_get (aBaseUrl ++ "/api/tags")) eqn:E;
      cbn [m_baseUrl m_model m_availabilityChecked m_isAvailable]; rewrite ?E; reflexivity.
  - unfold IsAvailable, SetModel. destruct (m_availabilityChecked svc) eqn:E; cbn;
      [rewrite E|]; reflexivity.
Qed.

(** X9. A client constructed while the server does not answer stays
    unavailable: with it as the assistant, [ProcessCommand] is
    [processDirectCommand] on every later call, and the client is not
    changed, whatever the server would answer by then. *)
Theorem offline_client_falls_back (json_parse : string -> json + string)
    (json_dump : json -> string) (type_error_what : json -> string)
    (http_get http_get' : string -> curl_result)
    (http_post' : string -> string -> curl_result)
    (p : AI_COMMAND_PROCESSOR) (aBaseUrl aCommand : string) :
  m_frame p <> None ->
  answers http_get aBaseUrl = false ->
  let svc := OLLAMA_AI_SERVICE_new json_parse http_get aBaseUrl in
  ProcessCommand (H := OLLAMA_service json_parse json_dump type_error_what http_get' http_post')
    p (Some svc) aCommand
  = (fst (processDirectCommand p aCommand), snd (processDirectCommand p aCommand), Some svc).
Proof.
  intros Hf Ha. cbv zeta. unfold ProcessCommand.
  destruct (m_frame p); [|congruence].
  cbn [svc_IsAvailable OLLAMA_service].
  unfold answers in Ha.
  unfold OLLAMA_AI_SERVICE_new, IsAvailable, TestConnection.
  cbn [m_baseUrl m_model m_availabilityChecked m_isAvailable].
  destruct (http_get (aBaseUrl ++ "/api/tags")) eqn:E; [|discriminate].
  cbn [m_baseUrl m_model m_availabilityChecked m_isAvailable]. rewrite ?E.
  destruct (processDirectCommand p aCommand); reflexivity.
Qed.

Lemma offline_client_falls_back_witness :
  let svc := OLLAMA_AI_SERVICE_new sample_json_parse (fun _ => curl_failed "refused")
               "http://localhost:11434" in
  ProcessCommand
    (H := OLLAMA_service sample_json_parse (fun _ => "") (fun _ => "") sample_http_get
            sample_http_post)
    sample_processor (Some svc) "add component Device:R"
  = (fst (processDirectCommand sample_processor "add component Device:R"),
     snd (processDirectCommand sample_processor "add component Device:R"), Some svc).
Proof.
  apply (offline_client_falls_back sample_json_parse (fun _ => "") (fun _ => "")
           (fun _ => curl_failed "refused") sample_http_get sample_http_post
           sample_processor "http://localhost:11434" "add component Device:R");
    first [reflexivity | discriminate].
Defined.

(** X10. The model the constructor settles on, whatever the server: the
    first listed model whose name contains [code]; when no listed name does,
    the first listed model; when nothing is listed, also because the server
    does not answer, the default [qwen2.5-coder:32b]. *)
Theorem constructor_model_choice (json_parse : string -> json + string)
    (http_get : string -> curl_result) (aBaseUrl : string) :
  let models :=
    GetAvailableModels json_parse http_get
      (mkSERVICE aBaseUrl "qwen2.5-coder:32b" false false) in
  GetCurrentModel (OLLAMA_AI_SERVICE_new json_parse http_get aBaseUrl)
  = match find (fun model => Contains model "code") models with
    | Some model => model
    | None => hd "qwen2.5-coder:32b" models
    end.
Proof.
  cbv zeta. unfold GetCurrentModel, OLLAMA_AI_SERVICE_new, TestConnection, GetAvailableModels.
  cbn [m_baseUrl m_model].
  destruct (http_get (aBaseUrl ++ "/api/tags")) as [e|body];
    cbn [m_baseUrl m_model find hd]; [reflexivity|].
  set (models := match json_parse body with inl _ => _ | inr _ => _ end).
  destruct models as [|first rest]; [reflexivity|].
  rewrite select_model_code.
  destruct (find _ (first :: rest)); reflexivity.
Qed.

(* ================================================================== *)
(** * The body of a streamed answer                                     *)
(* ================================================================== *)

Lemma fields_not_nil (sep : ascii) (s : string) : fields sep s <> [].
Proof.
  destruct s as [|c s]; cbn [fields]; [discriminate|].
  destruct (Ascii.eqb c sep); [discriminate|]. destruct (fields sep s); discriminate.
Qed.

Lemma fields_app (sep : ascii) (a b : string) :
  fields sep (a ++ String sep b) = (fields sep a ++ fields sep b)%list.
Proof.
  induction a as [|c a IH]; cbn [String.append fields].
  - rewrite Ascii.eqb_refl. reflexivity.
  - destruct (Ascii.eqb c sep); [rewrite IH; reflexivity|].
    rewrite IH. destruct (fields sep a) as [|f fs] eqn:E; [|reflexivity].
    destruct (fields_not_nil _ _ E).
Qed.

Lemma fields_free (sep : ascii) (s : string) :
  free_of sep s = true -> fields sep s = [s].
Proof.
  induction s as [|c s IH]; [reflexivity|]. intros H.
  apply free_of_tail in H as [Hc Hs]. cbn [fields]. rewrite Hc, (IH Hs). reflexivity.
Qed.

Lemma wxStringTokenizer_app (sep : ascii) (a b : string) :
  wxStringTokenizer (a ++ String sep b) sep
  = (wxStringTokenizer a sep ++ wxStringTokenizer b sep)%list.
Proof. unfold wxStringTokenizer. rewrite fields_app, filter_app. reflexivity. Qed.

Lemma wxStringTokenizer_line (sep : ascii) (s : string) :
  free_of sep s = true ->
  wxStringTokenizer s sep = if IsEmpty s then [] else [s].
Proof.
  intros H. unfold wxStringTokenizer. rewrite (fields_free _ _ H). cbn.
  destruct (IsEmpty s); reflexivity.
Qed.

(** A line the loop passes over: blank once trimmed, or not JSON. *)
Lemma stream_fragments_skip (json_parse : string -> json + string)
    (before after : list string) (junk : string) :
  IsEmpty (Trim true junk) = true \/ (exists what, json_parse (Trim true junk) = inr what) ->
  stream_fragments json_parse (before ++ junk :: after)
  = stream_fragments json_parse (before ++ after).
Proof.
  intros Hj. induction before as [|t before IH]; cbn [app stream_fragments].
  - destruct Hj as [He | [what Hp]]; [rewrite He; reflexivity|].
    rewrite Hp. destruct (IsEmpty (Trim true junk)); reflexivity.
  - rewrite IH. reflexivity.
Qed.

Lemma stream_fragments_done (json_parse : string -> json + string)
    (before after : list string) (last : string) (j : json) :
  IsEmpty (Trim true last) = false ->
  json_parse (Trim true last) = inl j ->
  line_done j = true ->
  json_contains j "response" = false \/ get_string (json_at j "response") <> None ->
  stream_fragments json_parse (before ++ last :: after)
  = stream_fragments json_parse (before ++ [last]).
Proof.
  intros He Hp Hd Hr. induction before as [|t before IH]; cbn [app stream_fragments].
  - rewrite He, Hp, Hd.
    destruct (json_contains j "response"); [|reflexivity].
    destruct (get_string (json_at j "response")); [reflexivity|].
    destruct Hr; congruence.
  - rewrite IH. reflexivity.
Qed.

(** X11. A streamed body is read line by line, and a line that is blank or
    is not JSON is passed over without ending the request: the same body
    without that line gives the same response and the same calls of the
    callback. *)
Theorem streaming_skips_unreadable_line
    (json_parse : string -> json + string) (type_error_what : json -> string)
    (http_post http_post' : string -> string -> curl_result) (World : Type)
    (svc : OLLAMA_AI_SERVICE) (aEndpoint aJsonPayload before junk after : string)
    (callback : string -> World -> World) (w : World) :
  free_of (ascii_of_nat 10) junk = true ->
  IsEmpty (Trim true junk) = true \/ (exists what, json_parse (Trim true junk) = inr what) ->
  http_post (m_baseUrl svc ++ aEndpoint) aJsonPayload
  = curl_ok (before ++ LF ++ junk ++ LF ++ after) ->
  http_post' (m_baseUrl svc ++ aEndpoint) aJsonPayload = curl_ok (before ++ LF ++ after) ->
  makeApiRequest json_parse type_error_what http_post World svc aEndpoint aJsonPayload
    true (Some callback) w
  = makeApiRequest json_parse type_error_what http_post' World svc aEndpoint aJsonPayload
      true (Some callback) w.
Proof.
  intros Hf Hj H1 H2.
  rewrite (makeApiRequest_streaming _ _ _ _ _ _ _ _ callback w H1).
  rewrite (makeApiRequest_streaming _ _ _ _ _ _ _ _ callback w H2).
  assert (T : wxStringTokenizer (before ++ LF ++ junk ++ LF ++ after) (ascii_of_nat 10)
              = (wxStringTokenizer before (ascii_of_nat 10)
                   ++ (if IsEmpty junk then [] else [junk])
                   ++ wxStringTokenizer after (ascii_of_nat 10))%list).
  { change (LF ++ junk ++ LF ++ after)
      with (String (ascii_of_nat 10) (junk ++ String (ascii_of_nat 10) after)).
    rewrite !wxStringTokenizer_app, (wxStringTokenizer_line _ _ Hf). reflexivity. }
  assert (T' : wxStringTokenizer (before ++ LF ++ after) (ascii_of_nat 10)
               = (wxStringTokenizer before (ascii_of_nat 10)
                    ++ wxStringTokenizer after (ascii_of_nat 10))%list).
  { change (LF ++ after) with (String (ascii_of_nat 10) after).
    apply wxStringTokenizer_app. }
  rewrite T, T'.
  destruct (IsEmpty junk); [reflexivity|].
  cbn [app]. rewrite (stream_fragments_skip _ _ _ _ Hj). reflexivity.
Qed.

Lemma streaming_skips_unreadable_line_witness :
  makeApiRequest sample_json_parse (fun _ => "") 
    (fun _ _ => curl_ok ("line1" ++ LF ++ "not json" ++ LF ++ "line4"))
    panel sample_service "/api/generate" "payload" true (Some (panel_on_chunk 9)) panel0
  = makeApiRequest sample_json_parse (fun _ => "")
      (fun _ _ => curl_ok ("line1" ++ LF ++ "line4"))
      panel sample_service "/api/generate" "payload" true (Some (panel_on_chunk 9)) panel0.
Proof.
  apply (streaming_skips_unreadable_line sample_json_parse (fun _ => "")
           (fun _ _ => curl_ok ("line1" ++ LF ++ "not json" ++ LF ++ "line4"))
           (fun _ _ => curl_ok ("line1" ++ LF ++ "line4"))
           panel sample_service "/api/generate" "payload" "line1" "not json" "line4"
           (panel_on_chunk 9) panel0).
  - reflexivity.
  - right. exists "parse error". reflexivity.
  - reflexivity.
  - reflexivity.
Defined.

(** X12. A streamed body is read up to the first line whose [done] member
    is true: when that line is read without a type error, the lines that
    follow it change neither the response nor the calls of the callback. *)
Theorem streaming_stops_at_done
    (json_parse : string -> json + string) (type_error_what : json -> string)
    (http_post http_post' : string -> string -> curl_result) (World : Type)
    (svc : OLLAMA_AI_SERVICE) (aEndpoint aJsonPayload before last after : string)
    (j : json) (callback : string -> World -> World) (w : World) :
  free_of (ascii_of_nat 10) last = true ->
  IsEmpty (Trim true last) = false ->
  json_parse (Trim true last) = inl j ->
  line_done j = true ->
  json_contains j "response" = false \/ get_string (json_at j "response") <> None ->
  http_post (m_baseUrl svc ++ aEndpoint) aJsonPayload
  = curl_ok (before ++ LF ++ last ++ LF ++ after) ->
  http_post' (m_baseUrl svc ++ aEndpoint) aJsonPayload = curl_ok (before ++ LF ++ last) ->
  makeApiRequest json_parse type_error_what http_post World svc aEndpoint aJsonPayload
    true (Some callback) w
  = makeApiRequest json_parse type_error_what http_post' World svc aEndpoint aJsonPayload
      true (Some callback) w.
Proof.
  intros Hf He Hp Hd Hr H1 H2.
  rewrite (makeApiRequest_streaming _ _ _ _ _ _ _ _ callback w H1).
  rewrite (makeApiRequest_streaming _ _ _ _ _ _ _ _ callback w H2).
  assert (N : IsEmpty last = false).
  { destruct last; [discriminate He | reflexivity]. }
  assert (T : wxStringTokenizer (before ++ LF ++ last ++ LF ++ after) (ascii_of_nat 10)
              = (wxStringTokenizer before (ascii_of_nat 10)
                   ++ last :: wxStringTokenizer after (ascii_of_nat 10))%list).
  { change (LF ++ last ++ LF ++ after)
      with (String (ascii_of_nat 10) (last ++ String (ascii_of_nat 10) after)).
    rewrite !wxStringTokenizer_app, (wxStringTokenizer_line _ _ Hf), N. reflexivity. }
  assert (T' : wxStringTokenizer (before ++ LF ++ last) (ascii_of_nat 10)
               = (wxStringTokenizer before (ascii_of_nat 10) ++ [last])%list).
  { change (LF ++ last) with (String (ascii_of_nat 10) last).
    rewrite wxStringTokenizer_app, (wxStringTokenizer_line _ _ Hf), N. reflexivity. }
  rewrite T, T', (stream_fragments_done _ _ _ _ _ He Hp Hd Hr). reflexivity.
Qed.

Lemma streaming_stops_at_done_witness :
  makeApiRequest sample_json_parse (fun _ => "")
    (fun _ _ => curl_ok ("line1" ++ LF ++ "line4" ++ LF ++ "line2"))
    panel sample_service "/api/generate" "payload" true (Some (panel_on_chunk 9)) panel0
  = makeApiRequest sample_json_parse (fun _ => "")
      (fun _ _ => curl_ok ("line1" ++ LF ++ "line4"))
      panel sample_service "/api/generate" "payload" true (Some (panel_on_chunk 9)) panel0.
Proof.
  apply (streaming_stops_at_done sample_json_parse (fun _ => "")
           (fun _ _ => curl_ok ("line1" ++ LF ++ "line4" ++ LF ++ "line2"))
           (fun _ _ => curl_ok ("line1" ++ LF ++ "line4"))
           panel sample_service "/api/generate" "payload" "line1" "line4" "line2"
           (JObject [("response", JString ""); ("done", JBool true)])
           (panel_on_chunk 9) panel0).
  - reflexivity.
  - reflexivity.
  - reflexivity.
  - reflexivity.
  - right. discriminate.
  - reflexivity.
  - reflexivity.
Defined.

(** X13. A response of [makeApiRequest] that has its complete flag set is a
    success without error text, in either mode; and a request that is not
    streamed, or has no callback, never calls one: what the callback acts on
    is left as it was. *)
Theorem complete_means_success
    (json_parse : string -> json + string) (type_error_what : json -> string)
    (http_post : string -> string -> curl_result) (World : Type)
    (svc : OLLAMA_AI_SERVICE) (aEndpoint aJsonPayload : string) (aStream : bool)
    (aStreamCallback : option (string -> World -> World)) (w : World) :
  let r := makeApiRequest json_parse type_error_what http_post World svc aEndpoint
             aJsonPayload aStream aStreamCallback w in
  (isComplete (fst r) = true -> resp_success (fst r) = true /\ resp_error (fst r) = "") /\
  (aStream = false \/ aStreamCallback = None -> snd r = w).
Proof.
  cbv zeta. unfold makeApiRequest.
  destruct (http_post (m_baseUrl svc ++ aEndpoint) aJsonPayload) as [e|body].
  - cbn. split; [discriminate | reflexivity].
  - split.
    + destruct aStream, aStreamCallback as [cb|];
        try (destruct (stream_loop _ _ _ _ _ _) as [m w']; cbn; auto);
        repeat break_match; cbn; intros; first [discriminate | auto].
    + intros [-> | ->]; [|destruct aStream]; repeat break_match; reflexivity.
Qed.

Lemma complete_means_success_witness :
  let r := makeApiRequest sample_json_parse (fun _ => "") (fun _ _ => curl_ok "line1")
             panel sample_service "/api/generate" "payload" false
             (Some (panel_on_chunk 9)) panel0 in
  (resp_success (fst r) = true /\ resp_error (fst r) = "") /\ snd r = panel0.
Proof.
  cbv zeta.
  pose proof (complete_means_success sample_json_parse (fun _ => "")
                (fun _ _ => curl_ok "line1") panel sample_service "/api/generate" "payload"
                false (Some (panel_on_chunk 9)) panel0) as [H1 H2].
  split; [apply H1; reflexivity | apply H2; left; reflexivity].
Defined.

(* ================================================================== *)
(** * What the miner reads                                              *)
(* ================================================================== *)

Lemma mine_lines_app (l1 l2 : list string) :
  mine_lines (l1 ++ l2) = (mine_lines l1 ++ mine_lines l2)%list.
Proof.
  induction l1 as [|l l1 IH]; cbn [app mine_lines]; [reflexivity|].
  rewrite IH. destruct (mine_line l); reflexivity.
Qed.

Lemma mine_lines_fields (s : string) : mine_lines (fields (ascii_of_nat 10) s) = mine s.
Proof.
  unfold mine, wxSplit. destruct s; reflexivity.
Qed.

(** X14. The miner reads a response line by line: the commands of two texts
    joined by a line feed are the commands of the first followed by the
    commands of the second. *)
Theorem mine_line_by_line (a b : string) :
  mine (a ++ LF ++ b) = (mine a ++ mine b)%list.
Proof.
  rewrite <- (mine_lines_fields a), <- (mine_lines_fields b), <- mine_lines_app.
  change (LF ++ b) with (String (ascii_of_nat 10) b).
  rewrite <- fields_app, mine_lines_fields. reflexivity.
Qed.

(** The first character of a text that starts with a verb. *)
Lemma verb_initial (x : ascii) (r : string) :
  starts_with_verb (String x r) = true ->
  wxIsdigit x || wxIsspace x || Ascii.eqb x "#" || Ascii.eqb x "*" || Ascii.eqb x "`" = false.
Proof.
  unfold starts_with_verb, StartsWith. cbn [Lower String.prefix].
  destruct x as [[] [] [] [] [] [] [] []]; intros H; vm_compute in H |- *;
    first [reflexivity | discriminate H].
Qed.

Lemma digit_initial (x : ascii) :
  wxIsdigit x = true ->
  wxIsspace x || Ascii.eqb x "#" || Ascii.eqb x "*" || Ascii.eqb x "`" = false.
Proof.
  destruct x as [[] [] [] [] [] [] [] []]; intros H; vm_compute in H |- *;
    first [reflexivity | discriminate H].
Qed.

Lemma StartsWith_other (x y : ascii) (r q : string) :
  Ascii.eqb x y = false -> StartsWith (String x r) (String y q) = false.
Proof.
  intros H. unfold StartsWith. cbn [String.prefix].
  destruct (ascii_dec y x) as [->|]; [|reflexivity].
  rewrite Ascii.eqb_refl in H. discriminate.
Qed.

Lemma find_chr_free (c : ascii) (s : string) : free_of c s = true -> find_chr s c = None.
Proof.
  induction s as [|a s IH]; [reflexivity|]. intros H.
  apply free_of_tail in H as [Ha Hs]. cbn [find_chr]. rewrite Ha, (IH Hs). reflexivity.
Qed.

Lemma free_of_Mid (c : ascii) (n : nat) :
  forall s, free_of c s = true -> free_of c (Mid s n) = true.
Proof.
  induction n as [|n IH]; intros s H; [exact H|].
  destruct s as [|a s]; [reflexivity|]. cbn [Mid].
  apply IH. exact (proj2 (free_of_tail _ _ _ H)).
Qed.

Lemma free_of_trim_left (c : ascii) (s : string) :
  free_of c s = true -> free_of c (trim_left s) = true.
Proof.
  induction s as [|a s IH]; intros H; [reflexivity|]. cbn [trim_left].
  destruct (wxIsspace a); [|exact H]. apply IH. exact (proj2 (free_of_tail _ _ _ H)).
Qed.

Lemma backtick_span_free (s : string) : free_of "`" s = true -> backtick_span s = None.
Proof.
  intros H. unfold backtick_span, FindChar. rewrite (find_chr_free _ _ H). reflexivity.
Qed.

Lemma mine_command_colon_free (s : string) :
  free_of "`" s = true -> mine_command_colon s = None.
Proof.
  intros H. unfold mine_command_colon.
  destruct (negb (Find (Lower s) "command:" =? wxNOT_FOUND)%Z); [|reflexivity].
  rewrite backtick_span_free; [reflexivity|].
  apply free_of_trim_left, free_of_Mid, H.
Qed.

Lemma trim_right_cons (a : ascii) (s : string) :
  trim_right s = s -> IsEmpty s = false -> trim_right (String a s) = String a s.
Proof. intros Hr He. cbn [trim_right]. rewrite Hr, He. reflexivity. Qed.

Lemma trim_right_snoc (c : ascii) (s : string) :
  wxIsspace c = false -> trim_right (s ++ String c "") = s ++ String c "".
Proof.
  intros H. induction s as [|a s IH]; cbn [String.append trim_right].
  - rewrite H. reflexivity.
  - rewrite IH. destruct s; reflexivity.
Qed.

Lemma find_chr_snoc (c : ascii) (s r : string) :
  free_of c s = true -> find_chr (s ++ String c r) c = Some (String.length s).
Proof.
  induction s as [|a s IH]; intros H; cbn [String.append find_chr String.length].
  - rewrite Ascii.eqb_refl. reflexivity.
  - apply free_of_tail in H as [Ha Hs]. rewrite Ha, (IH Hs). reflexivity.
Qed.

Lemma substring_prefix (s r : string) :
  String.substring 0 (String.length s) (s ++ r) = s.
Proof.
  induction s as [|a s IH]; cbn [String.append String.length String.substring].
  - destruct r; reflexivity.
  - rewrite IH. reflexivity.
Qed.

(** X15. The three ways the system prompt asks the assistant to write a
    command are read back as that command.  For a command that starts with
    one of the verbs, has no white space at either end and holds no
    backtick, the line with the command alone, the numbered line (a digit,
    a dot or a closing parenthesis, a space, the command) and the command
    between backticks each give exactly the command. *)
Theorem written_command_is_mined (c : string) (d k : ascii) :
  Trim true (Trim false c) = c ->
  starts_with_verb c = true ->
  free_of "`" c = true ->
  wxIsdigit d = true ->
  k = "."%char \/ k = ")"%char ->
  mine_line c = Some c /\
  mine_line (String d (String k (String " " c))) = Some c /\
  mine_line ("`" ++ c ++ "`") = Some c.
Proof.
  intros Ht Hv Hf Hd Hk.
  destruct c as [|x r]; [discriminate Hv|].
  pose proof (verb_initial x r Hv) as Hx.
  apply orb_false_iff in Hx as [Hx Hx5]. apply orb_false_iff in Hx as [Hx Hx4].
  apply orb_false_iff in Hx as [Hx Hx3]. apply orb_false_iff in Hx as [Hx1 Hx2].
  assert (Hl : trim_left (String x r) = String x r) by (cbn [trim_left]; rewrite Hx2; reflexivity).
  assert (Hr : trim_right (String x r) = String x r).
  { unfold Trim in Ht. rewrite Hl in Ht. exact Ht. }
  set (c := String x r) in *.
  assert (Hn : mine_numbered c = None).
  { unfold mine_numbered, c. destruct r as [|c1 [|c2 r]]; try reflexivity.
    rewrite Hx1. reflexivity. }
  split; [|split].
  - unfold mine_line. rewrite Ht.
    unfold c at 1 2 3. cbn [IsEmpty orb].
    rewrite (StartsWith_other x "#" r "" Hx3), (StartsWith_other x "*" r "*" Hx4).
    cbn [andb]. unfold mine_backticks.
    rewrite (backtick_span_free c Hf), (mine_command_colon_free c Hf), Hn, Hv. reflexivity.
  - pose proof (digit_initial d Hd) as Hy.
    apply orb_false_iff in Hy as [Hy Hy4]. apply orb_false_iff in Hy as [Hy Hy3].
    apply orb_false_iff in Hy as [Hy1 Hy2].
    set (line := String d (String k (String " " c))).
    assert (Hk' : Ascii.eqb k "." || Ascii.eqb k ")" = true /\ Ascii.eqb k "`" = false).
    { destruct Hk as [-> | ->]; split; reflexivity. }
    destruct Hk' as [Hk1 Hk2].
    assert (Tl : Trim true (Trim false line) = line).
    { unfold Trim, line. cbn [trim_left]. rewrite Hy1.
      repeat (apply trim_right_cons; [|reflexivity]). exact Hr. }
    assert (Fl : free_of "`" line = true).
    { unfold line. cbn [free_of]. rewrite Hy4, Hk2. exact Hf. }
    unfold mine_line. rewrite Tl.
    unfold line at 1 2 3. cbn [IsEmpty orb].
    rewrite (StartsWith_other d "#" _ "" Hy2), (StartsWith_other d "*" _ "*" Hy3).
    cbn [andb]. unfold mine_backticks.
    rewrite (backtick_span_free line Fl), (mine_command_colon_free line Fl).
    unfold mine_numbered, line. rewrite Hd, Hk1. cbn [andb Mid Trim trim_left].
    change (wxIsspace " ") with true. cbv iota. fold c. rewrite Hl, Hv. reflexivity.
  - set (line := "`" ++ c ++ "`").
    assert (Tl : Trim true (Trim false line) = line).
    { unfold Trim, line. change ("`" ++ c ++ "`") with (String "`" (c ++ "`")).
      cbn [trim_left]. change (wxIsspace "`") with false. cbv iota.
      apply trim_right_cons; [apply trim_right_snoc; reflexivity | reflexivity]. }
    unfold mine_line. rewrite Tl.
    assert (B : backtick_span line = Some c).
    { unfold backtick_span, FindChar, find_from, line.
      change ("`" ++ c ++ "`") with (String "`" (c ++ "`")).
      cbn [find_chr]. rewrite Ascii.eqb_refl.
      change (Z.to_nat (Z.of_nat 0 + 1)) with 1%nat. cbn [Mid].
      rewrite (find_chr_snoc "`" c "" Hf).
      change (negb (Z.of_nat 0 =? wxNOT_FOUND)%Z) with true. cbv iota.
      assert (E : (Z.of_nat (1 + String.length c) =? wxNOT_FOUND)%Z = false).
      { apply Z.eqb_neq. unfold wxNOT_FOUND. lia. }
      rewrite E. cbn [negb]. unfold SubString, MidCount. cbn [Mid].
      replace (Z.to_nat (Z.of_nat (1 + String.length c) - 1) + 1 - 1)%nat
        with (String.length c) by lia.
      rewrite substring_prefix. f_equal. exact Ht. }
    assert (S1 : IsEmpty line || StartsWith line "#" = false) by reflexivity.
    assert (S2 : StartsWith line "**" = false) by reflexivity.
    rewrite S1, S2. cbn [andb]. unfold mine_backticks. rewrite B, Hv. reflexivity.
Qed.

Lemma written_command_is_mined_witness :
  mine_line "connect U1.VOUT to C2.1" = Some "connect U1.VOUT to C2.1" /\
  mine_line "5. connect U1.VOUT to C2.1" = Some "connect U1.VOUT to C2.1" /\
  mine_line "`connect U1.VOUT to C2.1`" = Some "connect U1.VOUT to C2.1".
Proof.
  apply (written_command_is_mined "connect U1.VOUT to C2.1" "5" ".");
    first [reflexivity | left; reflexivity].
Defined.

(** The commands of the example in the system prompt, as the miner reads
    them. *)
Example prompt_example_mined :
  mine ("1. add component Device:LM7805 at 100000,100000" ++ LF ++
        "2. add component Device:C at 50000,100000" ++ LF ++
        "4. connect U1.VIN to C1.1" ++ LF)
  = ["add component Device:LM7805 at 100000,100000";
     "add component Device:C at 50000,100000";
     "connect U1.VIN to C1.1"].
Proof. reflexivity. Qed.

(* ================================================================== *)
(** * Numbers written and read back                                     *)
(* ================================================================== *)

Lemma digit_char (m : N) :
  (m < 10)%N ->
  wxIsdigit (ascii_of_N (48 + m)) = true /\
  Z.of_nat (nat_of_ascii (ascii_of_N (48 + m)) - 48) = Z.of_N m.
Proof.
  intros H. rewrite <- (Nnat.N2Nat.id m) in *.
  assert (K : (N.to_nat m < 10)%nat) by lia.
  destruct (N.to_nat m) as [|[|[|[|[|[|[|[|[|[|k]]]]]]]]]];
    try (vm_compute; split; reflexivity).
  lia.
Qed.

Lemma uint_digits_digits (fuel : nat) :
  forall n acc,
    all_in cls_digit acc = true -> all_in cls_digit (uint_digits fuel n acc) = true.
Proof.
  induction fuel as [|fuel IH]; intros n acc H; cbn [uint_digits]; [exact H|].
  assert (D : all_in cls_digit (String (ascii_of_N (48 + n mod 10)) acc) = true).
  { cbn [all_in in_class].
    rewrite (proj1 (digit_char (n mod 10) (N.mod_lt n 10 ltac:(discriminate)))). exact H. }
  destruct (n <? 10)%N; [exact D | exact (IH _ _ D)].
Qed.

Lemma uint_digits_not_empty (fuel : nat) :
  forall n acc,
    (fuel <> 0)%nat \/ IsEmpty acc = false -> IsEmpty (uint_digits fuel n acc) = false.
Proof.
  induction fuel as [|fuel IH]; intros n acc H; cbn [uint_digits].
  - destruct H as [H | H]; [congruence | exact H].
  - destruct (n <? 10)%N; [reflexivity|]. apply IH. right. reflexivity.
Qed.

(** Reading the digits [uint_digits] writes in front of [acc]. *)
Lemma uint_digits_value (fuel : nat) :
  forall n acc v,
    (Z.of_N n < 10 ^ Z.of_nat fuel)%Z ->
    (forall a, digits_value a acc = Some (a * 10 ^ Z.of_nat (String.length acc) + v)%Z) ->
    forall a,
      digits_value a (uint_digits fuel n acc)
      = Some (a * 10 ^ Z.of_nat (String.length (uint_digits fuel n acc))
              + Z.of_N n * 10 ^ Z.of_nat (String.length acc) + v)%Z.
Proof.
  induction fuel as [|fuel IH]; intros n acc v Hn Hacc a; cbn [uint_digits].
  - change (10 ^ Z.of_nat 0)%Z with 1%Z in Hn. rewrite Hacc. f_equal. lia.
  - set (L := String.length acc) in *.
    set (c := ascii_of_N (48 + n mod 10)).
    pose proof (N.mod_lt n 10 ltac:(discriminate)) as Hm.
    destruct (digit_char (n mod 10) Hm) as [Hd Hv]. fold c in Hd, Hv.
    assert (P : (10 ^ Z.of_nat (S L) = 10 * 10 ^ Z.of_nat L)%Z).
    { rewrite Nat2Z.inj_succ, Z.pow_succ_r by lia. reflexivity. }
    assert (D : forall a,
               digits_value a (String c acc)
               = Some (a * 10 ^ Z.of_nat (String.length (String c acc))
                       + (Z.of_N (n mod 10) * 10 ^ Z.of_nat L + v))%Z).
    { intros b. cbn [digits_value String.length]. rewrite Hd, Hv, Hacc. fold L.
      rewrite P. f_equal. ring. }
    destruct (n <? 10)%N eqn:E.
    + apply N.ltb_lt in E. rewrite D. rewrite (N.mod_small n 10 E). f_equal. ring.
    + apply N.ltb_ge in E.
      assert (Hq : (Z.of_N (n / 10) < 10 ^ Z.of_nat fuel)%Z).
      { rewrite N2Z.inj_div. apply Z.div_lt_upper_bound; [lia|].
        rewrite Nat2Z.inj_succ, Z.pow_succ_r in Hn by lia. exact Hn. }
      rewrite (IH (n / 10)%N (String c acc) _ Hq D a). f_equal.
      cbn [String.length]. fold L. rewrite P.
      pose proof (N.div_mod n 10 ltac:(discriminate)) as Q.
      assert (Qz : Z.of_N n = (10 * Z.of_N (n / 10) + Z.of_N (n mod 10))%Z) by lia.
      set (q := Z.of_N (n / 10)) in *. set (m := Z.of_N (n mod 10)) in *.
      set (T := (10 ^ Z.of_nat L)%Z). set (U := (10 ^ Z.of_nat _)%Z).
      rewrite Qz. ring.
Qed.

Lemma pos_size_bound (p : positive) :
  (Z.of_N (Npos p) < 10 ^ Z.of_nat (Pos.to_nat (Pos.size p)))%Z.
Proof.
  rewrite positive_nat_Z. cbn [Z.of_N].
  pose proof (Pos.size_gt p) as H.
  assert (H2 : (Z.pos p < 2 ^ Z.pos (Pos.size p))%Z).
  { rewrite <- Pos2Z.inj_pow. lia. }
  assert (H3 : (2 ^ Z.pos (Pos.size p) <= 10 ^ Z.pos (Pos.size p))%Z).
  { apply Z.pow_le_mono_l. lia. }
  lia.
Qed.

(** The digits written for a positive number: a run of digits that reads
    back as the number. *)
Lemma digits_of_positive (p : positive) :
  let ds := uint_digits (Pos.to_nat (Pos.size p)) (Npos p) "" in
  is_ident cls_digit ds = true /\ digits_value 0 ds = Some (Z.pos p).
Proof.
  cbv zeta. split.
  - unfold is_ident. rewrite uint_digits_digits by reflexivity.
    rewrite uint_digits_not_empty; [reflexivity|]. left.
    pose proof (Pos2Nat.is_pos (Pos.size p)). lia.
  - rewrite (uint_digits_value _ _ "" 0 (pos_size_bound p)).
    + f_equal. cbn [String.length Z.of_nat Z.of_N]. change (10 ^ 0)%Z with 1%Z. lia.
    + intros a. cbn [digits_value String.length Z.of_nat]. f_equal.
      change (10 ^ 0)%Z with 1%Z. lia.
Qed.

Lemma digit_not_space (c : ascii) : wxIsdigit c = true -> wxIsspace c = false.
Proof. destruct c as [[] [] [] [] [] [] [] []]; vm_compute; congruence. Qed.

Lemma digit_not_sign (c : ascii) : wxIsdigit c = true -> in_class cls_sign c = false.
Proof. destruct c as [[] [] [] [] [] [] [] []]; vm_compute; congruence. Qed.

Lemma ToLong_unsigned (ds : string) (v : Z) :
  is_ident cls_digit ds = true -> digits_value 0 ds = Some v ->
  (LONG_MIN <= v <= LONG_MAX)%Z ->
  ToLong ds = Some v.
Proof.
  intros Hi Hv Hr. destruct ds as [|c r]; [discriminate|].
  unfold is_ident in Hi. cbn [IsEmpty negb andb all_in in_class] in Hi.
  apply andb_true_iff in Hi as [Hc _].
  unfold ToLong. cbn [trim_left]. rewrite (digit_not_space c Hc).
  assert (R : (LONG_MIN <=? v)%Z && (v <=? LONG_MAX)%Z = true).
  { apply andb_true_iff. split; apply Z.leb_le; lia. }
  destruct c as [[] [] [] [] [] [] [] []]; try discriminate Hc;
    cbv beta iota zeta; rewrite Hv; cbn [IsEmpty]; rewrite R; reflexivity.
Qed.

Lemma ToLong_negative (ds : string) (v : Z) :
  is_ident cls_digit ds = true -> digits_value 0 ds = Some v ->
  (LONG_MIN <= - v <= LONG_MAX)%Z ->
  ToLong (String "-" ds) = Some (- v)%Z.
Proof.
  intros Hi Hv Hr. unfold ToLong. cbn [trim_left].
  change (wxIsspace "-") with false. cbv beta iota zeta.
  unfold is_ident in Hi. apply andb_true_iff in Hi as [He _].
  destruct (IsEmpty ds); [discriminate|]. rewrite Hv.
  assert (R : (LONG_MIN <=? - v)%Z && (- v <=? LONG_MAX)%Z = true).
  { apply andb_true_iff. split; apply Z.leb_le; lia. }
  rewrite R. reflexivity.
Qed.

(** [%d] and [ToLong] are inverse on the range of a [long]. *)
Lemma ToLong_format_d (v : Z) :
  (LONG_MIN <= v <= LONG_MAX)%Z -> ToLong (format_d v) = Some v.
Proof.
  intros Hr. destruct v as [|p|p]; [reflexivity| |]; cbn [format_d];
    destruct (digits_of_positive p) as [Hi Hv].
  - apply ToLong_unsigned; assumption.
  - change (Z.neg p) with (- Z.pos p)%Z. apply ToLong_negative; assumption.
Qed.

Lemma static_cast_int_small (v : Z) :
  (- 2 ^ 31 <= v < 2 ^ 31)%Z -> static_cast_int v = v.
Proof.
  intros H. unfold static_cast_int. rewrite Z.mod_small; lia.
Qed.

(* ================================================================== *)
(** * Commands with numbers                                             *)
(* ================================================================== *)

Lemma rep_stops (k : cclass) (s : string) (caps : captures) (kont : cont) :
  stops k s = true -> rep k s caps kont = kont s caps.
Proof.
  destruct s as [|a s]; [reflexivity|]. cbn [stops rep].
  destruct (in_class k a); [discriminate | reflexivity].
Qed.

Lemma exec_no_space (R : regex) (s : string) (caps : captures) (kont : cont) :
  stops cls_space s = true ->
  exec true (re_seq sp_star R) s caps kont = exec true R s caps kont.
Proof. intros H. cbn [exec sp_star]. apply rep_stops, H. Qed.

(** A captured identifier that ends the pattern. *)
Lemma exec_ident_last (n : nat) (k : cclass) (w r : string)
    (caps : captures) (kont : cont) (x : captures) :
  is_ident k w = true -> stops k r = true ->
  kont r ((n, w) :: caps) = Some x ->
  exec true (re_group n (re_plus k)) (w ++ r) caps kont = Some x.
Proof.
  unfold is_ident. intros Hw Hr Hk. destruct w as [|c w]; [discriminate|].
  simpl in Hw. apply andb_true_iff in Hw as [Hc Hw].
  cbn [exec String.append]. rewrite Hc.
  apply rep_greedy; auto.
  change (String c (w ++ r)) with (String c w ++ r). rewrite consumed_app. exact Hk.
Qed.

(** A captured run of digits as [[+-]?\d+] reads it. *)
Lemma exec_digits (n : nat) (ds r : string) (caps : captures) (kont : cont)
    (x : captures) :
  is_ident cls_digit ds = true -> stops cls_digit r = true ->
  kont r ((n, ds) :: caps) = Some x ->
  exec true (re_group n signed_number) (ds ++ r) caps kont = Some x.
Proof.
  unfold is_ident. intros Hw Hr Hk. destruct ds as [|c w]; [discriminate|].
  cbn [IsEmpty negb andb all_in] in Hw. apply andb_true_iff in Hw as [Hc Hw].
  cbn [exec signed_number String.append]. rewrite (digit_not_sign c Hc).
  cbn [in_class] in Hc |- *. rewrite Hc.
  rewrite (rep_greedy cls_digit w r caps _ x Hw Hr); [reflexivity|].
  change (String c (w ++ r)) with (String c w ++ r). rewrite consumed_app. exact Hk.
Qed.

Lemma exec_minus_digits (n : nat) (ds r : string) (caps : captures) (kont : cont)
    (x : captures) :
  is_ident cls_digit ds = true -> stops cls_digit r = true ->
  kont r ((n, String "-" ds) :: caps) = Some x ->
  exec true (re_group n signed_number) (String "-" ds ++ r) caps kont = Some x.
Proof.
  unfold is_ident. intros Hw Hr Hk. destruct ds as [|c w]; [discriminate|].
  cbn [IsEmpty negb andb all_in] in Hw. apply andb_true_iff in Hw as [Hc Hw].
  cbn [exec signed_number String.append].
  change (in_class cls_sign "-") with true. cbv iota.
  cbn [in_class] in Hc |- *. rewrite Hc.
  rewrite (rep_greedy cls_digit w r caps _ x Hw Hr); [reflexivity|].
  change (String "-" (String c (w ++ r))) with (String "-" (String c w) ++ r).
  rewrite consumed_app. exact Hk.
Qed.

(** A number written with [%d], captured. *)
Lemma exec_format_d (n : nat) (v : Z) (r : string) (caps : captures) (kont : cont)
    (x : captures) :
  stops cls_digit r = true ->
  kont r ((n, format_d v) :: caps) = Some x ->
  exec true (re_group n signed_number) (format_d v ++ r) caps kont = Some x.
Proof.
  intros Hr Hk. destruct v as [|p|p]; cbn [format_d] in *.
  - apply (exec_digits n "0"); auto.
  - apply exec_digits; auto. apply digits_of_positive.
  - apply exec_minus_digits; auto. apply digits_of_positive.
Qed.

Lemma format_d_stops_space (v : Z) (r : string) :
  stops cls_space (format_d v ++ r) = true.
Proof.
  destruct v as [|p|p]; cbn [format_d]; try reflexivity.
  destruct (digits_of_positive p) as [Hi _]. cbv zeta in Hi.
  destruct (uint_digits _ _ _) as [|c w]; [discriminate|].
  unfold is_ident in Hi. cbn [IsEmpty negb andb all_in in_class] in Hi.
  apply andb_true_iff in Hi as [Hc _].
  cbn [String.append stops in_class]. rewrite (digit_not_space c Hc). reflexivity.
Qed.

Lemma format_d_free_of_colon (v : Z) : free_of ":" (format_d v) = true.
Proof.
  assert (D : forall s, all_in cls_digit s = true -> free_of ":" s = true).
  { intros s H. apply all_word_free_of_colon.
    induction s as [|c s IH]; [reflexivity|]. cbn [all_in in_class] in H |- *.
    apply andb_true_iff in H as [Hc Hs]. rewrite (IH Hs), andb_true_r.
    unfold is_word. rewrite Hc. destruct (wxIsupper c || wxIslower c); reflexivity. }
  destruct v as [|p|p]; cbn [format_d]; try reflexivity;
    destruct (digits_of_positive p) as [Hi _]; unfold is_ident in Hi;
    apply andb_true_iff in Hi as [_ Hi]; cbn [free_of]; rewrite (D _ Hi); reflexivity.
Qed.

(** The coordinate clause [ at x,y], with the numbers as [%d] writes
    them. *)
Lemma exec_at_clause (gx gy : nat) (x y : Z) (caps : captures) :
  exec true (re_at gx gy) (" at " ++ format_d x ++ "," ++ format_d y) caps
       (fun _ c => Some c)
  = Some ((gy, format_d y) :: (gx, format_d x) :: caps).
Proof.
  unfold re_at. cbn [seqs].
  assert (E : exec true
                (re_seq sp_plus (re_seq (lit "at") (re_seq sp_plus
                   (re_seq (re_group gx signed_number) (re_seq sp_star
                      (re_seq (re_chr ",") (re_seq sp_star
                         (re_group gy signed_number))))))))
                (" at " ++ format_d x ++ "," ++ format_d y) caps (fun _ c => Some c)
              = Some ((gy, format_d y) :: (gx, format_d x) :: caps)).
  { change (" at " ++ format_d x ++ "," ++ format_d y)
      with (" " ++ "at" ++ " " ++ format_d x ++ "," ++ format_d y).
    rewrite exec_one_space by reflexivity.
    change (exec true (re_seq (lit "at") ?X) ("at" ++ ?t) ?c ?k) with (exec true X t c k).
    rewrite exec_one_space by apply format_d_stops_space.
    change (exec true (re_seq ?G ?X) ?t ?c ?k)
      with (exec true G t c (fun s' c' => exec true X s' c' k)).
    apply exec_format_d; [reflexivity|].
    rewrite exec_no_space by reflexivity.
    change (exec true (re_seq (re_chr ",") ?X) ("," ++ ?t) ?c ?k) with (exec true X t c k).
    rewrite exec_no_space
      by (rewrite <- (append_empty_r (format_d y)); apply format_d_stops_space).
    rewrite <- (append_empty_r (format_d y)) at 1.
    apply exec_format_d; reflexivity. }
  cbn [exec] in E |- *. rewrite E. reflexivity.
Qed.

Lemma store_position_format_d (x y : Z) (aPosition : VECTOR2I) :
  (INT_MIN <= x <= INT_MAX)%Z -> (INT_MIN <= y <= INT_MAX)%Z ->
  store_position (format_d x) (format_d y) aPosition = mkVECTOR2I x y.
Proof.
  unfold INT_MIN, INT_MAX. intros Hx Hy. unfold store_position.
  rewrite !ToLong_format_d by (unfold LONG_MIN, LONG_MAX; lia).
  rewrite !static_cast_int_small by lia. reflexivity.
Qed.

(** The command with a coordinate clause, as the parser reads it. *)
Lemma parse_name_at (n : component_name) (x y : Z) (aPosition : VECTOR2I) :
  well_formed n = true ->
  (INT_MIN <= x <= INT_MAX)%Z -> (INT_MIN <= y <= INT_MAX)%Z ->
  parseAddComponent
    ("add component " ++ name_text n ++ " at " ++ format_d x ++ "," ++ format_d y)
    aPosition
  = Some (name_text n, mkVECTOR2I x y).
Proof.
  intros Hn Hx Hy. unfold parseAddComponent.
  destruct n as [lib sym | sym]; cbn [name_text well_formed] in *.
  - apply andb_true_iff in Hn as [Hl Hs].
    rewrite !append_assoc_s.
    rewrite (Matches_lib_sym lib sym (" at " ++ format_d x ++ "," ++ format_d y)
               [(4, format_d y); (3, format_d x); (2, sym); (1, lib)] Hl Hs eq_refl
               (exec_at_clause 3 4 x y _)).
    cbn [GetMatch Nat.eqb]. change (5 <=? GetMatchCount re_add_component_lib)%nat with true.
    cbv iota. rewrite (store_position_format_d x y aPosition Hx Hy). reflexivity.
  - assert (Hfree : free_of ":" ("add component " ++ sym ++ " at " ++ format_d x ++ ","
                                   ++ format_d y) = true).
    { unfold is_ident in Hn. apply andb_true_iff in Hn as [_ Hn].
      rewrite !free_of_app, (all_word_free_of_colon sym Hn), !format_d_free_of_colon.
      reflexivity. }
    rewrite (Matches_lib_none _ Hfree).
    rewrite (Matches_bare_sym sym (" at " ++ format_d x ++ "," ++ format_d y)
               [(3, format_d y); (2, format_d x); (1, sym)] Hn eq_refl
               (exec_at_clause 2 3 x y _)).
    cbn [GetMatch Nat.eqb]. change (4 <=? GetMatchCount re_add_component_bare)%nat with true.
    cbv iota. rewrite (store_position_format_d x y aPosition Hx Hy). reflexivity.
Qed.

(** The command without a coordinate clause leaves the position alone. *)
Lemma parse_name_alone (n : component_name) (aPosition : VECTOR2I) :
  well_formed n = true ->
  parseAddComponent ("add component " ++ name_text n) aPosition
  = Some (name_text n, aPosition).
Proof.
  intros Hn. unfold parseAddComponent.
  destruct n as [lib sym | sym]; cbn [name_text well_formed] in *.
  - apply andb_true_iff in Hn as [Hl Hs].
    rewrite <- (append_empty_r sym) at 1.
    rewrite (Matches_lib_sym lib sym "" [(2, sym); (1, lib)] Hl Hs eq_refl eq_refl).
    reflexivity.
  - assert (Hfree : free_of ":" ("add component " ++ sym) = true).
    { unfold is_ident in Hn. apply andb_true_iff in Hn as [_ Hn].
      rewrite !free_of_app, (all_word_free_of_colon sym Hn). reflexivity. }
    rewrite (Matches_lib_none _ Hfree).
    rewrite <- (append_empty_r sym) at 1.
    rewrite (Matches_bare_sym sym "" [(1, sym)] Hn eq_refl eq_refl). reflexivity.
Qed.

(** X16. [parseAddComponent] reads the coordinates of a command exactly.
    For a well-formed name, with or without a library, and any two numbers
    of the range of an [int] written in decimal, the command
    [add component <name> at <x>,<y>] parses to that name and to the
    position (x, y), whatever the position was before; without the
    coordinate clause it parses to the name and leaves the position as it
    was. *)
Theorem coordinates_are_read (n : component_name) (x y : Z) (aPosition : VECTOR2I) :
  well_formed n = true ->
  (INT_MIN <= x <= INT_MAX)%Z -> (INT_MIN <= y <= INT_MAX)%Z ->
  parseAddComponent
    ("add component " ++ name_text n ++ " at " ++ format_d x ++ "," ++ format_d y)
    aPosition
  = Some (name_text n, mkVECTOR2I x y) /\
  parseAddComponent ("add component " ++ name_text n) aPosition
  = Some (name_text n, aPosition).
Proof.
  intros Hn Hx Hy. split.
  - apply parse_name_at; assumption.
  - apply parse_name_alone, Hn.
Qed.

Lemma coordinates_are_read_witness :
  parseAddComponent "add component Device:R at -2540,100000" (mkVECTOR2I 7 7)
  = Some ("Device:R", mkVECTOR2I (-2540) 100000) /\
  parseAddComponent "add component Device:R" (mkVECTOR2I 7 7)
  = Some ("Device:R", mkVECTOR2I 7 7).
Proof.
  apply (coordinates_are_read (lib_sym "Device" "R") (-2540) 100000 (mkVECTOR2I 7 7));
    first [reflexivity | unfold INT_MIN, INT_MAX; lia].
Defined.

(** X17. In the schematic editor, a command
    [add component <name> at <x>,<y>] whose coordinates are not both zero
    and that succeeds has put one symbol on the screen, at (x, y), and
    reports the name and the same two numbers. *)
Theorem placed_at_commanded_position
    (p p' : AI_COMMAND_PROCESSOR) (schFrame : SCH_EDIT_FRAME) (prj : PROJECT)
    (n : component_name) (x y : Z) (r : AI_COMMAND_RESULT) :
  m_frame p = Some (mkFRAME (is_SCH_EDIT_FRAME schFrame) prj) ->
  well_formed n = true ->
  (INT_MIN <= x <= INT_MAX)%Z -> (INT_MIN <= y <= INT_MAX)%Z ->
  x <> 0%Z \/ y <> 0%Z ->
  processSchematicCommand p
    ("add component " ++ name_text n ++ " at " ++ format_d x ++ "," ++ format_d y)
  = (r, p') ->
  success r = true ->
  message r = "Added component '" ++ name_text n ++ "' at (" ++ format_d x ++ ", "
                ++ format_d y ++ ")" /\
  exists s,
    sym_Position s = mkVECTOR2I x y /\
    screen_of p' = (screen_of p ++ [item_symbol s])%list /\
    commits_of p' = (commits_of p ++ ["Place Symbol"])%list.
Proof.
  intros Hf Hn Hx Hy Hxy.
  unfold processSchematicCommand. rewrite Hf. cbn [frame_obj Prj].
  pose proof (is_add_component_text
                (name_text n ++ " at " ++ format_d x ++ "," ++ format_d y)) as Hadd.
  unfold is_add_component in Hadd. rewrite Hadd.
  rewrite (parse_name_at n x y (mkVECTOR2I 0 0) Hn Hx Hy). cbn [vx vy].
  assert (Hp : negb (negb (x =? 0)%Z || negb (y =? 0)%Z) = false).
  { destruct Hxy as [H | H]; apply Z.eqb_neq in H; rewrite H; cbn [negb orb];
      rewrite ?orb_true_r; reflexivity. }
  rewrite Hp.
  assert (Hplace : forall libId,
             place_and_report p (name_text n) libId (mkVECTOR2I x y) = (r, p') ->
             success r = true ->
             message r = "Added component '" ++ name_text n ++ "' at (" ++ format_d x
                           ++ ", " ++ format_d y ++ ")" /\
             exists s, sym_Position s = mkVECTOR2I x y /\
                       screen_of p' = (screen_of p ++ [item_symbol s])%list /\
                       commits_of p' = (commits_of p ++ ["Place Symbol"])%list).
  { intros libId H Hs.
    destruct (place_and_report_placed _ _ _ _ _ _ _ _ Hf H Hs)
      as [Hm [adapter [row [s [_ [_ [_ [_ [Hpos [Hscr Hcom]]]]]]]]]].
    split; [exact Hm|]. exists s. auto. }
  destruct (Contains (name_text n) ":").
  - destruct (SymbolLibAdapter prj) as [adapter|].
    + destruct (IsEmpty (find_actualLibName (Rows_BOTH_all adapter)
                           (BeforeFirst (name_text n) ":"))).
      * intros H Hs. injection H as <- <-. discriminate Hs.
      * apply Hplace.
    + apply Hplace.
  - destruct (findSymbolByName p (name_text n) (mkLIB_ID "" "")) as [[|] libId].
    + apply Hplace.
    + intros H Hs. injection H as <- <-. discriminate Hs.
Qed.

Lemma placed_at_commanded_position_witness :
  exists r p' s,
    processSchematicCommand sample_processor "add component Device:R at -2540,0" = (r, p') /\
    message r = "Added component 'Device:R' at (-2540, 0)" /\
    sym_Position s = mkVECTOR2I (-2540) 0 /\
    screen_of p' = (screen_of sample_processor ++ [item_symbol s])%list /\
    commits_of p' = (commits_of sample_processor ++ ["Place Symbol"])%list.
Proof.
  destruct (processSchematicCommand sample_processor "add component Device:R at -2540,0")
    as [r p'] eqn:E.
  assert (Hs : success r = true).
  { apply (f_equal (fun q => success (fst q))) in E. vm_compute in E. symmetry. exact E. }
  destruct (placed_at_commanded_position sample_processor p' (sample_sch [])
              (sample_project (Some sample_adapter)) (lib_sym "Device" "R") (-2540) 0 r
              eq_refl eq_refl ltac:(unfold INT_MIN, INT_MAX; lia)
              ltac:(unfold INT_MIN, INT_MAX; lia) ltac:(left; discriminate) E Hs)
    as [Hm [s H]].
  exists r, p', s. split; [reflexivity|]. split; [exact Hm | exact H].
Defined.

Lemma format_d_digits (v : Z) : (0 <= v)%Z -> is_ident cls_digit (format_d v) = true.
Proof.
  intros H. destruct v as [|p|p]; [reflexivity | apply digits_of_positive | lia].
Qed.

(** The text of a trace command up to its optional width clause. *)
Lemma exec_add_trace (x1 y1 x2 y2 : Z) (tail : string) (x : captures) :
  (0 <= x1)%Z -> (0 <= y1)%Z -> (0 <= x2)%Z -> (0 <= y2)%Z ->
  stops cls_digit tail = true ->
  exec true (re_opt (seqs [sp_plus; lit "width"; sp_plus; re_group 5 (re_plus cls_digit)]))
       tail [(4, format_d y2); (3, format_d x2); (2, format_d y1); (1, format_d x1)]
       (fun _ c => Some c) = Some x ->
  Matches true re_add_trace
    ("add trace from " ++ format_d x1 ++ "," ++ format_d y1 ++ " to " ++ format_d x2
       ++ "," ++ format_d y2 ++ tail)
  = Some x.
Proof.
  intros H1 H2 H3 H4 Ht Hx. apply Matches_at_start.
  unfold re_add_trace. cbn [seqs].
  change ("add trace from " ++ ?t) with ("add" ++ " " ++ "trace" ++ " " ++ "from" ++ " " ++ t).
  change (exec true (re_seq (lit "add") ?X) ("add" ++ ?t) ?c ?k) with (exec true X t c k).
  rewrite exec_one_space by reflexivity.
  change (exec true (re_seq (lit "trace") ?X) ("trace" ++ ?t) ?c ?k)
    with (exec true X t c k).
  rewrite exec_one_space by reflexivity.
  change (exec true (re_seq (lit "from") ?X) ("from" ++ ?t) ?c ?k) with (exec true X t c k).
  rewrite exec_one_space by apply format_d_stops_space.
  apply exec_ident; [apply format_d_digits, H1 | reflexivity |].
  rewrite exec_no_space by reflexivity.
  change (exec true (re_seq (re_chr ",") ?X) ("," ++ ?t) ?c ?k) with (exec true X t c k).
  rewrite exec_no_space by apply format_d_stops_space.
  apply exec_ident; [apply format_d_digits, H2 | reflexivity |].
  change (" to " ++ ?t) with (" " ++ "to" ++ " " ++ t).
  rewrite exec_one_space by reflexivity.
  change (exec true (re_seq (lit "to") ?X) ("to" ++ ?t) ?c ?k) with (exec true X t c k).
  rewrite exec_one_space by apply format_d_stops_space.
  apply exec_ident; [apply format_d_digits, H3 | reflexivity |].
  rewrite exec_no_space by reflexivity.
  change (exec true (re_seq (re_chr ",") ?X) ("," ++ ?t) ?c ?k) with (exec true X t c k).
  rewrite exec_no_space by apply format_d_stops_space.
  apply exec_ident; [apply format_d_digits, H4 | exact Ht | exact Hx].
Qed.

Lemma exec_width_clause (w : Z) (caps : captures) :
  (0 <= w)%Z ->
  exec true (re_opt (seqs [sp_plus; lit "width"; sp_plus; re_group 5 (re_plus cls_digit)]))
       (" width " ++ format_d w) caps (fun _ c => Some c)
  = Some ((5, format_d w) :: caps).
Proof.
  intros Hw. cbn [seqs].
  assert (E : exec true
                (re_seq sp_plus (re_seq (lit "width") (re_seq sp_plus
                   (re_group 5 (re_plus cls_digit)))))
                (" width " ++ format_d w) caps (fun _ c => Some c)
              = Some ((5, format_d w) :: caps)).
  { change (" width " ++ format_d w) with (" " ++ "width" ++ " " ++ format_d w).
    rewrite exec_one_space by reflexivity.
    change (exec true (re_seq (lit "width") ?X) ("width" ++ ?t) ?c ?k)
      with (exec true X t c k).
    change (exec true (re_seq sp_plus ?G) ?t ?c ?k)
      with (exec true (re_seq sp_plus (re_seq G re_eps)) t c k).
    rewrite exec_one_space
      by (rewrite <- (append_empty_r (format_d w)); apply format_d_stops_space).
    rewrite <- (append_empty_r (format_d w)) at 1.
    apply exec_ident; [apply format_d_digits, Hw | reflexivity | reflexivity]. }
  cbn [exec] in E |- *. rewrite E. reflexivity.
Qed.

Lemma parse_trace_width (x1 y1 x2 y2 w aWidth : Z) :
  (0 <= x1 <= INT_MAX)%Z -> (0 <= y1 <= INT_MAX)%Z ->
  (0 <= x2 <= INT_MAX)%Z -> (0 <= y2 <= INT_MAX)%Z -> (0 <= w <= INT_MAX)%Z ->
  parseAddTrace
    ("add trace from " ++ format_d x1 ++ "," ++ format_d y1 ++ " to " ++ format_d x2
       ++ "," ++ format_d y2 ++ " width " ++ format_d w) aWidth
  = Some (mkVECTOR2I x1 y1, mkVECTOR2I x2 y2, w).
Proof.
  unfold INT_MAX. intros H1 H2 H3 H4 Hw.
  assert (T : forall v, (0 <= v <= 2 ^ 31 - 1)%Z -> ToLong (format_d v) = Some v).
  { intros v Hv. apply ToLong_format_d. unfold LONG_MIN, LONG_MAX. lia. }
  assert (C : forall v, (0 <= v <= 2 ^ 31 - 1)%Z -> static_cast_int v = v).
  { intros v Hv. apply static_cast_int_small. lia. }
  unfold parseAddTrace.
  rewrite (exec_add_trace x1 y1 x2 y2 (" width " ++ format_d w) _
             (proj1 H1) (proj1 H2) (proj1 H3) (proj1 H4) eq_refl
             (exec_width_clause w _ (proj1 Hw))).
  cbn [GetMatch Nat.eqb]. rewrite !T by assumption. rewrite !C by assumption.
  change (6 <=? GetMatchCount re_add_trace)%nat with true.
  pose proof (format_d_digits w (proj1 Hw)) as D. unfold is_ident in D.
  apply andb_true_iff in D as [D _]. rewrite D. reflexivity.
Qed.

(** X18. [parseAddTrace] reads the numbers of a trace command exactly.  For
    coordinates and a width that are not negative and fit an [int], written
    in decimal, [add trace from x1,y1 to x2,y2 width w] parses to the two
    points and the width; without the width clause the width is 0, whatever
    width was passed in. *)
Theorem trace_numbers_are_read (x1 y1 x2 y2 w aWidth : Z) :
  (0 <= x1 <= INT_MAX)%Z -> (0 <= y1 <= INT_MAX)%Z ->
  (0 <= x2 <= INT_MAX)%Z -> (0 <= y2 <= INT_MAX)%Z -> (0 <= w <= INT_MAX)%Z ->
  parseAddTrace
    ("add trace from " ++ format_d x1 ++ "," ++ format_d y1 ++ " to " ++ format_d x2
       ++ "," ++ format_d y2 ++ " width " ++ format_d w) aWidth
  = Some (mkVECTOR2I x1 y1, mkVECTOR2I x2 y2, w) /\
  parseAddTrace
    ("add trace from " ++ format_d x1 ++ "," ++ format_d y1 ++ " to " ++ format_d x2
       ++ "," ++ format_d y2) aWidth
  = Some (mkVECTOR2I x1 y1, mkVECTOR2I x2 y2, 0%Z).
Proof.
  unfold INT_MAX. intros H1 H2 H3 H4 Hw.
  assert (T : forall v, (0 <= v <= 2 ^ 31 - 1)%Z -> ToLong (format_d v) = Some v).
  { intros v Hv. apply ToLong_format_d. unfold LONG_MIN, LONG_MAX. lia. }
  assert (C : forall v, (0 <= v <= 2 ^ 31 - 1)%Z -> static_cast_int v = v).
  { intros v Hv. apply static_cast_int_small. lia. }
  split.
  - apply parse_trace_width; unfold INT_MAX; assumption.
  - unfold parseAddTrace. rewrite <- (append_empty_r (format_d y2)) at 1.
    rewrite (exec_add_trace x1 y1 x2 y2 "" _
               (proj1 H1) (proj1 H2) (proj1 H3) (proj1 H4) eq_refl eq_refl).
    cbn [GetMatch Nat.eqb]. rewrite !T by assumption. rewrite !C by assumption.
    reflexivity.
Qed.

Lemma trace_numbers_are_read_witness :
  parseAddTrace "add trace from 0,0 to 100,100 width 10" 7
  = Some (mkVECTOR2I 0 0, mkVECTOR2I 100 100, 10%Z) /\
  parseAddTrace "add trace from 0,0 to 100,100" 7
  = Some (mkVECTOR2I 0 0, mkVECTOR2I 100 100, 0%Z).
Proof.
  apply (trace_numbers_are_read 0 0 100 100 10 7); unfold INT_MAX; lia.
Defined.

(* ================================================================== *)
(** * Connect commands                                                  *)
(* ================================================================== *)

Lemma rep_none_chr (ch : ascii) (k : cclass) (s : string) :
  forall caps kont,
    free_of ch s = true ->
    (forall t c, free_of ch t = true -> kont t c = None) ->
    rep k s caps kont = None.
Proof.
  induction s as [|a s IH]; intros caps kont Hs Hk; cbn [rep].
  - apply Hk, Hs.
  - destruct (free_of_tail _ _ _ Hs) as [_ Hs'].
    destruct (in_class k a); [rewrite (IH caps kont Hs' Hk)|]; apply Hk, Hs.
Qed.

(** On text without the character [ch] a pattern can only hand text without
    it to what follows. *)
Lemma exec_none_chr (ch : ascii) (r : regex) :
  forall s caps kont,
    free_of ch s = true ->
    (forall t c, free_of ch t = true -> kont t c = None) ->
    exec true r s caps kont = None.
Proof.
  induction r as [|c0|k|r1 IH1 r2 IH2|r1 IH1 r2 IH2|k|k|r1 IH1|n r1 IH1];
    intros s caps kont Hs Hk; cbn [exec].
  - apply Hk, Hs.
  - destruct s as [|a s]; [reflexivity|]. destruct (free_of_tail _ _ _ Hs) as [_ Hs'].
    destruct (Ascii.eqb (wxTolower a) (wxTolower c0)); [apply Hk, Hs' | reflexivity].
  - destruct s as [|a s]; [reflexivity|]. destruct (free_of_tail _ _ _ Hs) as [_ Hs'].
    destruct (in_class k a); [apply Hk, Hs' | reflexivity].
  - apply IH1; [exact Hs|]. intros t c Ht. apply IH2; assumption.
  - rewrite (IH1 s caps kont Hs Hk). apply IH2; assumption.
  - apply rep_none_chr with (ch := ch); assumption.
  - destruct s as [|a s]; [reflexivity|]. destruct (free_of_tail _ _ _ Hs) as [_ Hs'].
    destruct (in_class k a); [apply rep_none_chr with (ch := ch); assumption | reflexivity].
  - rewrite (IH1 s caps kont Hs Hk). apply Hk, Hs.
  - apply IH1; [exact Hs|]. intros t c Ht. apply Hk, Ht.
Qed.

Lemma tolower_dot (a : ascii) :
  Ascii.eqb a "." = false -> Ascii.eqb (wxTolower a) (wxTolower ".") = false.
Proof. destruct a as [[] [] [] [] [] [] [] []]; vm_compute; congruence. Qed.

(** The dotted pattern needs a dot: it matches nowhere in text without
    one. *)
Lemma Matches_dot_none (s : string) :
  free_of "." s = true -> Matches true re_connect_dot s = None.
Proof.
  assert (Q : forall X K t caps kont,
             free_of "." t = true ->
             (forall u c, free_of "." u = true -> exec true K u c kont = None) ->
             exec true (re_seq X K) t caps kont = None).
  { intros X K t caps kont Ht HK. cbn [exec]. apply exec_none_chr with (ch := "."%char);
      assumption. }
  assert (E : forall t caps kont,
             free_of "." t = true -> exec true re_connect_dot t caps kont = None).
  { intros t caps kont Ht. unfold re_connect_dot. cbn [seqs].
    do 3 (apply Q; [assumption | clear t caps Ht; intros t caps Ht]).
    destruct t as [|a u]; [reflexivity|]. cbn [exec].
    destruct (free_of_tail _ _ _ Ht) as [Ha _]. rewrite (tolower_dot a Ha). reflexivity. }
  induction s as [|a s IH]; intros Hs; cbn [Matches];
    rewrite (E _ [] (fun _ caps => Some caps) Hs); [reflexivity|].
  destruct (free_of_tail _ _ _ Hs) as [_ Hs']. exact (IH Hs').
Qed.

Lemma word_not_dot (c : ascii) : in_class cls_word c = true -> Ascii.eqb c "." = false.
Proof. destruct c as [[] [] [] [] [] [] [] []]; vm_compute; congruence. Qed.

Lemma ident_free_of_dot (w : string) : is_ident cls_word w = true -> free_of "." w = true.
Proof.
  unfold is_ident. intros H. apply andb_true_iff in H as [_ H].
  induction w as [|c w IH]; [reflexivity|]. cbn [all_in] in H.
  apply andb_true_iff in H as [Hc Hw]. cbn [free_of].
  rewrite (word_not_dot c Hc), (IH Hw). reflexivity.
Qed.

Lemma word_not_space (c : ascii) :
  in_class cls_word c = true -> in_class cls_space c = false.
Proof. intros H. apply word_dash_not_space, word_is_word_dash, H. Qed.

(** The verb that opens both connect patterns. *)
Lemma exec_verb (verb : string) (R : regex) (t : string) (caps : captures) (kont : cont)
    (x : captures) :
  verb = "connect" \/ verb = "wire" ->
  exec true R t caps kont = Some x ->
  exec true (re_seq (re_alt (lit "connect") (lit "wire")) R) (verb ++ t) caps kont = Some x.
Proof.
  intros [-> | ->] H.
  - change (exec true (re_seq (re_alt (lit "connect") (lit "wire")) R) ("connect" ++ t)
              caps kont)
      with (match exec true R t caps kont with
            | Some y => Some y
            | None => exec true (lit "wire") ("connect" ++ t) caps
                        (fun s' c' => exec true R s' c' kont)
            end).
    rewrite H. reflexivity.
  - change (exec true (re_seq (re_alt (lit "connect") (lit "wire")) R) ("wire" ++ t)
              caps kont)
      with (exec true R t caps kont).
    exact H.
Qed.

(** X19. [parseConnectCommand] reads both ways of writing a connection.
    For a verb [connect] or [wire] and references and pins that are runs of
    letters, digits and underscores, the text [<verb> r1.p1 to r2.p2] and the
    text [<verb> r1 pin p1 to r2 pin p2] both parse to (r1, p1, r2, p2). *)
Theorem connect_forms_are_read (verb r1 p1 r2 p2 : string) :
  verb = "connect" \/ verb = "wire" ->
  is_ident cls_word r1 = true -> is_ident cls_word p1 = true ->
  is_ident cls_word r2 = true -> is_ident cls_word p2 = true ->
  parseConnectCommand (verb ++ " " ++ r1 ++ "." ++ p1 ++ " to " ++ r2 ++ "." ++ p2)
  = Some (r1, p1, r2, p2) /\
  parseConnectCommand
    (verb ++ " " ++ r1 ++ " pin " ++ p1 ++ " to " ++ r2 ++ " pin " ++ p2)
  = Some (r1, p1, r2, p2).
Proof.
  intros Hv Hr1 Hp1 Hr2 Hp2.
  assert (Sp : forall w r, is_ident cls_word w = true -> stops cls_space (w ++ r) = true).
  { intros w r Hw. apply (ident_stops_space cls_word); [exact word_not_space | exact Hw]. }
  split; unfold parseConnectCommand.
  - assert (M : Matches true re_connect_dot
                  (verb ++ " " ++ r1 ++ "." ++ p1 ++ " to " ++ r2 ++ "." ++ p2)
                = Some [(4, p2); (3, r2); (2, p1); (1, r1)]).
    { apply Matches_at_start. unfold re_connect_dot. cbn [seqs].
      apply exec_verb; [exact Hv|].
      rewrite exec_one_space by (apply Sp, Hr1).
      apply exec_ident; [exact Hr1 | reflexivity |].
      change (exec true (re_seq (re_chr ".") ?X) ("." ++ ?t) ?c ?k) with (exec true X t c k).
      apply exec_ident; [exact Hp1 | reflexivity |].
      change (" to " ++ ?t) with (" " ++ "to" ++ " " ++ t).
      rewrite exec_one_space by reflexivity.
      change (exec true (re_seq (lit "to") ?X) ("to" ++ ?t) ?c ?k) with (exec true X t c k).
      rewrite exec_one_space by (apply Sp, Hr2).
      apply exec_ident; [exact Hr2 | reflexivity |].
      change (exec true (re_seq (re_chr ".") ?X) ("." ++ ?t) ?c ?k) with (exec true X t c k).
      rewrite <- (append_empty_r p2) at 1.
      apply exec_ident_last; [exact Hp2 | reflexivity | reflexivity]. }
    rewrite M. reflexivity.
  - assert (F : free_of "."
                  (verb ++ " " ++ r1 ++ " pin " ++ p1 ++ " to " ++ r2 ++ " pin " ++ p2)
                = true).
    { rewrite !free_of_app, (ident_free_of_dot r1 Hr1), (ident_free_of_dot p1 Hp1),
        (ident_free_of_dot r2 Hr2), (ident_free_of_dot p2 Hp2).
      destruct Hv as [-> | ->]; reflexivity. }
    rewrite (Matches_dot_none _ F).
    assert (M : Matches true re_connect_pin
                  (verb ++ " " ++ r1 ++ " pin " ++ p1 ++ " to " ++ r2 ++ " pin " ++ p2)
                = Some [(4, p2); (3, r2); (2, p1); (1, r1)]).
    { apply Matches_at_start. unfold re_connect_pin. cbn [seqs].
      apply exec_verb; [exact Hv|].
      rewrite exec_one_space by (apply Sp, Hr1).
      apply exec_ident; [exact Hr1 | reflexivity |].
      change (" pin " ++ ?t) with (" " ++ "pin" ++ " " ++ t).
      rewrite exec_one_space by reflexivity.
      change (exec true (re_seq (lit "pin") ?X) ("pin" ++ ?t) ?c ?k)
        with (exec true X t c k).
      rewrite exec_one_space by (apply Sp, Hp1).
      apply exec_ident; [exact Hp1 | reflexivity |].
      change (" to " ++ ?t) with (" " ++ "to" ++ " " ++ t).
      rewrite exec_one_space by reflexivity.
      change (exec true (re_seq (lit "to") ?X) ("to" ++ ?t) ?c ?k) with (exec true X t c k).
      rewrite exec_one_space by (apply Sp, Hr2).
      apply exec_ident; [exact Hr2 | reflexivity |].
      change (" pin " ++ ?t) with (" " ++ "pin" ++ " " ++ t).
      rewrite exec_one_space by reflexivity.
      change (exec true (re_seq (lit "pin") ?X) ("pin" ++ ?t) ?c ?k)
        with (exec true X t c k).
      change (exec true (re_seq sp_plus ?G) ?t ?c ?k)
        with (exec true (re_seq sp_plus (re_seq G re_eps)) t c k).
      rewrite exec_one_space by (rewrite <- (append_empty_r p2); apply Sp, Hp2).
      rewrite <- (append_empty_r p2) at 1.
      apply exec_ident; [exact Hp2 | reflexivity | reflexivity]. }
    rewrite M. reflexivity.
Qed.

Lemma connect_forms_are_read_witness :
  parseConnectCommand "wire u1.vout to c2.1" = Some ("u1", "vout", "c2", "1") /\
  parseConnectCommand "wire u1 pin vout to c2 pin 1" = Some ("u1", "vout", "c2", "1").
Proof.
  apply (connect_forms_are_read "wire" "u1" "vout" "c2" "1");
    first [reflexivity | right; reflexivity].
Defined.

(* ================================================================== *)
(** * Symbols asked for by their bare name                              *)
(* ================================================================== *)

Lemma find_name_some (symbolNames : list string) (aSymbolName symName : string) :
  find_name symbolNames aSymbolName = Some symName ->
  In symName symbolNames /\ CmpNoCase symName aSymbolName = Eq.
Proof.
  induction symbolNames as [|n rest IH]; cbn [find_name]; [discriminate|].
  destruct (is_Eq (CmpNoCase n aSymbolName)) eqn:E.
  - intros H. injection H as <-. split; [left; reflexivity|].
    unfold is_Eq in E. destruct (CmpNoCase n aSymbolName); [reflexivity | discriminate..].
  - intros H. destruct (IH H) as [Hi Hc]. split; [right; exact Hi | exact Hc].
Qed.

Lemma find_name_none (symbolNames : list string) (aSymbolName : string) :
  find_name symbolNames aSymbolName = None ->
  forall symName, In symName symbolNames -> CmpNoCase symName aSymbolName <> Eq.
Proof.
  induction symbolNames as [|n rest IH]; cbn [find_name]; intros H symName Hin; [destruct Hin|].
  destruct (is_Eq (CmpNoCase n aSymbolName)) eqn:E; [discriminate|].
  destruct Hin as [<- | Hin]; [|exact (IH H _ Hin)].
  intros Hc. rewrite Hc in E. discriminate.
Qed.

Lemma find_in_rows_some (adapter : SYMBOL_LIBRARY_ADAPTER)
    (libRows : list (option LIBRARY_TABLE_ROW)) (aSymbolName : string) (found : LIB_ID) :
  find_in_rows adapter libRows aSymbolName = Some found ->
  exists row,
    In (Some row) libRows /\ GetLibNickname found = Nickname row /\
    In (GetLibItemName found) (GetSymbolNames adapter (Nickname row)) /\
    CmpNoCase (GetLibItemName found) aSymbolName = Eq.
Proof.
  induction libRows as [|[row|] rest IH]; cbn [find_in_rows]; [discriminate| |].
  - destruct (find_name (GetSymbolNames adapter (Nickname row)) aSymbolName)
      as [symName|] eqn:E.
    + intros H. injection H as <-. destruct (find_name_some _ _ _ E) as [Hi Hc].
      exists row. cbn. split; [left; reflexivity | auto].
    + intros H. destruct (IH H) as [row' [Hin R]]. exists row'. split; [right; exact Hin | exact R].
  - intros H. destruct (IH H) as [row' [Hin R]]. exists row'. split; [right; exact Hin | exact R].
Qed.

Lemma find_in_rows_none (adapter : SYMBOL_LIBRARY_ADAPTER)
    (libRows : list (option LIBRARY_TABLE_ROW)) (aSymbolName : string) :
  find_in_rows adapter libRows aSymbolName = None ->
  forall row symName,
    In (Some row) libRows -> In symName (GetSymbolNames adapter (Nickname row)) ->
    CmpNoCase symName aSymbolName <> Eq.
Proof.
  induction libRows as [|[row|] rest IH]; cbn [find_in_rows]; intros H row' symName Hin Hn.
  - destruct Hin.
  - destruct (find_name (GetSymbolNames adapter (Nickname row)) aSymbolName) eqn:E;
      [discriminate|].
    destruct Hin as [Heq | Hin]; [|exact (IH H _ _ Hin Hn)].
    injection Heq as <-. exact (find_name_none _ _ E _ Hn).
  - destruct Hin as [Heq | Hin]; [discriminate | exact (IH H _ _ Hin Hn)].
Qed.

(** X20. [findSymbolByName] on a name without a colon searches the symbol
    names of the libraries of the table, without regard to case.  It
    answers true exactly when some library lists such a name; the
    identifier it then returns carries the nickname of a table row and the
    name as that library spells it; when it answers false the identifier
    passed in is returned unchanged. *)
Theorem bare_name_lookup (p : AI_COMMAND_PROCESSOR) (fr : EDA_BASE_FRAME)
    (adapter : SYMBOL_LIBRARY_ADAPTER) (aSymbolName : string) (aLibId : LIB_ID) :
  m_frame p = Some fr ->
  SymbolLibAdapter (Prj fr) = Some adapter ->
  Contains aSymbolName ":" = false ->
  let listed :=
    exists row symName,
      In (Some row) (Rows adapter) /\
      In symName (GetSymbolNames adapter (Nickname row)) /\
      CmpNoCase symName aSymbolName = Eq in
  (fst (findSymbolByName p aSymbolName aLibId) = true <-> listed) /\
  (fst (findSymbolByName p aSymbolName aLibId) = true ->
   exists row,
     In (Some row) (Rows adapter) /\
     GetLibNickname (snd (findSymbolByName p aSymbolName aLibId)) = Nickname row /\
     In (GetLibItemName (snd (findSymbolByName p aSymbolName aLibId)))
        (GetSymbolNames adapter (Nickname row)) /\
     CmpNoCase (GetLibItemName (snd (findSymbolByName p aSymbolName aLibId))) aSymbolName
     = Eq) /\
  (fst (findSymbolByName p aSymbolName aLibId) = false ->
   snd (findSymbolByName p aSymbolName aLibId) = aLibId).
Proof.
  intros Hf Ha Hc. cbv zeta. unfold findSymbolByName. rewrite Hf, Ha, Hc.
  destruct (find_in_rows adapter (Rows adapter) aSymbolName) as [found|] eqn:E; cbn [fst snd].
  - destruct (find_in_rows_some _ _ _ _ E) as [row [Hin [Hn [Hl Heq]]]].
    split; [|split].
    + split; [intros _ | reflexivity]. exists row, (GetLibItemName found). auto.
    + intros _. exists row. auto.
    + discriminate.
  - split; [|split].
    + split; [discriminate|]. intros [row [symName [Hin [Hn Heq]]]].
      exfalso. exact (find_in_rows_none _ _ _ E _ _ Hin Hn Heq).
    + discriminate.
    + reflexivity.
Qed.

Lemma bare_name_lookup_witness :
  fst (findSymbolByName sample_processor "lm7805" (mkLIB_ID "" "")) = true /\
  exists row,
    In (Some row) (Rows sample_adapter) /\
    GetLibNickname (snd (findSymbolByName sample_processor "lm7805" (mkLIB_ID "" "")))
    = Nickname row /\
    In (GetLibItemName (snd (findSymbolByName sample_processor "lm7805" (mkLIB_ID "" ""))))
       (GetSymbolNames sample_adapter (Nickname row)) /\
    CmpNoCase (GetLibItemName (snd (findSymbolByName sample_processor "lm7805"
                                      (mkLIB_ID "" "")))) "lm7805" = Eq.
Proof.
  destruct (bare_name_lookup sample_processor
              (mkFRAME (is_SCH_EDIT_FRAME (sample_sch [])) (sample_project (Some sample_adapter)))
              sample_adapter "lm7805" (mkLIB_ID "" "") eq_refl eq_refl eq_refl)
    as [_ [H _]].
  split; [reflexivity | exact (H eq_refl)].
Defined.

Lemma Contains_free (c : ascii) (s : string) :
  free_of c s = true -> Contains s (String c "") = false.
Proof.
  intros H. unfold Contains, Find.
  assert (N : find_str s (String c "") = None).
  { induction s as [|a s IH]; cbn [find_str String.prefix]; [reflexivity|].
    apply free_of_tail in H as [Ha Hs].
    destruct (ascii_dec c a) as [->|]; [rewrite Ascii.eqb_refl in Ha; discriminate|].
    rewrite (IH Hs). reflexivity. }
  rewrite N. reflexivity.
Qed.

(** X21. In the schematic editor, [add component <sym>] for a bare symbol
    name that no library of the table lists, without regard to case, fails
    with the error [Component '<sym>' not found in libraries] and leaves
    the processor and the host as they were. *)
Theorem unknown_bare_name_reported (p : AI_COMMAND_PROCESSOR) (schFrame : SCH_EDIT_FRAME)
    (prj : PROJECT) (adapter : SYMBOL_LIBRARY_ADAPTER) (sym : string) :
  m_frame p = Some (mkFRAME (is_SCH_EDIT_FRAME schFrame) prj) ->
  SymbolLibAdapter prj = Some adapter ->
  is_ident cls_word sym = true ->
  (forall row symName,
     In (Some row) (Rows adapter) -> In symName (GetSymbolNames adapter (Nickname row)) ->
     CmpNoCase symName sym <> Eq) ->
  processSchematicCommand p ("add component " ++ sym)
  = (mkRESULT false "" ("Component '" ++ sym ++ "' not found in libraries"), p).
Proof.
  intros Hf Ha Hs Hnone.
  assert (Hc : Contains sym ":" = false).
  { apply Contains_free, all_word_free_of_colon.
    unfold is_ident in Hs. apply andb_true_iff in Hs as [_ Hs]. exact Hs. }
  unfold processSchematicCommand. rewrite Hf. cbn [frame_obj Prj].
  pose proof (is_add_component_text sym) as Hadd. unfold is_add_component in Hadd.
  rewrite Hadd.
  pose proof (parse_name_alone (bare_sym sym) (mkVECTOR2I 0 0) Hs) as P.
  cbn [name_text] in P. rewrite P, Hc. unfold findSymbolByName. rewrite Hf. cbn [Prj]. rewrite Ha, Hc.
  destruct (find_in_rows adapter (Rows adapter) sym) as [found|] eqn:E; [|reflexivity].
  destruct (find_in_rows_some _ _ _ _ E) as [row [Hin [_ [Hl Heq]]]].
  destruct (Hnone _ _ Hin Hl Heq).
Qed.

Lemma unknown_bare_name_reported_witness :
  processSchematicCommand sample_processor "add component ne555"
  = (mkRESULT false "" "Component 'ne555' not found in libraries", sample_processor).
Proof.
  apply (unknown_bare_name_reported sample_processor (sample_sch [])
           (sample_project (Some sample_adapter)) sample_adapter "ne555");
    try reflexivity.
  intros row symName Hin Hn.
  cbn in Hin.
  repeat (destruct Hin as [Hin | Hin];
          [injection Hin as <-; cbn in Hn;
           repeat (destruct Hn as [<- | Hn]; [discriminate|]); destruct Hn|]).
  destruct Hin.
Defined.

(* ================================================================== *)
(** * The context handed to the assistant                               *)
(* ================================================================== *)

Lemma In_firstn (n : nat) (l : list string) (x : string) : In x (firstn n l) -> In x l.
Proof.
  revert l. induction n as [|n IH]; intros l H; [destruct H|].
  destruct l as [|a l]; [destruct H|]. cbn [firstn] in H.
  destruct H as [<- | H]; [left; reflexivity | right; exact (IH _ H)].
Qed.

Lemma library_entries_length (libNames : list string) (names_of : string -> list string) :
  (List.length (library_entries libNames names_of) <= 1000)%nat.
Proof.
  unfold library_entries.
  assert (B : forall l, (List.length
                           (flat_map (fun libName =>
                                        map (fun n => libName ++ ":" ++ n)
                                            (firstn 50 (names_of libName))) l)
                         <= 50 * List.length l)%nat).
  { induction l as [|x l IH]; cbn [flat_map List.length]; [lia|].
    rewrite length_app, length_map.
    pose proof (firstn_le_length 50 (names_of x)). lia. }
  pose proof (B (firstn 20 libNames)) as H.
  pose proof (firstn_le_length 20 libNames). lia.
Qed.

Lemma library_entries_In (libNames : list string) (names_of : string -> list string)
    (e : string) :
  In e (library_entries libNames names_of) ->
  exists libName n, e = libName ++ ":" ++ n /\ In libName libNames /\ In n (names_of libName).
Proof.
  unfold library_entries. rewrite in_flat_map. intros [lib [Hl He]].
  apply in_map_iff in He as [n [<- Hn]].
  exists lib, n. split; [reflexivity|]. split.
  - exact (In_firstn _ _ _ Hl).
  - exact (In_firstn _ _ _ Hn).
Qed.

Lemma row_nicknames_In (libRows : list (option LIBRARY_TABLE_ROW)) (n : string) :
  In n (row_nicknames libRows) -> exists row, In (Some row) libRows /\ Nickname row = n.
Proof.
  induction libRows as [|[row|] rest IH]; cbn [row_nicknames]; intros H.
  - destruct H.
  - destruct H as [<- | H]; [exists row; split; [left|]; reflexivity|].
    destruct (IH H) as [r [Hi Hn]]. exists r. split; [right; exact Hi | exact Hn].
  - destruct (IH H) as [r [Hi Hn]]. exists r. split; [right; exact Hi | exact Hn].
Qed.

(** X22. The library part of the context is bounded: [gatherSymbolLibraries]
    and [gatherFootprintLibraries] each return at most 1000 entries (20
    libraries, 50 names of each), and every symbol entry reads
    [nickname:name] for a row of the library table and a name that library
    lists. *)
Theorem library_context_is_bounded (p : AI_COMMAND_PROCESSOR) :
  (List.length (gatherSymbolLibraries p) <= 1000)%nat /\
  (List.length (gatherFootprintLibraries p) <= 1000)%nat /\
  forall e, In e (gatherSymbolLibraries p) ->
    exists fr adapter row n,
      m_frame p = Some fr /\ SymbolLibAdapter (Prj fr) = Some adapter /\
      In (Some row) (Rows adapter) /\ In n (GetSymbolNames adapter (Nickname row)) /\
      e = Nickname row ++ ":" ++ n.
Proof.
  split; [|split].
  - unfold gatherSymbolLibraries. repeat break_match; cbn [List.length]; try lia.
    apply library_entries_length.
  - unfold gatherFootprintLibraries. repeat break_match; cbn [List.length]; try lia.
    apply library_entries_length.
  - unfold gatherSymbolLibraries. intros e.
    destruct (m_frame p) as [fr|]; [|intros []].
    destruct (SymbolLibAdapter (Prj fr)) as [adapter|] eqn:Ha; [|intros []].
    intros He. apply library_entries_In in He as [lib [n [-> [Hl Hn]]]].
    apply row_nicknames_In in Hl as [row [Hr <-]].
    exists fr, adapter, row, n. auto.
Qed.

(** X23. Outside the schematic editor the generic handler has no design
    components to list: [list components] answers that none were found, or
    prints the heading with nothing under it, because the only entries of
    the context are library entries, which it leaves out. *)
Theorem list_components_lists_nothing (p : AI_COMMAND_PROCESSOR) (aCommand : string) :
  String.eqb (GetContext p) "schematic" = false ->
  Contains aCommand "help" || Contains aCommand "?" = false ->
  Contains aCommand "list" && Contains aCommand "component" = true ->
  processGenericCommand p aCommand
  = mkRESULT true "No components found in current design." "" \/
  processGenericCommand p aCommand
  = mkRESULT true ("Components in current design:" ++ LF) "".
Proof.
  intros Hc Hh Hl. unfold processGenericCommand. rewrite Hh, Hl.
  assert (A : availableComponents (gatherContext p) = gatherSymbolLibraries p).
  { unfold gatherContext. rewrite Hc. destruct (m_frame p) eqn:Hf; [reflexivity|].
    unfold gatherSymbolLibraries. rewrite Hf. reflexivity. }
  rewrite A.
  assert (F : filter (fun comp => negb (Contains comp ":")) (gatherSymbolLibraries p) = []).
  { unfold gatherSymbolLibraries. repeat break_match; try reflexivity.
    unfold library_entries.
    match goal with |- filter ?f ?l = [] =>
      assert (G : forall x, In x l -> f x = false) end.
    { intros x Hx. apply in_flat_map in Hx as [lib [_ Hx]].
      apply in_map_iff in Hx as [n [<- _]]. rewrite Contains_colon. reflexivity. }
    revert G. generalize (flat_map
      (fun libName : string =>
         map (fun n : string => libName ++ ":" ++ n)
             (firstn 50 (GetSymbolNames s libName)))
      (firstn 20 (row_nicknames (Rows s)))).
    induction l as [|x l IH]; intros G; [reflexivity|]. cbn [filter].
    rewrite (G x (or_introl eq_refl)). apply IH. intros y Hy. apply G. right. exact Hy. }
  destruct (gatherSymbolLibraries p) as [|c0 comps] eqn:E; [left; reflexivity|].
  right. rewrite F. reflexivity.
Qed.

Lemma list_components_lists_nothing_witness :
  let p := mkPROCESSOR
             (Some (mkFRAME (is_plain_frame FRAME_OTHER) (sample_project (Some sample_adapter))))
             true [] in
  processGenericCommand p "list components"
  = mkRESULT true "No components found in current design." "" \/
  processGenericCommand p "list components"
  = mkRESULT true ("Components in current design:" ++ LF) "".
Proof.
  apply (list_components_lists_nothing
           (mkPROCESSOR
              (Some (mkFRAME (is_plain_frame FRAME_OTHER)
                       (sample_project (Some sample_adapter))))
              true []) "list components");
    reflexivity.
Defined.

(* ================================================================== *)
(** * The command history of the chat panel                             *)
(* ================================================================== *)

Lemma erase_first_In (x y : string) (l : list string) :
  In y (Panel.erase_first x l) -> In y l.
Proof.
  induction l as [|a l IH]; cbn [Panel.erase_first]; [tauto|].
  destruct (String.eqb a x); [intros H; right; exact H|].
  intros [<- | H]; [left; reflexivity | right; exact (IH H)].
Qed.

Lemma erase_first_NoDup (x : string) (l : list string) :
  NoDup l -> NoDup (Panel.erase_first x l) /\ ~ In x (Panel.erase_first x l).
Proof.
  induction l as [|a l IH]; cbn [Panel.erase_first]; intros H.
  - split; [constructor | tauto].
  - inversion H as [|? ? Hn Hl]; subst.
    destruct (String.eqb a x) eqn:E.
    + apply String.eqb_eq in E. subst a. split; assumption.
    + apply String.eqb_neq in E. destruct (IH Hl) as [Hd Hx]. split.
      * constructor; [|exact Hd]. intros Hi. exact (Hn (erase_first_In _ _ _ Hi)).
      * intros [Ha | Hi]; [exact (E Ha) | exact (Hx Hi)].
Qed.

Lemma erase_first_length (x : string) (l : list string) :
  (List.length (Panel.erase_first x l) <= List.length l)%nat.
Proof.
  induction l as [|a l IH]; cbn [Panel.erase_first List.length]; [lia|].
  destruct (String.eqb a x); cbn [List.length]; lia.
Qed.

Lemma NoDup_firstn (n : nat) (l : list string) : NoDup l -> NoDup (firstn n l).
Proof.
  revert l. induction n as [|n IH]; intros l H; [constructor|].
  destruct l as [|a l]; [constructor|]. cbn [firstn].
  inversion H as [|? ? Hn Hl]; subst. constructor; [|exact (IH _ Hl)].
  intros Hi. exact (Hn (In_firstn _ _ _ Hi)).
Qed.

(** X24. [addToCommandHistory] keeps the history of the input field in
    order.  After a command that is not blank, the history starts with the
    command, trimmed on the right; when it held no command twice it still
    holds none twice, so a command sent again moves to the front; it has at
    most 50 entries; every entry is the new command or was there before;
    and the index is back on the newest entry.  A blank command changes
    nothing. *)
Theorem command_history_is_kept (c : Panel.PANEL_AI_CHAT) (aCommand : string) :
  NoDup (Panel.m_commandHistory c) ->
  let c' := Panel.addToCommandHistory c aCommand in
  (IsEmpty (Trim true aCommand) = true -> c' = c) /\
  (IsEmpty (Trim true aCommand) = false ->
   Panel.history_ok c' /\
   hd_error (Panel.m_commandHistory c') = Some (Trim true aCommand) /\
   Panel.m_historyIndex c' = 0%nat /\
   forall x, In x (Panel.m_commandHistory c') ->
             x = Trim true aCommand \/ In x (Panel.m_commandHistory c)).
Proof.
  intros Hd. cbv zeta. unfold Panel.addToCommandHistory.
  destruct (IsEmpty (Trim true aCommand)) eqn:E; split; try discriminate; try reflexivity.
  intros _.
  set (t := Trim true aCommand).
  destruct (erase_first_NoDup t _ Hd) as [He Hn].
  assert (N : NoDup (t :: Panel.erase_first t (Panel.m_commandHistory c))).
  { constructor; assumption. }
  set (h := t :: Panel.erase_first t (Panel.m_commandHistory c)) in *.
  assert (I : forall x, In x h -> x = t \/ In x (Panel.m_commandHistory c)).
  { intros x [<- | Hx]; [left; reflexivity | right; exact (erase_first_In _ _ _ Hx)]. }
  unfold Panel.history_ok. cbn [Panel.m_commandHistory Panel.m_historyIndex].
  destruct (Panel.MAX_COMMAND_HISTORY <? List.length h)%nat eqn:L.
  - apply Nat.ltb_lt in L. unfold Panel.MAX_COMMAND_HISTORY in *.
    repeat split.
    + apply NoDup_firstn, N.
    + rewrite length_firstn. lia.
    + rewrite length_firstn. lia.
    + intros x Hx. apply I. exact (In_firstn _ _ _ Hx).
  - apply Nat.ltb_ge in L. repeat split; try assumption.
    unfold h. cbn [List.length]. lia.
Qed.

Lemma command_history_is_kept_witness :
  let c := Panel.mkCHAT ["add component Device:R"; "help"] 1 "" false false "" false in
  let c' := Panel.addToCommandHistory c "help  " in
  Panel.history_ok c' /\
  hd_error (Panel.m_commandHistory c') = Some "help" /\
  Panel.m_historyIndex c' = 0%nat /\
  forall x, In x (Panel.m_commandHistory c') ->
            x = "help" \/ In x (Panel.m_commandHistory c).
Proof.
  cbv zeta.
  refine (proj2 (command_history_is_kept
                   (Panel.mkCHAT ["add component Device:R"; "help"] 1 "" false false ""
                      false) "help  " _) eq_refl).
  repeat constructor; cbn; intuition discriminate.
Defined.

(** X25. Between two commands the arrow keys only move the index inside
    the history: on a panel whose history is in order, [onKeyDown] leaves
    the history as it is and in order, and when it takes the Up or Down key
    the input field shows the entry of the history the index is now on. *)
Theorem history_keys_stay_inside (c : Panel.PANEL_AI_CHAT) (keyCode : Panel.key) :
  Panel.history_ok c ->
  let c' := fst (Panel.onKeyDown c keyCode) in
  Panel.history_ok c' /\
  Panel.m_commandHistory c' = Panel.m_commandHistory c /\
  (Panel.m_historyIndex c' <> Panel.m_historyIndex c ->
   nth_error (Panel.m_commandHistory c') (Panel.m_historyIndex c')
   = Some (Panel.m_inputField c')).
Proof.
  intros [Hd [Hl Hi]]. cbv zeta. unfold Panel.onKeyDown, Panel.history_ok.
  destruct keyCode; cbn [Panel.key_eqb andb].
  - destruct (0 <? Panel.m_historyIndex c)%nat eqn:E; cbn [fst].
    + apply Nat.ltb_lt in E. cbn [Panel.show_entry Panel.m_commandHistory
                                    Panel.m_historyIndex Panel.m_inputField].
      repeat split; try assumption; try lia.
      intros _. apply nth_error_nth'. lia.
    + repeat split; try assumption. congruence.
  - destruct (Panel.m_commandHistory c) as [|a l] eqn:H; cbn [negb andb fst].
    + cbn [List.length] in Hi. lia.
    + destruct (Panel.m_historyIndex c <? List.length (a :: l) - 1)%nat eqn:E; cbn [fst].
      * apply Nat.ltb_lt in E. cbn [Panel.show_entry Panel.m_commandHistory
                                      Panel.m_historyIndex Panel.m_inputField].
        rewrite H. cbn [List.length] in *.
        repeat split; try assumption; try lia.
        intros _. apply nth_error_nth'. cbn [List.length]. lia.
      * rewrite H. repeat split; try assumption. congruence.
  - destruct (Panel.m_isProcessing c); cbn [fst Panel.onCancelButton Panel.m_commandHistory
                                              Panel.m_historyIndex];
      repeat split; try assumption; congruence.
  - cbn [fst]. repeat split; try assumption. congruence.
Qed.

Lemma history_keys_stay_inside_witness :
  let c := Panel.mkCHAT ["connect u1.1 to r1.1"; "add component Device:R"] 0 "" false
             false "" false in
  let c' := fst (Panel.onKeyDown c Panel.WXK_DOWN) in
  Panel.history_ok c' /\
  Panel.m_commandHistory c' = Panel.m_commandHistory c /\
  Panel.m_inputField c' = "add component Device:R".
Proof.
  cbv zeta.
  destruct (history_keys_stay_inside
              (Panel.mkCHAT ["connect u1.1 to r1.1"; "add component Device:R"] 0 "" false
                 false "" false) Panel.WXK_DOWN) as [H1 [H2 H3]].
  - unfold Panel.history_ok, Panel.MAX_COMMAND_HISTORY. cbn. repeat split; try lia.
    repeat constructor; cbn; intuition discriminate.
  - split; [exact H1|]. split; [exact H2|].
    specialize (H3 ltac:(discriminate)).
    exact (f_equal (fun o => match o with Some s => s | None => "" end) (eq_sym H3)).
Defined.

(* ================================================================== *)
(** * The board editor                                                  *)
(* ================================================================== *)

(** X26. In the board editor a trace command is only acknowledged.  For
    coordinates and a width that are not negative and fit an [int],
    [add trace from x1,y1 to x2,y2 width w] is answered with success and the
    message [Would add trace from (x1, y1) to (x2, y2) width w], carrying
    exactly the numbers of the command. *)
Theorem trace_command_is_echoed (p : AI_COMMAND_PROCESSOR) (prj : PROJECT)
    (board : option BOARD) (x1 y1 x2 y2 w : Z) :
  m_frame p = Some (mkFRAME (is_PCB_EDIT_FRAME board) prj) ->
  pcb_types p = true ->
  (0 <= x1 <= INT_MAX)%Z -> (0 <= y1 <= INT_MAX)%Z ->
  (0 <= x2 <= INT_MAX)%Z -> (0 <= y2 <= INT_MAX)%Z -> (0 <= w <= INT_MAX)%Z ->
  processBoardCommand p
    ("add trace from " ++ format_d x1 ++ "," ++ format_d y1 ++ " to " ++ format_d x2
       ++ "," ++ format_d y2 ++ " width " ++ format_d w)
  = mkRESULT true
      ("Would add trace from (" ++ format_d x1 ++ ", " ++ format_d y1 ++ ") to ("
         ++ format_d x2 ++ ", " ++ format_d y2 ++ ") width " ++ format_d w) "".
Proof.
  intros Hf Hp H1 H2 H3 H4 Hw. unfold processBoardCommand.
  rewrite Hf, Hp. cbn [GetFrameType frame_obj].
  assert (A : forall t, Contains ("add trace from " ++ t) "add"
                        && Contains ("add trace from " ++ t) "trace" = true)
    by reflexivity.
  rewrite A, (parse_trace_width x1 y1 x2 y2 w 0 H1 H2 H3 H4 Hw). reflexivity.
Qed.

Lemma trace_command_is_echoed_witness :
  processBoardCommand sample_processor_board "add trace from 0,0 to 100,100 width 10"
  = mkRESULT true "Would add trace from (0, 0) to (100, 100) width 10" "".
Proof.
  refine (trace_command_is_echoed sample_processor_board _ _ 0 0 100 100 10 eq_refl eq_refl
            _ _ _ _ _); unfold INT_MAX; lia.
Defined.

(* ================================================================== *)
(** * Commands that edit nothing                                        *)
(* ================================================================== *)

(** X27. Only placements and connections reach the host.  When the
    command, lower-cased and trimmed as [processDirectCommand] does, holds
    neither [add] nor [connect] nor [wire], the frame is left as it was,
    whatever the result: [modify] and [change] commands are acknowledged
    without any change to the design. *)
Theorem only_add_and_connect_edit (p : AI_COMMAND_PROCESSOR) (aCommand : string) :
  Contains (Trim true (Lower aCommand)) "add" = false ->
  Contains (Trim true (Lower aCommand)) "connect" = false ->
  Contains (Trim true (Lower aCommand)) "wire" = false ->
  m_frame (snd (processDirectCommand p aCommand)) = m_frame p.
Proof.
  intros Ha Hc Hw. unfold processDirectCommand.
  set (p0 := mkPROCESSOR _ _ _).
  destruct (String.eqb (GetContext p0) "schematic"); [|destruct (String.eqb _ _); reflexivity].
  unfold processSchematicCommand. rewrite Ha, Hc, Hw. cbn [andb orb].
  repeat break_match; reflexivity.
Qed.

Lemma only_add_and_connect_edit_witness :
  success (fst (processDirectCommand sample_processor_U1_C1 "Modify component U1")) = true /\
  m_frame (snd (processDirectCommand sample_processor_U1_C1 "Modify component U1"))
  = m_frame sample_processor_U1_C1.
Proof.
  split; [reflexivity|].
  apply (only_add_and_connect_edit sample_processor_U1_C1 "Modify component U1");
    reflexivity.
Defined.

(* ================================================================== *)
(** * One answer, two ways of asking                                    *)
(* ================================================================== *)

(** X28. For an answer of one line, streamed and buffered requests agree.
    When the body is a single line without white space at its end that the
    JSON library reads as an object with a string [response], the streamed
    request returns the response the buffered request returns, and has
    handed that string to the callback once. *)
Theorem one_line_answer_agrees
    (json_parse : string -> json + string) (type_error_what : json -> string)
    (http_post : string -> string -> curl_result) (World : Type)
    (svc : OLLAMA_AI_SERVICE) (aEndpoint aJsonPayload body text : string) (j : json)
    (callback : string -> World -> World) (w : World) :
  http_post (m_baseUrl svc ++ aEndpoint) aJsonPayload = curl_ok body ->
  free_of (ascii_of_nat 10) body = true ->
  Trim true body = body -> IsEmpty body = false ->
  json_parse body = inl j ->
  json_contains j "response" = true ->
  get_string (json_at j "response") = Some text ->
  makeApiRequest json_parse type_error_what http_post World svc aEndpoint aJsonPayload
    true (Some callback) w
  = (fst (makeApiRequest json_parse type_error_what http_post World svc aEndpoint
            aJsonPayload false None w),
     callback text w).
Proof.
  intros Hp Hf Ht He Hj Hc Hs. unfold makeApiRequest. rewrite Hp.
  rewrite (wxStringTokenizer_line _ _ Hf), He, Hj, Hc, Hs.
  cbn [stream_loop fst]. rewrite Ht, He, Hj, Hc, Hs.
  destruct (json_contains j "done"); [destruct (get_bool (json_at j "done")) as [[|]|]|];
    reflexivity.
Qed.

Lemma one_line_answer_agrees_witness :
  makeApiRequest sample_json_parse (fun _ => "") (fun _ _ => curl_ok "line3")
    panel sample_service "/api/generate" "payload" true (Some (panel_on_chunk 9)) panel0
  = (fst (makeApiRequest sample_json_parse (fun _ => "") (fun _ _ => curl_ok "line3")
            panel sample_service "/api/generate" "payload" false None panel0),
     panel_on_chunk 9 "Device:R" panel0).
Proof.
  apply (one_line_answer_agrees sample_json_parse (fun _ => "")
           (fun _ _ => curl_ok "line3") panel sample_service "/api/generate" "payload"
           "line3" "Device:R"
           (JObject [("response", JString "Device:R"); ("done", JBool false)])
           (panel_on_chunk 9) panel0); reflexivity.
Defined.

(* ================================================================== *)
(** * The report of a run                                               *)
(* ================================================================== *)

Lemma idle_edits (p q : AI_COMMAND_PROCESSOR) :
  m_frame q = m_frame p -> edits_between p q [] (map label_of []).
Proof.
  intros H. unfold edits_between, screen_of, commits_of. rewrite H, !app_nil_r. auto.
Qed.

Lemma processDirectCommand_failure (p : AI_COMMAND_PROCESSOR) (aCommand : string) :
  success (fst (processDirectCommand p aCommand)) = false ->
  m_frame (snd (processDirectCommand p aCommand)) = m_frame p.
Proof.
  unfold processDirectCommand.
  set (p0 := mkPROCESSOR _ _ _).
  destruct (String.eqb (GetContext p0) "schematic"); [|destruct (String.eqb _ _); reflexivity].
  destruct (processSchematicCommand p0 (Trim true (Lower aCommand))) as [r p'] eqn:E.
  cbn [fst snd]. intros Hs.
  rewrite (processSchematicCommand_failure _ _ _ _ E Hs). reflexivity.
Qed.

(** One command of a pass: the items it adds are counted as executed. *)
Lemma run_command_counted (cmd : string) (t : tally) (p : AI_COMMAND_PROCESSOR) :
  exists items,
    edits_between p (snd (run_command cmd t p)) items (map label_of items) /\
    (commandCount t + Z.of_nat (List.length items)
     <= commandCount (fst (run_command cmd t p)))%Z.
Proof.
  unfold run_command.
  pose proof (processDirectCommand_edits p cmd) as [items [E N]].
  pose proof (processDirectCommand_failure p cmd) as F.
  destruct (processDirectCommand p cmd) as [r p1]. cbn [fst snd] in *.
  destruct (success r).
  - exists items. split; [exact E|]. cbn [fst commandCount]. lia.
  - exists []. split; [exact (idle_edits _ _ (F eq_refl))|]. cbn. lia.
Qed.

Lemma run_pass_counted (in_pass : string -> bool) (allCommands : list string) :
  forall t p, exists items,
    edits_between p (snd (run_pass in_pass allCommands t p)) items (map label_of items) /\
    (commandCount t + Z.of_nat (List.length items)
     <= commandCount (fst (run_pass in_pass allCommands t p)))%Z.
Proof.
  induction allCommands as [|c rest IH]; intros t p; cbn [run_pass].
  - exists []. split; [apply idle_edits; reflexivity | cbn; lia].
  - destruct (in_pass (Trim true (Trim false c))); [|apply IH].
    destruct (run_command_counted (Trim true (Trim false c)) t p) as [i1 [E1 N1]].
    destruct (run_command (Trim true (Trim false c)) t p) as [t1 p1]. cbn [fst snd] in *.
    destruct (IH t1 p1) as [i2 [E2 N2]].
    exists (i1 ++ i2)%list. split; [exact (edits_between_trans _ _ _ _ _ E1 E2)|].
    rewrite length_app, Nat2Z.inj_add. lia.
Qed.

(** X29. The report of [ProcessCommandsFromResponse] accounts for the run.
    The message of a successful run is the report of two counts that are
    not negative: together they are the number of commands attempted, and
    the schematic has gained at most as many items as the first count, the
    commands reported as executed. *)
Theorem report_accounts_for_the_run (p : AI_COMMAND_PROCESSOR) (aResponse : string) :
  success (fst (ProcessCommandsFromResponse p aResponse)) = true ->
  exists t items,
    message (fst (ProcessCommandsFromResponse p aResponse)) = report t /\
    (0 <= commandCount t)%Z /\ (0 <= failedCount t)%Z /\
    (commandCount t + failedCount t)%Z
    = Z.of_nat (List.length (attempted p (snd (ProcessCommandsFromResponse p aResponse)))) /\
    edits_between p (snd (ProcessCommandsFromResponse p aResponse)) items
      (map label_of items) /\
    (Z.of_nat (List.length items) <= commandCount t)%Z.
Proof.
  unfold attempted. rewrite length_skipn.
  unfold ProcessCommandsFromResponse.
  destruct (m_frame p) eqn:Hf; [|discriminate].
  pose proof (run_pass_counts in_pass1 (mine aResponse) tally0 p) as C1.
  destruct (run_pass_counted in_pass1 (mine aResponse) tally0 p) as [i1 [E1 N1]].
  destruct (run_pass in_pass1 (mine aResponse) tally0 p) as [t1 p1].
  cbn [fst snd tally0 commandCount failedCount] in C1, E1, N1.
  pose proof (run_pass_counts in_pass2 (mine aResponse) t1 (mark_modified t1 p1)) as C2.
  destruct (run_pass_counted in_pass2 (mine aResponse) t1 (mark_modified t1 p1))
    as [i2 [E2 N2]].
  destruct (run_pass in_pass2 (mine aResponse) t1 (mark_modified t1 p1)) as [t2 p2].
  cbn [fst snd] in C2, E2, N2. rewrite mark_modified_journal in C2.
  destruct (mark_modified_edits t1 p1) as [Ms Mc].
  assert (E2' : edits_between p1 p2 i2 (map label_of i2)).
  { destruct E2 as [S2 [K2 L2]]. unfold edits_between. rewrite <- Ms, <- Mc. auto. }
  destruct ((0 <? commandCount t2)%Z || (0 <? failedCount t2)%Z); [|discriminate].
  intros _. cbn [fst snd message]. exists t2, (i1 ++ i2)%list.
  repeat split; try lia.
  - exact (proj1 (edits_between_trans _ _ _ _ _ E1 E2')).
  - exact (proj1 (proj2 (edits_between_trans _ _ _ _ _ E1 E2'))).
  - exact (proj2 (proj2 (edits_between_trans _ _ _ _ _ E1 E2'))).
  - rewrite length_app, Nat2Z.inj_add. lia.
Qed.

Lemma report_accounts_for_the_run_witness :
  exists t items,
    message (fst (ProcessCommandsFromResponse sample_processor sample_response)) = report t /\
    (0 <= commandCount t)%Z /\ (0 <= failedCount t)%Z /\
    (commandCount t + failedCount t)%Z
    = Z.of_nat (List.length
                  (attempted sample_processor
                     (snd (ProcessCommandsFromResponse sample_processor sample_response)))) /\
    edits_between sample_processor
      (snd (ProcessCommandsFromResponse sample_processor sample_response)) items
      (map label_of items) /\
    (Z.of_nat (List.length items) <= commandCount t)%Z.
Proof.
  exact (report_accounts_for_the_run sample_processor sample_response eq_refl).
Defined.

(* ================================================================== *)
(** * The coordinate 0,0                                                *)
(* ================================================================== *)

(** However an add-component command comes to parse with the position left
    at 0,0, the handler takes it for a command without position: two such
    commands for one name give the same result and host, and a successful
    placement puts the symbol at the default position. *)
Lemma zero_position_handling
    (p : AI_COMMAND_PROCESSOR) (schFrame : SCH_EDIT_FRAME) (prj : PROJECT)
    (aCommand aCommand' componentName : string) :
  m_frame p = Some (mkFRAME (is_SCH_EDIT_FRAME schFrame) prj) ->
  is_add_component aCommand = true ->
  is_add_component aCommand' = true ->
  parseAddComponent aCommand (mkVECTOR2I 0 0) = Some (componentName, mkVECTOR2I 0 0) ->
  parseAddComponent aCommand' (mkVECTOR2I 0 0) = Some (componentName, mkVECTOR2I 0 0) ->
  processSchematicCommand p aCommand = processSchematicCommand p aCommand' /\
  forall r p',
    processSchematicCommand p aCommand = (r, p') -> success r = true ->
    message r = "Added component '" ++ componentName ++ "' at (100000, 100000)" /\
    exists s,
      sym_Position s = mkVECTOR2I 100000 100000 /\
      screen_of p' = (screen_of p ++ [item_symbol s])%list.
Proof.
  intros Hf Hadd Hadd' Hparse Hparse'.
  unfold is_add_component in Hadd, Hadd'.
  split.
  - unfold processSchematicCommand. rewrite Hf. cbn [frame_obj Prj].
    rewrite Hadd, Hadd', Hparse, Hparse'. reflexivity.
  - intros r p'. unfold processSchematicCommand. rewrite Hf. cbn [frame_obj Prj].
    rewrite Hadd, Hparse. cbn [vx vy Z.eqb negb orb].
    assert (Hplace : forall libId,
               place_and_report p componentName libId default_position = (r, p') ->
               success r = true ->
               message r = "Added component '" ++ componentName ++ "' at (100000, 100000)" /\
               exists s, sym_Position s = mkVECTOR2I 100000 100000 /\
                         screen_of p' = (screen_of p ++ [item_symbol s])%list).
    { intros libId H Hs.
      destruct (place_and_report_placed _ _ _ _ _ _ _ _ Hf H Hs)
        as [Hm [adapter [row [s [_ [_ [_ [_ [Hpos [Hscr _]]]]]]]]]].
      split; [exact Hm|]. exists s. split; assumption. }
    destruct (Contains componentName ":").
    + destruct (SymbolLibAdapter prj) as [adapter|].
      * destruct (IsEmpty (find_actualLibName (Rows_BOTH_all adapter)
                             (BeforeFirst componentName ":"))).
        -- intros H Hs. injection H as <- <-. discriminate Hs.
        -- apply Hplace.
      * apply Hplace.
    + destruct (findSymbolByName p componentName (mkLIB_ID "" "")) as [[|] libId].
      * apply Hplace.
      * intros H Hs. injection H as <- <-. discriminate Hs.
Qed.

Lemma name_text_tail (n : component_name) (tail : string) :
  well_formed n = true -> tail = " at 0,0" \/ tail = "" ->
  parseAddComponent ("add component " ++ name_text n ++ tail) (mkVECTOR2I 0 0)
  = Some (name_text n, mkVECTOR2I 0 0).
Proof.
  intros Hn Ht. destruct n as [lib sym | sym]; cbn [name_text well_formed] in *.
  - apply andb_true_iff in Hn as [Hl Hs].
    rewrite append_assoc_s. change ((":" ++ sym) ++ tail) with (":" ++ sym ++ tail).
    apply parse_lib_sym; assumption.
  - apply parse_bare_sym; assumption.
Qed.

(** ** Placement that succeeds *)

(** The placement loop finds a symbol as soon as one row that matches the
    nickname loads it. *)
Lemma place_scan_finds (adapter : SYMBOL_LIBRARY_ADAPTER)
    (libRows : list (option LIBRARY_TABLE_ROW)) (libNickname libItemName : string) :
  forall actual0,
    (exists row, In (Some row) libRows /\ CmpNoCase (Nickname row) libNickname = Eq /\
                 LoadSymbol adapter (Nickname row) libItemName <> None) ->
    exists actual libSymbol,
      place_scan adapter libRows libNickname libItemName actual0 = (actual, Some libSymbol).
Proof.
  induction libRows as [|[row0|] rest IH]; intros actual0 [row [Hin [Hc Hl]]].
  - destruct Hin.
  - cbn [place_scan].
    destruct (is_Eq (CmpNoCase (Nickname row0) libNickname)) eqn:E.
    + destruct (LoadSymbol adapter (Nickname row0) libItemName) as [ls|] eqn:L; [eauto|].
      destruct Hin as [Heq | Hin]; [injection Heq as ->; congruence|].
      apply IH. exists row. auto.
    + destruct Hin as [Heq | Hin];
        [injection Heq as ->; rewrite Hc in E; discriminate|].
      apply IH. exists row. auto.
  - cbn [place_scan]. destruct Hin as [Heq | Hin]; [discriminate|].
    apply IH. exists row. auto.
Qed.

(** On a sheet with a screen, a symbol that loads from a matching row is
    placed: the report is the success message, and one symbol is added at
    the position asked for. *)
Lemma place_and_report_succeeds (p : AI_COMMAND_PROCESSOR) (schFrame : SCH_EDIT_FRAME)
    (prj : PROJECT) (adapter : SYMBOL_LIBRARY_ADAPTER) (componentName : string)
    (libId : LIB_ID) (position : VECTOR2I) :
  m_frame p = Some (mkFRAME (is_SCH_EDIT_FRAME schFrame) prj) ->
  SymbolLibAdapter prj = Some adapter ->
  GetScreen schFrame <> None ->
  (exists row, In (Some row) (Rows adapter) /\
               CmpNoCase (Nickname row) (GetLibNickname libId) = Eq /\
               LoadSymbol adapter (Nickname row) (GetLibItemName libId) <> None) ->
  exists p' s,
    place_and_report p componentName libId position
    = (mkRESULT true
         ("Added component '" ++ componentName ++ "' at (" ++ format_d (vx position)
            ++ ", " ++ format_d (vy position) ++ ")") "", p') /\
    sym_Position s = position /\
    screen_of p' = (screen_of p ++ [item_symbol s])%list /\
    commits_of p' = (commits_of p ++ ["Place Symbol"])%list.
Proof.
  intros Hf Ha Hscreen Hrow.
  assert (X : exists p', executePlaceComponent p libId position = (true, p')).
  { unfold executePlaceComponent. rewrite Hf. cbn [frame_obj Prj]. rewrite Ha.
    destruct (place_scan_finds adapter (Rows adapter) (GetLibNickname libId)
                (GetLibItemName libId) "" Hrow) as [actual [libSymbol S]].
    rewrite S. destruct (GetScreen schFrame); [eauto | congruence]. }
  destruct X as [p' X].
  destruct (executePlaceComponent_edit _ _ _ _ X) as [s [Hp [Hs Hc]]].
  exists p', s. unfold place_and_report. rewrite X. auto.
Qed.

Lemma CmpNoCase_refl (a : string) : CmpNoCase a a = Eq.
Proof. apply CmpNoCase_Eq. reflexivity. Qed.

Lemma CmpNoCase_sym (a b : string) : CmpNoCase a b = Eq -> CmpNoCase b a = Eq.
Proof. rewrite !CmpNoCase_Eq. congruence. Qed.

Lemma find_in_rows_finds (adapter : SYMBOL_LIBRARY_ADAPTER)
    (libRows : list (option LIBRARY_TABLE_ROW)) (aSymbolName : string) :
  (exists row listed, In (Some row) libRows /\
                      In listed (GetSymbolNames adapter (Nickname row)) /\
                      CmpNoCase listed aSymbolName = Eq) ->
  exists found, find_in_rows adapter libRows aSymbolName = Some found.
Proof.
  intros [row [listed [Hin [Hl Hc]]]].
  destruct (find_in_rows adapter libRows aSymbolName) as [found|] eqn:E; [eauto|].
  destruct (find_in_rows_none _ _ _ E _ _ Hin Hl Hc).
Qed.

(** An add-component command for an available name, the position parsed
    being 0,0: the symbol is placed at the default position. *)
Lemma zero_position_placed
    (p : AI_COMMAND_PROCESSOR) (schFrame : SCH_EDIT_FRAME) (prj : PROJECT)
    (adapter : SYMBOL_LIBRARY_ADAPTER) (n : component_name) (aCommand : string) :
  m_frame p = Some (mkFRAME (is_SCH_EDIT_FRAME schFrame) prj) ->
  SymbolLibAdapter prj = Some adapter ->
  GetScreen schFrame <> None ->
  well_formed n = true ->
  available adapter n ->
  is_add_component aCommand = true ->
  parseAddComponent aCommand (mkVECTOR2I 0 0) = Some (name_text n, mkVECTOR2I 0 0) ->
  exists p' s,
    processSchematicCommand p aCommand
    = (mkRESULT true ("Added component '" ++ name_text n ++ "' at (100000, 100000)") "",
       p') /\
    sym_Position s = mkVECTOR2I 100000 100000 /\
    screen_of p' = (screen_of p ++ [item_symbol s])%list /\
    commits_of p' = (commits_of p ++ ["Place Symbol"])%list.
Proof.
  intros Hf Ha Hscreen Hn Hav Hadd Hparse.
  unfold is_add_component in Hadd.
  unfold processSchematicCommand. rewrite Hf. cbn [frame_obj Prj].
  rewrite Hadd, Hparse. cbn [vx vy Z.eqb negb orb].
  destruct n as [lib sym | sym]; cbn [name_text well_formed available] in *.
  - apply andb_true_iff in Hn as [Hl Hs].
    destruct Hav as [Htable [row [Hin [Hc Hload]]]].
    destruct (find_actualLibName_found _ _ Htable) as [row0 [Hin0 [Hc0 Hfind]]].
    destruct (split_lib_sym lib sym (ident_free_of_colon lib Hl)) as [B A].
    assert (Hne : IsEmpty lib = false).
    { unfold is_ident in Hl. destruct lib; [discriminate | reflexivity]. }
    rewrite Contains_colon, Ha, B, A, Hfind, (CmpNoCase_nonempty _ _ Hc0 Hne).
    apply (place_and_report_succeeds p schFrame prj adapter); try assumption.
    exists row. cbn [GetLibNickname GetLibItemName].
    split; [exact Hin|]. split; [|exact Hload].
    exact (CmpNoCase_trans _ _ _ Hc (CmpNoCase_sym _ _ Hc0)).
  - destruct Hav as [Hlisted Hload].
    assert (Hcolon : Contains sym ":" = false).
    { apply Contains_free, all_word_free_of_colon.
      unfold is_ident in Hn. apply andb_true_iff in Hn as [_ Hn]. exact Hn. }
    rewrite Hcolon. unfold findSymbolByName. rewrite Hf. cbn [Prj]. rewrite Ha, Hcolon.
    destruct (find_in_rows_finds adapter (Rows adapter) sym Hlisted) as [found E].
    rewrite E.
    destruct (find_in_rows_some _ _ _ _ E) as [row [Hin [Hnick [Hl Hc]]]].
    apply (place_and_report_succeeds p schFrame prj adapter); try assumption.
    exists row. split; [exact Hin|]. split.
    + rewrite Hnick. apply CmpNoCase_refl.
    + exact (Hload row _ Hin Hl Hc).
Qed.

(** C10.  In the schematic editor, for every component name of the command
    grammar (lib:sym or a bare symbol), the command [add component <name> at
    0,0] is handled exactly like [add component <name>]: the parsed position
    0,0 is taken for "no position", both commands give the same result and
    host, and whenever the placement succeeds the symbol stands at the
    default position (100000, 100000).  On a sheet with a screen, for a name
    that is available in the libraries, the placement does succeed: both
    commands answer [Added component '<name>' at (100000, 100000)] and add
    one symbol to the screen, at (100000, 100000). *)
Theorem zero_coordinate_means_default
    (p : AI_COMMAND_PROCESSOR) (schFrame : SCH_EDIT_FRAME) (prj : PROJECT)
    (n : component_name) :
  m_frame p = Some (mkFRAME (is_SCH_EDIT_FRAME schFrame) prj) ->
  well_formed n = true ->
  processSchematicCommand p ("add component " ++ name_text n ++ " at 0,0")
  = processSchematicCommand p ("add component " ++ name_text n) /\
  (forall r p',
     processSchematicCommand p ("add component " ++ name_text n ++ " at 0,0") = (r, p') ->
     success r = true ->
     message r = "Added component '" ++ name_text n ++ "' at (100000, 100000)" /\
     exists s,
       sym_Position s = mkVECTOR2I 100000 100000 /\
       screen_of p' = (screen_of p ++ [item_symbol s])%list) /\
  (forall adapter,
     SymbolLibAdapter prj = Some adapter ->
     GetScreen schFrame <> None ->
     available adapter n ->
     exists p' s,
       processSchematicCommand p ("add component " ++ name_text n ++ " at 0,0")
       = (mkRESULT true ("Added component '" ++ name_text n ++ "' at (100000, 100000)") "",
          p') /\
       processSchematicCommand p ("add component " ++ name_text n)
       = (mkRESULT true ("Added component '" ++ name_text n ++ "' at (100000, 100000)") "",
          p') /\
       sym_Position s = mkVECTOR2I 100000 100000 /\
       screen_of p' = (screen_of p ++ [item_symbol s])%list /\
       commits_of p' = (commits_of p ++ ["Place Symbol"])%list).
Proof.
  intros Hf Hn.
  pose proof (name_text_tail n " at 0,0" Hn (or_introl eq_refl)) as P0.
  pose proof (name_text_tail n "" Hn (or_intror eq_refl)) as P1.
  rewrite append_empty_r in P1.
  destruct (zero_position_handling p schFrame prj _ _ (name_text n) Hf
              (is_add_component_text _) (is_add_component_text _) P0 P1) as [Hsame Hpos].
  split; [exact Hsame|]. split; [exact Hpos|].
  intros adapter Ha Hscreen Hav.
  destruct (zero_position_placed p schFrame prj adapter n _ Hf Ha Hscreen Hn Hav
              (is_add_component_text _) P0) as [p' [s [Hrun [Hp [Hs Hc]]]]].
  exists p', s. split; [exact Hrun|]. split; [rewrite <- Hsame; exact Hrun|]. auto.
Qed.

Lemma zero_coordinate_means_default_witness :
  (processSchematicCommand sample_processor "add component Device:R at 0,0"
   = processSchematicCommand sample_processor "add component Device:R" /\
   exists p' s,
     processSchematicCommand sample_processor "add component Device:R at 0,0"
     = (mkRESULT true "Added component 'Device:R' at (100000, 100000)" "", p') /\
     processSchematicCommand sample_processor "add component Device:R"
     = (mkRESULT true "Added component 'Device:R' at (100000, 100000)" "", p') /\
     sym_Position s = mkVECTOR2I 100000 100000 /\
     screen_of p' = (screen_of sample_processor ++ [item_symbol s])%list /\
     commits_of p' = (commits_of sample_processor ++ ["Place Symbol"])%list) /\
  exists p' s,
    processSchematicCommand sample_processor "add component lm7805 at 0,0"
    = (mkRESULT true "Added component 'lm7805' at (100000, 100000)" "", p') /\
    processSchematicCommand sample_processor "add component lm7805"
    = (mkRESULT true "Added component 'lm7805' at (100000, 100000)" "", p') /\
    sym_Position s = mkVECTOR2I 100000 100000 /\
    screen_of p' = (screen_of sample_processor ++ [item_symbol s])%list /\
    commits_of p' = (commits_of sample_processor ++ ["Place Symbol"])%list.
Proof.
  assert (Device : In (Some (mkROW "Device")) sample_rows) by (left; reflexivity).
  destruct (zero_coordinate_means_default sample_processor (sample_sch [])
              (sample_project (Some sample_adapter)) (lib_sym "Device" "R")
              eq_refl eq_refl) as [Hsame [_ Hplaced]].
  destruct (zero_coordinate_means_default sample_processor (sample_sch [])
              (sample_project (Some sample_adapter)) (bare_sym "lm7805")
              eq_refl eq_refl) as [_ [_ Hbare]].
  split; [split; [exact Hsame|]|].
  - apply (Hplaced sample_adapter eq_refl); [discriminate|].
    split; exists (mkROW "Device"); repeat split; try assumption; discriminate.
  - apply (Hbare sample_adapter eq_refl); [discriminate|].
    split.
    + exists (mkROW "Device"), "LM7805". repeat split; [assumption|].
      right. right. left. reflexivity.
    + intros row listed Hin Hl _.
      destruct Hin as [E | [E | []]]; injection E as <-; cbn in Hl;
        repeat (destruct Hl as [<- | Hl]; [discriminate|]); destruct Hl.
Defined.

(** The same on the sample host, by running it: with [at 0,0] and without a
    coordinate the symbol lands at (100000, 100000); a bare name behaves
    alike. *)
Example zero_coordinate_run :
  let '(r, p') := processSchematicCommand sample_processor "add component Device:R at 0,0" in
  let '(r0, p0) := processSchematicCommand sample_processor "add component Device:R" in
  let '(r1, p1) := processSchematicCommand sample_processor "add component LM7805 at 0,0" in
  (r, p') = (r0, p0) /\
  message r = "Added component 'Device:R' at (100000, 100000)" /\
  message r1 = "Added component 'LM7805' at (100000, 100000)" /\
  map (fun i => match i with
                | item_symbol s => sym_Position s
                | item_wire _ _ _ => origin
                end) (screen_of p') = [mkVECTOR2I 100000 100000].
Proof. vm_compute. repeat split. Qed.

